(** * FARM evaluation metrics ([farm/evaluation/metrics.py])

    A shallow embedding of the metric dispatcher, the span-based question
    answering metrics and the text-similarity rank metric, together with
    the properties the specification states about them.

    Conventions of the embedding:
    - a Python exception is a value of [exn]; a computation that may raise
      has type [result A];
    - Python [int] is [Z]; lengths and list positions are [nat];
    - a Python [float] is the rational it denotes ([Q]); the metrics, which
      are ratios and means, are computed on these rationals.  The one
      non-numeric float they can produce, the [nan] that [numpy.mean]
      returns on an empty sequence, is kept as a separate value of
      [pyfloat];
    - where the code turns a float into a list position
      ([int(current_score*10)] in [metrics_per_bin]) the product is the
      IEEE 754 binary64 product: [round64] rounds a rational to the nearest
      double, ties to even, with subnormals and overflow to infinity.  A
      score written as a rational stands for the double nearest to it, as
      a Python literal does;
    - [for i in range(n)] is a monadic fold over [seq 0 n], with the
      subscripts written as the source writes them. *)

From Stdlib Require Import ZArith QArith Qround Qpower Lia Lqa.
From Stdlib Require Import Floats.SpecFloat.
From stdpp Require Import gmap strings list.

Local Open Scope Z_scope.

(** ** Python runtime: exceptions, subscripts, arithmetic *)

Inductive exn :=
| AssertionError
| KeyError (key : string)
| IndexError
| ValueError
| TypeError
| ZeroDivisionError
| OverflowError
| AttributeError (msg : string).

Inductive result (A : Type) :=
| Ok (a : A)
| Raise (e : exn).
Arguments Ok {A} a.
Arguments Raise {A} e.

#[global] Instance result_ret : MRet result := fun A a => Ok a.

#[global] Instance result_bind : MBind result := fun A B k m =>
  match m with
  | Ok a => k a
  | Raise e => Raise e
  end.

(** [for x in xs: s = body(s, x)], stopping at the first exception. *)
Fixpoint foldM {S A} (body : S -> A -> result S) (s : S) (xs : list A)
  : result S :=
  match xs with
  | [] => Ok s
  | x :: xs' => s' ← body s x; foldM body s' xs'
  end.

(** [[f(x) for x in xs]], elements evaluated left to right. *)
Fixpoint comprehension {A B} (f : A -> result B) (xs : list A)
  : result (list B) :=
  match xs with
  | [] => Ok []
  | x :: xs' => y ← f x; ys ← comprehension f xs'; Ok (y :: ys)
  end.

(** [xs[i]] for a position [i >= 0]. *)
Definition subscript {A} (xs : list A) (i : nat) : result A :=
  match xs !! i with
  | Some x => Ok x
  | None => Raise IndexError
  end.

(** [xs[i]] for an arbitrary integer: negative positions count from the
    end, anything outside [-len, len) raises. *)
Definition normalize_index (len : nat) (i : Z) : result nat :=
  if (0 <=? i) && (i <? Z.of_nat len) then Ok (Z.to_nat i)
  else if (- Z.of_nat len <=? i) && (i <? 0) then Ok (Z.to_nat (i + Z.of_nat len))
  else Raise IndexError.

(** [list(range(lo, hi))] *)
Definition range (lo hi : Z) : list Z := seqZ lo (hi - lo).

(** [a / b] on numbers. *)
Definition truediv (a b : Q) : result Q :=
  if Qeq_bool b 0 then Raise ZeroDivisionError else Ok (a / b)%Q.

(** [len(xs)] as a number. *)
Definition len {A} (xs : list A) : Q := inject_Z (Z.of_nat (length xs)).

(** Truth value of a number: [if x:]. *)
Definition truthy (x : Q) : bool := negb (Qeq_bool x 0).

(** [max(xs)]: the first greatest element; [ValueError] on an empty list. *)
Definition py_max (xs : list Q) : result Q :=
  match xs with
  | [] => Raise ValueError
  | x :: xs' =>
      Ok (fold_left (fun m y => if Qle_bool y m then m else y) xs' x)
  end.

(** Floats as results of [numpy.mean]. *)
Inductive pyfloat :=
| Fin (q : Q)
| NaN.

Definition Qsum (xs : list Q) : Q := fold_left Qplus xs 0%Q.

(** [numpy.mean(xs)] on a Python list of numbers: the empty mean is [nan]
    (numpy warns, it does not raise). *)
Definition np_mean (xs : list Q) : pyfloat :=
  match xs with
  | [] => NaN
  | _ => Fin (Qsum xs / len xs)%Q
  end.

(** ** Span question answering: data *)

Record QACandidate := {
  offset_answer_start : Z;
  offset_answer_end : Z;
  score : Q
}.

(** The prediction for one document is subscripted as [pred[0][k]]: its
    first element is the list of candidates, best first. *)
Definition DocPred := list (list QACandidate).

(** Gold spans of one document, as [(start, end)] tuples. *)
Definition DocLabels := list (Z * Z).

(** ** Span question answering: metrics *)

Definition squad_f1_single (pred : list QACandidate) (label : Z * Z)
  (pred_idx : nat) : result Q :=
  let '(label_start, label_end) := label in
  span ← subscript pred pred_idx;
  let pred_start := offset_answer_start span in
  let pred_end := offset_answer_end span in
  if (pred_start + pred_end =? 0) || (label_start + label_end =? 0) then
    if pred_start =? label_start then Ok 1%Q else Ok 0%Q
  else
    let pred_span := range pred_start (pred_end + 1) in
    let label_span := range label_start (label_end + 1) in
    let n_overlap :=
      len (filter (fun x => x ∈ label_span) pred_span) in
    if Qeq_bool n_overlap 0 then Ok 0%Q
    else
      precision ← truediv n_overlap (len pred_span);
      recall ← truediv n_overlap (len label_span);
      truediv (2 * precision * recall)%Q (precision + recall)%Q.

(** [preds[doc_idx][0][0]], the best candidate of document [doc_idx]. *)
Definition best_candidate (preds : list DocPred) (doc_idx : nat)
  : result QACandidate :=
  doc ← subscript preds doc_idx;
  candidates ← subscript doc 0;
  subscript candidates 0.

(** [n_correct/n_docs if n_docs else 0] *)
Definition ratio_or_zero (n_correct n_docs : nat) : result Q :=
  if (n_docs =? 0)%nat then Ok 0%Q
  else truediv (inject_Z (Z.of_nat n_correct)) (inject_Z (Z.of_nat n_docs)).

Definition squad_EM (preds : list DocPred) (labels : list DocLabels)
  : result Q :=
  let n_docs := length preds in
  n_correct ← foldM (fun (n_correct : nat) doc_idx =>
      qa_candidate ← best_candidate preds doc_idx;
      let pred_start := offset_answer_start qa_candidate in
      let pred_end := offset_answer_end qa_candidate in
      curr_labels ← subscript labels doc_idx;
      if bool_decide ((pred_start, pred_end) ∈ curr_labels)
      then Ok (n_correct + 1)%nat else Ok n_correct)
    0%nat (seq 0 n_docs);
  ratio_or_zero n_correct n_docs.

Definition squad_EM_start (preds : list DocPred) (labels : list DocLabels)
  : result Q :=
  let n_docs := length preds in
  n_correct ← foldM (fun (n_correct : nat) doc_idx =>
      qa_candidate ← best_candidate preds doc_idx;
      curr_labels ← subscript labels doc_idx;
      let pred := offset_answer_start qa_candidate in
      let curr_label := map (fun label : Z * Z => label.2) curr_labels in
      if bool_decide (pred ∈ curr_label)
      then Ok (n_correct + 1)%nat else Ok n_correct)
    0%nat (seq 0 n_docs);
  ratio_or_zero n_correct n_docs.

Definition squad_f1 (preds : list DocPred) (labels : list DocLabels)
  : result pyfloat :=
  let n_docs := length preds in
  f1_scores ← foldM (fun (f1_scores : list Q) i =>
      doc ← subscript preds i;
      best_pred ← subscript doc 0;
      curr_labels ← subscript labels i;
      scores ← comprehension (fun label => squad_f1_single best_pred label 0)
                 curr_labels;
      best_f1 ← py_max scores;
      Ok (f1_scores ++ [best_f1]))
    [] (seq 0 n_docs);
  Ok (np_mean f1_scores).

Definition confidence (preds : list DocPred) : result Q :=
  conf ← foldM (fun (conf : Q) (pred : DocPred) =>
      candidates ← subscript pred 0;
      best ← subscript candidates 0;
      Ok (conf + score best)%Q)
    0%Q preds;
  if (length preds =? 0)%nat then Ok 0%Q else truediv conf (len preds).

(** [int(x)] on a float: truncation towards zero. *)
Definition py_int (x : Q) : Z := Z.quot (Qnum x) (Zpos (Qden x)).

(** *** Binary64 floats

    The doubles the bin index of [metrics_per_bin] goes through. *)

Definition pow2 (z : Z) : Q := (2 ^ z)%Q.

(** The binade of a positive rational: [2^e <= a < 2^(e+1)]. *)
Definition ilog2 (a : Q) : Z :=
  let d := Z.log2 (Qnum a) - Z.log2 (Zpos (Qden a)) in
  if Qle_bool (pow2 d) a then d else d - 1.

(** Nearest integer, ties to the even one. *)
Definition round_half_even (y : Q) : Z :=
  let f := Qfloor y in
  match (y - inject_Z f ?= 1 # 2)%Q with
  | Lt => f
  | Gt => f + 1
  | Eq => if Z.even f then f else f + 1
  end.

(** Nearest multiple of the unit in the last place of a positive rational:
    53 significant bits, the exponent no smaller than that of the
    subnormals. *)
Definition round_mag (a : Q) : Q :=
  let e := Z.max (ilog2 a) (-1022) in
  (inject_Z (round_half_even (a / pow2 (e - 52))) * pow2 (e - 52))%Q.

Inductive binary64 :=
| B64 (q : Q)
| B64_inf (negative : bool)
| B64_nan.

(** Round to nearest, ties to even; a magnitude that rounds to [2^1024]
    overflows to infinity. *)
Definition round64 (x : Q) : binary64 :=
  match (x ?= 0)%Q with
  | Eq => B64 0
  | Gt => let r := round_mag x in
          if Qle_bool (pow2 1024) r then B64_inf false else B64 r
  | Lt => let r := round_mag (- x) in
          if Qle_bool (pow2 1024) r then B64_inf true else B64 (- r)
  end.

(** The value of a float of the Standard Library's specification of
    IEEE 754 arithmetic ([SpecFloat]), against which [round64] is checked
    below. *)
Definition sf_value (x : spec_float) : binary64 :=
  match x with
  | S754_zero _ => B64 0
  | S754_finite negative m e =>
      B64 ((if negative then -1 else 1) * inject_Z (Zpos m) * pow2 e)
  | S754_infinity negative => B64_inf negative
  | S754_nan => B64_nan
  end.

(** [x * y] on floats. *)
Definition b64_mul (x y : binary64) : binary64 :=
  match x, y with
  | B64 a, B64 b => round64 (a * b)
  | B64_nan, _ | _, B64_nan => B64_nan
  | B64_inf s, B64 b | B64 b, B64_inf s =>
      match (b ?= 0)%Q with
      | Eq => B64_nan
      | Gt => B64_inf s
      | Lt => B64_inf (negb s)
      end
  | B64_inf s, B64_inf t => B64_inf (xorb s t)
  end.

(** [x == y] on floats. *)
Definition b64_eqb (x y : binary64) : bool :=
  match x, y with
  | B64 a, B64 b => Qeq_bool a b
  | B64_inf s, B64_inf t => Bool.eqb s t
  | _, _ => false
  end.

(** [int(x)] on a float: an infinity raises [OverflowError], a [nan]
    [ValueError]. *)
Definition b64_int (x : binary64) : result Z :=
  match x with
  | B64 q => Ok (py_int q)
  | B64_inf _ => Raise OverflowError
  | B64_nan => Raise ValueError
  end.

(** [bins[i] = f(bins[i])] with Python's subscript rules. *)
Definition update_bin {A} (bins : list A) (i : Z) (f : A -> A)
  : result (list A) :=
  k ← normalize_index (length bins) i;
  Ok (alter f k bins).

(** Body of the first loop of [metrics_per_bin]: file one document under
    the bin of its best score. *)
Definition assign_to_bin
  (bins : list (list DocPred) * list (list DocLabels) * list nat)
  (doc : DocPred * DocLabels)
  : result (list (list DocPred) * list (list DocLabels) * list nat) :=
  let '(pred_bins, label_bins, count_per_bin) := bins in
  let '(pred, label) := doc in
  candidates ← subscript pred 0;
  best ← subscript candidates 0;
  let current_score := round64 (score best) in
  let current_score :=
    if b64_eqb current_score (B64 1) then round64 (9999 # 10000)
    else current_score in
  i ← b64_int (b64_mul current_score (B64 10));
  pred_bins ← update_bin pred_bins i (fun bin => bin ++ [pred]);
  i ← b64_int (b64_mul current_score (B64 10));
  label_bins ← update_bin label_bins i (fun bin => bin ++ [label]);
  i ← b64_int (b64_mul current_score (B64 10));
  count_per_bin ← update_bin count_per_bin i S;
  Ok (pred_bins, label_bins, count_per_bin).

(** Body of the second loop: start-only exact match and mean confidence of
    bin [i]. *)
Definition calibrate_bin (pred_bins : list (list DocPred))
  (label_bins : list (list DocLabels)) (per_bin : list Q * list Q) (i : nat)
  : result (list Q * list Q) :=
  let '(em_per_bin, confidence_per_bin) := per_bin in
  pred_bin ← subscript pred_bins i;
  label_bin ← subscript label_bins i;
  em ← squad_EM_start pred_bin label_bin;
  pred_bin ← subscript pred_bins i;
  conf ← confidence pred_bin;
  Ok (<[i := em]> em_per_bin, <[i := conf]> confidence_per_bin).

Definition metrics_per_bin (preds : list DocPred) (labels : list DocLabels)
  : result (list Q * list Q * list nat) :=
  let pred_bins : list (list DocPred) := replicate 10 [] in
  let label_bins : list (list DocLabels) := replicate 10 [] in
  let count_per_bin : list nat := replicate 10 0%nat in
  '(pred_bins, label_bins, count_per_bin) ←
    foldM assign_to_bin (pred_bins, label_bins, count_per_bin)
      (zip preds labels);
  let em_per_bin := replicate 10 0%Q in
  let confidence_per_bin := replicate 10 0%Q in
  '(em_per_bin, confidence_per_bin) ←
    foldM (calibrate_bin pred_bins label_bins)
      (em_per_bin, confidence_per_bin) (seq 1 9);
  Ok (em_per_bin, confidence_per_bin, count_per_bin).

(** [for idx in idxs: f1_score = f1_at(idx); if f1_score: break] *)
Fixpoint scan_until_hit (f1_at : nat -> result Q) (idxs : list nat)
  (f1_score : Q) : result Q :=
  match idxs with
  | [] => Ok f1_score
  | idx :: rest =>
      f1_score ← f1_at idx;
      if truthy f1_score then Ok f1_score
      else scan_until_hit f1_at rest f1_score
  end.

Definition top_n_accuracy (preds : list DocPred) (labels : list DocLabels)
  : result pyfloat :=
  let n_questions := length preds in
  answer_in_top_n ← foldM (fun (answer_in_top_n : list Q) i =>
      doc ← subscript preds i;
      current_preds ← subscript doc 0;
      f1_score ← scan_until_hit (fun idx =>
          curr_labels ← subscript labels i;
          scores ← comprehension
                     (fun label => squad_f1_single current_preds label idx)
                     curr_labels;
          py_max scores)
        (seq 0 (length current_preds)) 0%Q;
      if truthy f1_score then Ok (answer_in_top_n ++ [1%Q])
      else Ok (answer_in_top_n ++ [0%Q]))
    [] (seq 0 n_questions);
  Ok (np_mean answer_in_top_n).

(** The mapping returned by [squad], one field per key. *)
Record SquadMetrics := {
  EM : Q;
  f1 : pyfloat;
  top_n_acc : pyfloat;
  mean_confidence : Q;
  em_per_bin : list Q;
  confidence_per_bin : list Q;
  count_per_bin : list nat
}.

Definition squad (preds : list DocPred) (labels : list DocLabels)
  : result SquadMetrics :=
  em ← squad_EM preds labels;
  f1 ← squad_f1 preds labels;
  top_acc ← top_n_accuracy preds labels;
  conf ← confidence preds;
  '(em_per_bin, conf_per_bin, count_per_bin) ← metrics_per_bin preds labels;
  Ok {| EM := em; f1 := f1; top_n_acc := top_acc; mean_confidence := conf;
        em_per_bin := em_per_bin; confidence_per_bin := conf_per_bin;
        count_per_bin := count_per_bin |}.

(** ** Text similarity: rank of the gold passage *)

(** [mask.nonzero()[0]]: the positions at which a boolean array holds. *)
Definition nonzero (mask : list bool) : list nat :=
  omap (fun '(k, b) => if b : bool then Some k else None)
       (zip (seq 0 (length mask)) mask).

(** [gold_idx.item()]: the only element of an array of size one. *)
Definition item {A} (xs : list A) : result A :=
  match xs with
  | [x] => Ok x
  | _ => Raise ValueError
  end.

Definition enumerate {A} (xs : list A) : list (nat * A) :=
  zip (seq 0 (length xs)) xs.

(** Body of the loop of [text_similarity_avg_ranks] over
    [enumerate(positive_idx_per_question)]. *)
Definition accumulate_rank (preds : list (list Z)) (rank : nat)
  (entry : nat * nat) : result nat :=
  let '(i, idx) := entry in
  ranking ← subscript preds i;
  let gold_idx := nonzero (map (fun v => v =? Z.of_nat idx) ranking) in
  r ← item gold_idx;
  Ok (rank + r)%nat.

Definition text_similarity_avg_ranks (preds labels : list (list Z))
  : result Q :=
  let positive_idx_per_question :=
    fold_left (fun x y => x ++ nonzero (map (fun v => v =? 1) y)) labels [] in
  rank ← foldM (accumulate_rank preds) 0%nat
            (enumerate positive_idx_per_question);
  truediv (inject_Z (Z.of_nat rank)) (len preds).

(** [reduce(lambda x, y: x + [0]*y[0] + [1] + [0]*(len(y) - y[0] - 1), preds, [])] *)
Definition one_hot_top1 (preds : list (list Z)) : result (list Z) :=
  foldM (fun x y =>
      y0 ← subscript y 0;
      Ok (x ++ replicate (Z.to_nat y0) 0 ++ [1]
            ++ replicate (Z.to_nat (Z.of_nat (length y) - y0 - 1)) 0))
    [] preds.

(** [reduce(lambda x, y: x + list(y.astype('long')), labels, [])] *)
Definition flatten_labels (labels : list (list Z)) : list Z :=
  fold_left (fun x y => x ++ y) labels [].

(** ** Values that cross the dispatcher *)

#[local] Unset Elimination Schemes.
Inductive pyobj :=
| PyNone
| PyInt (z : Z)
| PyFloat (x : pyfloat)
| PyStr (s : string)
| PyList (xs : list pyobj)
| PyTuple (xs : list pyobj)
| PyArray (xs : list pyobj)
| PyCandidate (c : QACandidate)
| PyDict (items : list (string * pyobj)).
#[local] Set Elimination Schemes.

(** [len(x)] *)
Definition py_len (x : pyobj) : result nat :=
  match x with
  | PyList xs | PyTuple xs | PyArray xs => Ok (length xs)
  | PyDict items => Ok (length items)
  | PyStr s => Ok (String.length s)
  | _ => Raise TypeError
  end.

(** Typed views of dynamically typed arguments: a value of the wrong shape
    makes the evaluator raise. *)
Definition as_list (x : pyobj) : result (list pyobj) :=
  match x with
  | PyList xs | PyTuple xs | PyArray xs => Ok xs
  | _ => Raise TypeError
  end.

Definition as_int (x : pyobj) : result Z :=
  match x with
  | PyInt z => Ok z
  | PyFloat (Fin q) => Ok (py_int q)
  | _ => Raise TypeError
  end.

Definition as_float (x : pyobj) : result pyfloat :=
  match x with
  | PyInt z => Ok (Fin (inject_Z z))
  | PyFloat f => Ok f
  | _ => Raise TypeError
  end.

Definition as_candidate (x : pyobj) : result QACandidate :=
  match x with
  | PyCandidate c => Ok c
  | _ => Raise (AttributeError "offset_answer_start")
  end.

(** A gold span is a tuple of two ints.  The exact-match test
    [(pred_start, pred_end) in curr_labels] compares tuples, and a span
    given as a list or an array is never equal to one, so such spans are
    not read as spans. *)
Definition as_span (x : pyobj) : result (Z * Z) :=
  match x with
  | PyTuple [PyInt a; PyInt b] => Ok (a, b)
  | _ => Raise TypeError
  end.

Definition as_doc_preds (preds : pyobj) : result (list DocPred) :=
  docs ← as_list preds;
  comprehension (fun doc =>
      parts ← as_list doc;
      comprehension (fun part =>
          candidates ← as_list part;
          comprehension as_candidate candidates) parts) docs.

Definition as_doc_labels (labels : pyobj) : result (list DocLabels) :=
  docs ← as_list labels;
  comprehension (fun doc => spans ← as_list doc; comprehension as_span spans)
    docs.

Definition as_int_arrays (x : pyobj) : result (list (list Z)) :=
  rows ← as_list x;
  comprehension (fun row => cells ← as_list row; comprehension as_int cells)
    rows.

Definition of_Q (q : Q) : pyobj := PyFloat (Fin q).

Definition squad_dict (m : SquadMetrics) : pyobj :=
  PyDict [("EM", of_Q (EM m)); ("f1", PyFloat (f1 m));
          ("top_n_accuracy", PyFloat (top_n_acc m));
          ("confidence", of_Q (mean_confidence m));
          ("em_per_bin", PyList (of_Q <$> em_per_bin m));
          ("confidence_per_bin", PyList (of_Q <$> confidence_per_bin m));
          ("count_per_bin",
           PyList ((fun n : nat => PyInt (Z.of_nat n)) <$> count_per_bin m))].

(** [d[key]] and [d[key] = v] on a mapping with string keys. *)
Fixpoint dict_get (items : list (string * pyobj)) (key : string)
  : result pyobj :=
  match items with
  | [] => Raise (KeyError key)
  | (k, v) :: rest => if String.eqb k key then Ok v else dict_get rest key
  end.

Fixpoint dict_set (items : list (string * pyobj)) (key : string) (v : pyobj)
  : list (string * pyobj) :=
  match items with
  | [] => [(key, v)]
  | (k, w) :: rest =>
      if String.eqb k key then (k, v) :: rest
      else (k, w) :: dict_set rest key v
  end.

(** Float addition and halving, with [nan] absorbing. *)
Definition fadd (a b : pyfloat) : pyfloat :=
  match a, b with
  | Fin x, Fin y => Fin (x + y)%Q
  | _, _ => NaN
  end.

Definition fhalf (a : pyfloat) : pyfloat :=
  match a with
  | Fin x => Fin (x / 2)%Q
  | NaN => NaN
  end.

(** ** The registries and the dispatcher *)

Abbreviation metric_fn := (pyobj -> pyobj -> result pyobj) (only parsing).

(** Keyword arguments a report function receives on the [per_sequence]
    path: [digits], [labels] and [target_names]. *)
Record report_kwargs := {
  digits : Z;
  kw_labels : pyobj;
  target_names : pyobj
}.

(** A report function is called as [report_fn(labels, preds)] or as
    [report_fn(labels, preds, digits=..., labels=..., target_names=...)]. *)
Abbreviation report_fn :=
  (pyobj -> pyobj -> option report_kwargs -> result pyobj) (only parsing).

(** The module-level dictionaries [registered_metrics] and
    [registered_reports] are passed explicitly. *)
Definition register_metrics (name : string) (implementation : metric_fn)
  (registered_metrics : gmap string metric_fn) : gmap string metric_fn :=
  <[name := implementation]> registered_metrics.

Definition register_report (name : string) (implementation : report_fn)
  (registered_reports : gmap string report_fn) : gmap string report_fn :=
  <[name := implementation]> registered_reports.

(** The routines imported from sklearn, scipy, seqeval, numpy and
    [farm.utils]; their results are not specified here. *)
Record Externals := {
  matthews_corrcoef : pyobj -> pyobj -> result pyobj;
  f1_score : pyobj -> pyobj -> option string -> result pyobj;
  mean_squared_error : pyobj -> pyobj -> result pyobj;
  r2_score : pyobj -> pyobj -> result pyobj;
  classification_report : report_fn;
  token_classification_report : report_fn;
  ner_f1_score : pyobj -> pyobj -> result pyobj;
  pearsonr : pyobj -> pyobj -> result pyobj;
  spearmanr : pyobj -> pyobj -> result pyobj;
  flatten_list : list pyobj -> list pyobj;
  array_equal_mean : list pyobj -> list pyobj -> result pyobj
}.

(** The prediction head, as far as the report path reads it. *)
Record Head := {
  ph_output_type : string;
  model_type : string;
  label_list : list pyobj
}.

Section Dispatcher.

Variable ext : Externals.

Definition simple_accuracy (preds labels : pyobj) : result pyobj :=
  let '(preds, labels) :=
    match preds, labels with
    | PyList ps, PyList ls =>
        (PyArray (flatten_list ext ps), PyArray (flatten_list ext ls))
    | _, _ => (preds, labels)
    end in
  match preds, labels with
  | PyArray ps, PyArray ls =>
      acc ← array_equal_mean ext ps ls;
      Ok (PyDict [("acc", acc)])
  | _, _ => Raise AssertionError
  end.

Definition acc_and_f1 (preds labels : pyobj) : result pyobj :=
  acc ← simple_accuracy preds labels;
  f1 ← f1_score ext labels preds None;
  acc_items ← match acc with PyDict items => Ok items | _ => Raise TypeError end;
  acc_acc ← dict_get acc_items "acc";
  a ← as_float acc_acc;
  f ← as_float f1;
  Ok (PyDict [("acc", acc_acc); ("f1", f1);
              ("acc_and_f1", PyFloat (fhalf (fadd a f)))]).

Definition f1_macro (preds labels : pyobj) : result pyobj :=
  f1 ← f1_score ext labels preds (Some "macro");
  Ok (PyDict [("f1_macro", f1)]).

Definition pearson_and_spearman (preds labels : pyobj) : result pyobj :=
  pearson ← pearsonr ext preds labels;
  pearson ← as_list pearson;
  pearson_corr ← subscript pearson 0;
  spearman ← spearmanr ext preds labels;
  spearman ← as_list spearman;
  spearman_corr ← subscript spearman 0;
  p ← as_float pearson_corr;
  s ← as_float spearman_corr;
  Ok (PyDict [("pearson", pearson_corr); ("spearman", spearman_corr);
              ("corr", PyFloat (fhalf (fadd p s)))]).

Definition int_list (xs : list Z) : pyobj := PyList (PyInt <$> xs).

Definition text_similarity_acc_and_f1 (preds labels : pyobj)
  : result pyobj :=
  rankings ← as_int_arrays preds;
  top_1_pred ← one_hot_top1 rankings;
  relevance ← as_int_arrays labels;
  let labels := flatten_labels relevance in
  acc_and_f1 (int_list top_1_pred) (int_list labels).

Definition text_similarity_metric (preds labels : pyobj) : result pyobj :=
  scores ← text_similarity_acc_and_f1 preds labels;
  rankings ← as_int_arrays preds;
  relevance ← as_int_arrays labels;
  average_rank ← text_similarity_avg_ranks rankings relevance;
  match scores with
  | PyDict items => Ok (PyDict (dict_set items "average_rank" (of_Q average_rank)))
  | _ => Raise TypeError
  end.

Definition squad_py (preds labels : pyobj) : result pyobj :=
  p ← as_doc_preds preds;
  l ← as_doc_labels labels;
  m ← squad p l;
  Ok (squad_dict m).

Definition top_n_accuracy_py (preds labels : pyobj) : result pyobj :=
  p ← as_doc_preds preds;
  l ← as_doc_labels labels;
  acc ← top_n_accuracy p l;
  Ok (PyFloat acc).

Definition compute_metrics (registered_metrics : gmap string metric_fn)
  (metric : string) (preds labels : pyobj) : result pyobj :=
  n_preds ← py_len preds;
  n_labels ← py_len labels;
  if negb (n_preds =? n_labels)%nat then Raise AssertionError
  else if String.eqb metric "mcc" then
    v ← matthews_corrcoef ext labels preds; Ok (PyDict [("mcc", v)])
  else if String.eqb metric "acc" then simple_accuracy preds labels
  else if String.eqb metric "acc_f1" then acc_and_f1 preds labels
  else if String.eqb metric "pear_spear" then pearson_and_spearman preds labels
  else if String.eqb metric "seq_f1" then
    v ← ner_f1_score ext labels preds; Ok (PyDict [("seq_f1", v)])
  else if String.eqb metric "f1_macro" then f1_macro preds labels
  else if String.eqb metric "squad" then squad_py preds labels
  else if String.eqb metric "mse" then
    v ← mean_squared_error ext preds labels; Ok (PyDict [("mse", v)])
  else if String.eqb metric "r2" then
    v ← r2_score ext preds labels; Ok (PyDict [("r2", v)])
  else if String.eqb metric "top_n_accuracy" then
    v ← top_n_accuracy_py preds labels; Ok (PyDict [("top_n_accuracy", v)])
  else if String.eqb metric "text_similarity_metric" then
    text_similarity_metric preds labels
  else
    match registered_metrics !! metric with
    | Some metric_func => metric_func preds labels
    | None => Raise (KeyError metric)
    end.

(** [list(range(len(head.label_list)))] *)
Definition label_ids (head : Head) : pyobj :=
  int_list (range 0 (Z.of_nat (length (label_list head)))).

Definition compute_report_metrics (registered_reports : gmap string report_fn)
  (head : Head) (preds labels : pyobj) : result pyobj :=
  report_fn ←
    match registered_reports !! ph_output_type head with
    | Some fn => Ok fn
    | None =>
        if String.eqb (ph_output_type head) "per_token" then
          Ok (token_classification_report ext)
        else if String.eqb (ph_output_type head) "per_sequence" then
          Ok (classification_report ext)
        else if String.eqb (ph_output_type head) "per_token_squad" then
          Ok (fun _ _ _ => Ok (PyStr "Not Implemented"))
        else if String.eqb (ph_output_type head) "per_sequence_continuous" then
          Ok (fun labels preds _ => r2_score ext labels preds)
        else Raise (AttributeError (ph_output_type head))
    end;
  if String.eqb (ph_output_type head) "per_sequence" then
    '(labels, preds, all_possible_labels) ←
      (if String.eqb (model_type head) "multilabel_text_classification" then
         Ok (labels, preds, label_ids head)
       else if String.eqb (model_type head) "text_similarity" then
         relevance ← as_int_arrays labels;
         let labels := int_list (flatten_labels relevance) in
         rankings ← as_int_arrays preds;
         top_1 ← one_hot_top1 rankings;
         Ok (labels, int_list top_1, label_ids head)
       else Ok (labels, preds, PyList (label_list head)));
    report_fn labels preds
      (Some {| digits := 4; kw_labels := all_possible_labels;
               target_names := PyList (label_list head) |})
  else report_fn labels preds None.

End Dispatcher.

(** The metric names [compute_metrics] implements itself. *)
Definition builtin_metrics : list string :=
  ["mcc"; "acc"; "acc_f1"; "pear_spear"; "seq_f1"; "f1_macro"; "squad";
   "mse"; "r2"; "top_n_accuracy"; "text_similarity_metric"].

(** ** The specification's reading of the span metrics *)

(** The no-answer sentinel [(0, 0)]. *)
Definition is_no_answer (s e : Z) : bool := (s =? 0) && (e =? 0).

(** Number of integers in the inclusive range [[s, e]]. *)
Definition span_size (s e : Z) : Z := Z.max 0 (e - s + 1).

(** Number of integers that lie in both [[ps, pe]] and [[ls, le]]. *)
Definition span_overlap (ps pe ls le : Z) : Z :=
  Z.max 0 (Z.min pe le - Z.max ps ls + 1).

(** Overlap F1 of one predicted and one gold span, in the words of the
    specification: all or nothing on the start offsets when either span is
    the sentinel, else the harmonic mean of precision and recall, and 0 for
    an empty overlap. *)
Definition overlap_f1 (ps pe ls le : Z) : Q :=
  if is_no_answer ps pe || is_no_answer ls le then
    if ps =? ls then 1%Q else 0%Q
  else if span_overlap ps pe ls le =? 0 then 0%Q
  else
    let precision := (inject_Z (span_overlap ps pe ls le)
                      / inject_Z (span_size ps pe))%Q in
    let recall := (inject_Z (span_overlap ps pe ls le)
                   / inject_Z (span_size ls le))%Q in
    (2 * precision * recall / (precision + recall))%Q.

(** Score of the best candidate of a document, [pred[0][0].score]. *)
Definition best_score (pred : DocPred) : option Q :=
  candidates ← pred !! 0%nat; best ← candidates !! 0%nat; Some (score best).

(** The double [score * 10] of the specification, a score of exactly 1.0
    being moved to 0.9999 first. *)
Definition score_times_ten (s : Q) : binary64 :=
  let d := round64 s in
  b64_mul (if b64_eqb d (B64 1) then round64 (9999 # 10000) else d) (B64 10).

(** The confidence bin in the words of the specification:
    [floor(score * 10)], where the product is a finite double. *)
Definition confidence_bin (s : Q) : option Z :=
  match score_times_ten s with
  | B64 p => Some (Qfloor p)
  | _ => None
  end.

Definition doc_bin (pred : DocPred) : option Z :=
  best_score pred ≫= confidence_bin.

(** The largest double below 1, [1 - 2^-53]. *)
Definition below_one : Q := 9007199254740991 # 9007199254740992.

(** Doubles [m * 2^e] used to check the rounded product: 0.1, 0.3, 0.6,
    0.7, 0.8999999999999999, 0.9, 0.9999, the largest double below 1, 1.5,
    the smallest subnormal, [2^1021] and a double just above 1. *)
Definition sample_doubles : list (positive * Z) :=
  [(7205759403792794%positive, -56); (5404319552844595%positive, -54);
   (5404319552844595%positive, -53); (6305039478318694%positive, -53);
   (8106479329266892%positive, -53); (8106479329266893%positive, -53);
   (9006298534815518%positive, -53); (9007199254740991%positive, -53);
   (3%positive, -1); (1%positive, -1074); (1%positive, 1021);
   (4503599627370497%positive, -52)].

(** [x * 10] computed by [SpecFloat] and by [b64_mul] agree on [m * 2^e]. *)
Definition times_ten_agrees (x : positive * Z) : bool :=
  let '(m, e) := x in
  match sf_value (SFmul 53 1024 (S754_finite false m e)
                    (S754_finite false 5 1)),
        b64_mul (B64 (inject_Z (Zpos m) * pow2 e)) (B64 10) with
  | B64 a, B64 b => Qeq_bool a b
  | B64_inf s, B64_inf t => Bool.eqb s t
  | _, _ => false
  end.

(** Number of documents of a batch that belong to bin [k]. *)
Definition bin_population (k : nat) (preds : list DocPred) : nat :=
  length (filter (fun pred => doc_bin pred = Some (Z.of_nat k)) preds).

(** The best score of the document exists and lies in [[0, 1]]. *)
Definition score_in_unit (pred : DocPred) : Prop :=
  exists s, best_score pred = Some s /\ (0 <= s <= 1)%Q.

(** The double lies above 1: it is a finite double greater than 1 or the
    positive infinity. *)
Definition exceeds_one (x : binary64) : Prop :=
  match x with
  | B64 d => (1 < d)%Q
  | B64_inf negative => negative = false
  | B64_nan => False
  end.

(** Invariant of the binning loop: the two families of bins stay aligned
    and every filed document has a best candidate. *)
Definition bins_aligned (pred_bins : list (list DocPred))
  (label_bins : list (list DocLabels)) : Prop :=
  Forall2 (fun (pred_bin : list DocPred) (label_bin : list DocLabels) =>
             length pred_bin = length label_bin
             /\ Forall (fun pred => is_Some (best_score pred)) pred_bin)
          pred_bins label_bins.

(** Quotients [n / d] used to check the rounding of a rational to a
    double: 0.3, 0.9, 0.9999, 1/3, 2/3, 1/10, 95/100, 1/20 and
    [1 + 2^-53], a tie. *)
Definition sample_quotients : list (positive * positive) :=
  [(3, 10); (9, 10); (9999, 10000); (1, 3); (2, 3); (1, 10); (95, 100);
   (1, 20); (9007199254740993, 9007199254740992)]%positive.

(** [n / d] computed by [SpecFloat] is the double [round64] gives. *)
Definition quotient_agrees (x : positive * positive) : bool :=
  let '(n, d) := x in
  match sf_value (SFdiv 53 1024 (S754_finite false n 0)
                    (S754_finite false d 0)),
        round64 (Zpos n # d) with
  | B64 a, B64 b => Qeq_bool a b
  | B64_inf s, B64_inf t => Bool.eqb s t
  | _, _ => false
  end.

(** ** The specification's reading of the gold rank *)

(** The relevance vector [label] has exactly one gold-positive passage, the
    one at position [g]. *)
Definition gold_at (label : list Z) (g : nat) : Prop :=
  label !! g = Some 1 /\ forall j, label !! j = Some 1 -> j = g.

(** Passage [g] is present in the ranking, at the 0-based position [r] and
    nowhere else (a ranking is a permutation of passage indices). *)
Definition ranked_at (ranking : list Z) (g r : nat) : Prop :=
  ranking !! r = Some (Z.of_nat g)
  /\ forall j, ranking !! j = Some (Z.of_nat g) -> j = r.

(** Query with one gold passage, whose rank in the prediction is [r]. *)
Definition gold_rank (ranking label : list Z) (r : nat) : Prop :=
  exists g, gold_at label g /\ ranked_at ranking g r.

(** ** Closed forms of the loop bodies, used in the proofs *)

(** The value [squad_f1_single] returns for candidate [c] and a gold span,
    for arbitrary offsets: the sentinel test is on the sum of the offsets. *)
Definition span_f1 (c : QACandidate) (label : Z * Z) : Q :=
  let ps := offset_answer_start c in
  let pe := offset_answer_end c in
  let '(ls, le) := label in
  if (ps + pe =? 0) || (ls + le =? 0) then
    if ps =? ls then 1%Q else 0%Q
  else if span_overlap ps pe ls le =? 0 then 0%Q
  else
    let precision := (inject_Z (span_overlap ps pe ls le)
                      / inject_Z (span_size ps pe))%Q in
    let recall := (inject_Z (span_overlap ps pe ls le)
                   / inject_Z (span_size ls le))%Q in
    (2 * precision * recall / (precision + recall))%Q.

(** One iteration of [squad_EM] on document [pred] with gold spans
    [curr_labels]. *)
Definition squad_EM_doc (n_correct : nat) (pred : DocPred)
  (curr_labels : DocLabels) : result nat :=
  candidates ← subscript pred 0;
  qa_candidate ← subscript candidates 0;
  if bool_decide ((offset_answer_start qa_candidate,
                   offset_answer_end qa_candidate) ∈ curr_labels)
  then Ok (n_correct + 1)%nat else Ok n_correct.

(** One iteration of the outer loop of [top_n_accuracy]. *)
Definition top_n_doc (answer_in_top_n : list Q) (pred : DocPred)
  (curr_labels : DocLabels) : result (list Q) :=
  current_preds ← subscript pred 0;
  f1_score ← scan_until_hit (fun idx =>
      scores ← comprehension
                 (fun label => squad_f1_single current_preds label idx)
                 curr_labels;
      py_max scores)
    (seq 0 (length current_preds)) 0%Q;
  if truthy f1_score then Ok (answer_in_top_n ++ [1%Q])
  else Ok (answer_in_top_n ++ [0%Q]).

(** A document as the data model describes it: a best candidate exists,
    its span is an inclusive range with [start <= end], and at least one
    gold span is given. *)
Definition well_formed_doc (pred : DocPred) (curr_labels : DocLabels) : Prop :=
  exists candidates best,
    pred !! 0%nat = Some candidates /\ candidates !! 0%nat = Some best
    /\ offset_answer_start best <= offset_answer_end best
    /\ curr_labels <> [].

(** ** Concrete inputs used in the examples below *)

Definition cand (s e : Z) (q : Q) : QACandidate :=
  {| offset_answer_start := s; offset_answer_end := e; score := q |}.

(** An instance of the imported routines in which every routine raises;
    the examples that use it never reach one. *)
Definition no_externals : Externals := {|
  matthews_corrcoef := fun _ _ => Raise TypeError;
  f1_score := fun _ _ _ => Raise TypeError;
  mean_squared_error := fun _ _ => Raise TypeError;
  r2_score := fun _ _ => Raise TypeError;
  classification_report := fun _ _ _ => Raise TypeError;
  token_classification_report := fun _ _ _ => Raise TypeError;
  ner_f1_score := fun _ _ => Raise TypeError;
  pearsonr := fun _ _ => Raise TypeError;
  spearmanr := fun _ _ => Raise TypeError;
  flatten_list := fun xs => xs;
  array_equal_mean := fun _ _ => Raise TypeError
|}.

(** One document, one candidate [(1, 3)] with score 0.9, gold span [(1, 3)]. *)
Definition one_doc_preds : pyobj :=
  PyList [PyList [PyList [PyCandidate (cand 1 3 (9 # 10))]]].
Definition one_doc_labels : pyobj :=
  PyList [PyList [PyTuple [PyInt 1; PyInt 3]]].

Definition custom_metric : metric_fn := fun _ _ => Ok (PyStr "custom").
Definition custom_report : report_fn := fun _ _ _ => Ok (PyStr "custom").

(** A second pair of functions, registered first in the examples and
    replaced by the pair above. *)
Definition stale_metric : metric_fn := fun _ _ => Ok (PyStr "stale").
Definition stale_report : report_fn := fun _ _ _ => Ok (PyStr "stale").

(** A report function that returns what it was called with: the two
    positional arguments and the keyword argument [labels]. *)
Definition echo_report : report_fn := fun y_true y_pred kwargs =>
  Ok (PyTuple [y_true; y_pred;
               match kwargs with
               | Some kw => kw_labels kw
               | None => PyNone
               end]).

(** A head of output type [per_sequence] with two labels. *)
Definition sequence_head (model : string) : Head :=
  {| ph_output_type := "per_sequence"; model_type := model;
     label_list := [PyStr "no"; PyStr "yes"] |}.

(** One query whose ranking puts passage 1 first and whose gold passage is
    passage 1. *)
Definition one_ranking : pyobj := PyList [PyArray [PyInt 1; PyInt 0]].
Definition one_relevance : pyobj := PyList [PyArray [PyInt 0; PyInt 1]].

(** ** Further notions used by the properties of the remaining code *)

(** The output types [compute_report_metrics] handles itself. *)
Definition builtin_report_types : list string :=
  ["per_token"; "per_sequence"; "per_token_squad"; "per_sequence_continuous"].

(** A result that is a mapping from names to values. *)
Definition is_mapping (v : pyobj) : Prop := exists items, v = PyDict items.

(** [pred[0][0]] as an option. *)
Definition best_of (pred : DocPred) : option QACandidate :=
  candidates ← pred !! 0%nat; candidates !! 0%nat.

(** The best candidate of the document is literally one of its gold
    spans. *)
Definition exact_match (doc : DocPred * DocLabels) : bool :=
  match best_of doc.1 with
  | Some c =>
      bool_decide ((offset_answer_start c, offset_answer_end c) ∈ doc.2)
  | None => false
  end.

(** One iteration of [squad_f1]. *)
Definition squad_f1_doc (f1_scores : list Q) (pred : DocPred)
  (curr_labels : DocLabels) : result (list Q) :=
  best_pred ← subscript pred 0;
  scores ← comprehension (fun label => squad_f1_single best_pred label 0)
             curr_labels;
  best_f1 ← py_max scores;
  Ok (f1_scores ++ [best_f1]).

(** A document that [squad_f1] and [top_n_accuracy] can score: it has a
    best candidate and at least one gold span. *)
Definition scorable_doc (pred : DocPred) (curr_labels : DocLabels) : Prop :=
  is_Some (best_of pred) /\ curr_labels <> [].

(** The vector of length [n] with a single 1, at position [k]. *)
Definition one_hot (n k : nat) : list Z := <[k := 1]> (replicate n 0).

(** A ranking whose first entry is a position of the ranking itself. *)
Definition top1_in_range (y : list Z) : Prop :=
  exists y0, y !! 0%nat = Some y0 /\ 0 <= y0 < Z.of_nat (length y).

(** The position the first entry of a ranking points to. *)
Definition top1 (y : list Z) : nat := Z.to_nat (default 0 (y !! 0%nat)).

(** Number of documents of an aligned batch whose best candidate is
    literally a gold span. *)
Definition exact_matches (preds : list DocPred) (labels : list DocLabels)
  : nat :=
  length (filter (fun doc => exact_match doc = true) (zip preds labels)).

(** Every document of the batch has a best candidate. *)
Definition all_have_best (preds : list DocPred) : Prop :=
  Forall (fun pred => is_Some (best_of pred)) preds.

(** Some candidate of the document scores a non-zero F1 against some gold
    span of the document. *)
Definition overlap_hit (doc : DocPred * DocLabels) : bool :=
  match doc.1 !! 0%nat with
  | Some candidates =>
      existsb (fun c => existsb (fun label => truthy (span_f1 c label)) doc.2)
              candidates
  | None => false
  end.

(** The 0/1 flag [top_n_accuracy] records for a document. *)
Definition hit_flag (doc : DocPred * DocLabels) : Q :=
  if overlap_hit doc then 1%Q else 0%Q.

(** An instance of the imported routines whose accuracy and F1 routines
    return fixed numbers, for closed examples of the scalar wrappers. *)
Definition fixed_externals : Externals := {|
  matthews_corrcoef := fun _ _ => Ok (PyFloat (Fin (1 # 2)));
  f1_score := fun _ _ _ => Ok (PyFloat (Fin (1 # 2)));
  mean_squared_error := fun _ _ => Ok (PyFloat (Fin (1 # 2)));
  r2_score := fun _ _ => Ok (PyFloat (Fin (1 # 2)));
  classification_report := fun _ _ _ => Ok (PyStr "report");
  token_classification_report := fun _ _ _ => Ok (PyStr "report");
  ner_f1_score := fun _ _ => Ok (PyFloat (Fin (1 # 2)));
  pearsonr := fun _ _ => Ok (PyTuple [PyFloat (Fin (1 # 2)); PyFloat (Fin 0)]);
  spearmanr := fun _ _ => Ok (PyTuple [PyFloat (Fin (1 # 2)); PyFloat (Fin 0)]);
  flatten_list := fun xs => xs;
  array_equal_mean := fun _ _ => Ok (PyFloat (Fin (1 # 4)))
|}.

(** Two queries over three passages: rankings and relevance vectors. *)
Definition two_rankings : pyobj :=
  PyList [PyArray [PyInt 2; PyInt 0; PyInt 1];
          PyArray [PyInt 1; PyInt 0; PyInt 2]].
Definition two_relevances : pyobj :=
  PyList [PyArray [PyInt 0; PyInt 1; PyInt 0];
          PyArray [PyInt 0; PyInt 1; PyInt 0]].

(** * Properties *)

(** ** The dispatcher *)

Lemma not_builtin_eqb metric :
  metric ∉ builtin_metrics ->
  Forall (fun name => String.eqb metric name = false) builtin_metrics.
Proof.
  intros H. apply Forall_forall. intros name Hin.
  apply String.eqb_neq. intros ->. exact (H Hin).
Qed.

Ltac skip_builtins H :=
  apply not_builtin_eqb in H; unfold builtin_metrics in H;
  repeat match type of H with
         | Forall _ (_ :: _) =>
             let E := fresh "E" in
             apply Forall_cons in H as [E H]; rewrite E; clear E
         end.

(** C1. [compute_metrics] raises the assertion error whenever the two
    batches have different lengths, for every metric name (built-in or
    registered), every registry and every implementation of the imported
    routines.  The length test is the first statement: were a metric
    computed before it, an implementation that raises would change the
    outcome, and none does. *)
Theorem compute_metrics_length_mismatch ext registered metric preds labels n m :
  py_len preds = Ok n -> py_len labels = Ok m -> n <> m ->
  compute_metrics ext registered metric preds labels = Raise AssertionError.
Proof.
  intros Hp Hl Hne. unfold compute_metrics. rewrite Hp, Hl. cbn.
  destruct (Nat.eqb_spec n m) as [->|_]; [contradiction | reflexivity].
Qed.

Lemma compute_metrics_length_mismatch_witness :
  compute_metrics no_externals (register_metrics "custom" custom_metric ∅)
    "custom" one_doc_preds (PyList []) = Raise AssertionError.
Proof.
  apply (compute_metrics_length_mismatch _ _ _ _ _ 1%nat 0%nat);
    [reflexivity | reflexivity | lia].
Defined.

Lemma compute_metrics_not_builtin ext registered metric preds labels n :
  py_len preds = Ok n -> py_len labels = Ok n ->
  metric ∉ builtin_metrics ->
  compute_metrics ext registered metric preds labels =
    match registered !! metric with
    | Some metric_func => metric_func preds labels
    | None => Raise (KeyError metric)
    end.
Proof.
  intros Hp Hl Hnb. unfold compute_metrics. rewrite Hp, Hl. cbn.
  rewrite Nat.eqb_refl. cbn. skip_builtins Hnb. reflexivity.
Qed.

(** C9. For aligned batches and a name that is not a built-in metric:
    when the registry has no entry for it, [compute_metrics] raises
    [KeyError] carrying that name; when a function is registered under it,
    the result is that function's result on the same arguments, in
    particular right after [register_metrics]. *)
Theorem compute_metrics_registry_fallback ext registered metric preds labels n :
  py_len preds = Ok n -> py_len labels = Ok n ->
  metric ∉ builtin_metrics ->
  (registered !! metric = None ->
   compute_metrics ext registered metric preds labels = Raise (KeyError metric))
  /\ (forall metric_func, registered !! metric = Some metric_func ->
      compute_metrics ext registered metric preds labels
      = metric_func preds labels)
  /\ (forall implementation,
      compute_metrics ext (register_metrics metric implementation registered)
        metric preds labels = implementation preds labels).
Proof.
  intros Hp Hl Hnb. repeat split.
  - intros Hnone. rewrite (compute_metrics_not_builtin _ _ _ _ _ n) by done.
    by rewrite Hnone.
  - intros f Hsome. rewrite (compute_metrics_not_builtin _ _ _ _ _ n) by done.
    by rewrite Hsome.
  - intros f. rewrite (compute_metrics_not_builtin _ _ _ _ _ n) by done.
    unfold register_metrics. by rewrite lookup_insert_eq.
Qed.

Lemma custom_not_builtin : "custom" ∉ builtin_metrics.
Proof. unfold builtin_metrics. intros H. by repeat (apply elem_of_cons in H as [H|H]; [discriminate H|]); apply elem_of_nil in H. Qed.

Lemma compute_metrics_registry_fallback_witness :
  compute_metrics no_externals ∅ "custom" one_doc_preds one_doc_labels
    = Raise (KeyError "custom")
  /\ compute_metrics no_externals (register_metrics "custom" custom_metric ∅)
       "custom" one_doc_preds one_doc_labels = Ok (PyStr "custom").
Proof.
  split.
  - apply (compute_metrics_registry_fallback no_externals ∅ "custom"
             one_doc_preds one_doc_labels 1%nat);
      [reflexivity | reflexivity | exact custom_not_builtin | reflexivity].
  - apply (compute_metrics_registry_fallback no_externals ∅ "custom"
             one_doc_preds one_doc_labels 1%nat);
      [reflexivity | reflexivity | exact custom_not_builtin].
Defined.

(** C2, as stated, fails on the compute path: with a function registered
    under the built-in name ["top_n_accuracy"], [compute_metrics] still
    runs the built-in and the registered function is not consulted. *)
Lemma builtin_metric_shadows_registry :
  let registered := register_metrics "top_n_accuracy" custom_metric ∅ in
  registered !! "top_n_accuracy" = Some custom_metric
  /\ compute_metrics no_externals registered "top_n_accuracy"
       one_doc_preds one_doc_labels
     = Ok (PyDict [("top_n_accuracy", PyFloat (Fin 1))])
  /\ compute_metrics no_externals registered "top_n_accuracy"
       one_doc_preds one_doc_labels
     <> custom_metric one_doc_preds one_doc_labels.
Proof.
  cbv zeta. split; [apply lookup_insert_eq |].
  split; [vm_compute; reflexivity |].
  vm_compute. discriminate.
Qed.

(** C2, amended.  On the report path a function registered for the head's
    output type is the report function that is called, whatever built-in
    exists for that type: without keyword arguments for every output type
    but ["per_sequence"], and for ["per_sequence"] with [digits=4], the
    label list as target names and, as [labels], the label ids for a
    multilabel or a text-similarity head and the label list otherwise; for
    a text-similarity head it is called on the flattened relevance labels
    and the one-hot encoding of the top-ranked passages.  On the compute
    path the built-in names are matched first: a registered function is
    called only under a name that is not a built-in metric, and under a
    built-in name the registry has no influence on the result. *)
Theorem registry_precedence ext reports registered head name fn f preds labels n :
  reports !! ph_output_type head = Some fn ->
  registered !! name = Some f ->
  py_len preds = Ok n -> py_len labels = Ok n ->
  (ph_output_type head <> "per_sequence" ->
   compute_report_metrics ext reports head preds labels = fn labels preds None)
  /\ (ph_output_type head = "per_sequence" ->
      model_type head = "multilabel_text_classification" ->
      compute_report_metrics ext reports head preds labels
      = fn labels preds
          (Some {| digits := 4; kw_labels := label_ids head;
                   target_names := PyList (label_list head) |}))
  /\ (ph_output_type head = "per_sequence" ->
      model_type head = "text_similarity" ->
      compute_report_metrics ext reports head preds labels
      = (relevance ← as_int_arrays labels;
         rankings ← as_int_arrays preds;
         top_1 ← one_hot_top1 rankings;
         fn (int_list (flatten_labels relevance)) (int_list top_1)
           (Some {| digits := 4; kw_labels := label_ids head;
                    target_names := PyList (label_list head) |})))
  /\ (ph_output_type head = "per_sequence" ->
      model_type head <> "multilabel_text_classification" ->
      model_type head <> "text_similarity" ->
      compute_report_metrics ext reports head preds labels
      = fn labels preds
          (Some {| digits := 4; kw_labels := PyList (label_list head);
                   target_names := PyList (label_list head) |}))
  /\ (name ∉ builtin_metrics ->
      compute_metrics ext registered name preds labels = f preds labels)
  /\ (name ∈ builtin_metrics ->
      compute_metrics ext registered name preds labels
      = compute_metrics ext ∅ name preds labels).
Proof.
  intros Hrep Hreg Hp Hl. repeat split.
  - intros Hty. unfold compute_report_metrics. rewrite Hrep. cbn.
    apply String.eqb_neq in Hty. by rewrite Hty.
  - intros Hty Hm. unfold compute_report_metrics. rewrite Hrep, Hty, Hm.
    reflexivity.
  - intros Hty Hm. unfold compute_report_metrics. rewrite Hrep, Hty, Hm.
    cbn [mbind result_bind String.eqb Ascii.eqb Bool.eqb].
    destruct (as_int_arrays labels) as [relevance|e]; [|reflexivity].
    cbn [mbind result_bind].
    destruct (as_int_arrays preds) as [rankings|e]; [|reflexivity].
    cbn [mbind result_bind].
    destruct (one_hot_top1 rankings) as [top_1|e]; reflexivity.
  - intros Hty Hm1 Hm2. unfold compute_report_metrics. rewrite Hrep. cbn.
    apply String.eqb_neq in Hm1, Hm2. rewrite Hty, Hm1, Hm2. reflexivity.
  - intros Hnb. rewrite (compute_metrics_not_builtin _ _ _ _ _ n) by done.
    by rewrite Hreg.
  - intros Hin. unfold builtin_metrics in Hin.
    repeat (apply elem_of_cons in Hin as [->|Hin]; [reflexivity|]).
    by apply elem_of_nil in Hin.
Qed.

Lemma registry_precedence_witness :
  compute_report_metrics no_externals
    (register_report "per_token" custom_report ∅)
    {| ph_output_type := "per_token"; model_type := "ner"; label_list := [] |}
    one_doc_preds one_doc_labels = Ok (PyStr "custom")
  /\ compute_metrics no_externals (register_metrics "custom" custom_metric ∅)
       "custom" one_doc_preds one_doc_labels = Ok (PyStr "custom")
  /\ compute_report_metrics no_externals
       (register_report "per_sequence" echo_report ∅)
       (sequence_head "multilabel_text_classification")
       one_ranking one_relevance
     = Ok (PyTuple [one_relevance; one_ranking; PyList [PyInt 0; PyInt 1]])
  /\ compute_report_metrics no_externals
       (register_report "per_sequence" echo_report ∅)
       (sequence_head "text_similarity") one_ranking one_relevance
     = Ok (PyTuple [PyList [PyInt 0; PyInt 1]; PyList [PyInt 0; PyInt 1];
                    PyList [PyInt 0; PyInt 1]])
  /\ compute_report_metrics no_externals
       (register_report "per_sequence" echo_report ∅)
       (sequence_head "text_classification") one_ranking one_relevance
     = Ok (PyTuple [one_relevance; one_ranking;
                    PyList [PyStr "no"; PyStr "yes"]]).
Proof.
  pose proof (registry_precedence no_externals
    (register_report "per_token" custom_report ∅)
    (register_metrics "custom" custom_metric ∅)
    {| ph_output_type := "per_token"; model_type := "ner"; label_list := [] |}
    "custom" custom_report custom_metric one_doc_preds one_doc_labels 1%nat
    (lookup_insert_eq _ _ _) (lookup_insert_eq _ _ _) eq_refl eq_refl)
    as (Hreport & _ & _ & _ & Hcompute & _).
  pose proof (fun model => registry_precedence no_externals
    (register_report "per_sequence" echo_report ∅)
    (register_metrics "custom" custom_metric ∅)
    (sequence_head model)
    "custom" echo_report custom_metric one_ranking one_relevance 1%nat
    (lookup_insert_eq _ _ _) (lookup_insert_eq _ _ _) eq_refl eq_refl)
    as Hseq.
  split; [apply Hreport; discriminate|].
  split; [apply Hcompute; exact custom_not_builtin|].
  split; [|split].
  - destruct (Hseq "multilabel_text_classification") as (_ & Hmulti & _).
    rewrite Hmulti by reflexivity. reflexivity.
  - destruct (Hseq "text_similarity") as (_ & _ & Hsim & _).
    rewrite Hsim by reflexivity. reflexivity.
  - destruct (Hseq "text_classification") as (_ & _ & _ & Hplain & _).
    rewrite Hplain by (reflexivity || discriminate). reflexivity.
Defined.

(** ** Overlap F1 of a single pair *)

Lemma length_filter_between (a b : Z) (k : nat) : forall m : Z,
  length (filter (fun x => a <= x <= b) (seqZ m (Z.of_nat k)))
  = Z.to_nat (Z.min (m + Z.of_nat k - 1) b - Z.max m a + 1).
Proof.
  induction k as [|k IH]; intros m.
  - rewrite seqZ_nil, filter_nil by lia. cbn [length]. lia.
  - rewrite seqZ_cons by lia.
    replace (Z.pred (Z.of_nat (S k))) with (Z.of_nat k) by lia.
    rewrite filter_cons. replace (Z.succ m) with (m + 1) by lia.
    case_decide; cbn [length]; rewrite IH; lia.
Qed.

Lemma length_range lo hi : length (range lo hi) = Z.to_nat (hi - lo).
Proof. unfold range. apply length_seqZ. Qed.

Lemma overlap_count ps pe ls le :
  Z.of_nat (length (filter (fun x => x ∈ range ls (le + 1))
                           (range ps (pe + 1))))
  = span_overlap ps pe ls le.
Proof.
  unfold span_overlap.
  rewrite (list_filter_iff _ (fun x => ls <= x <= le)).
  - unfold range.
    destruct (Z.le_gt_cases ps (pe + 1)) as [Hle|Hgt].
    + rewrite <- (Z2Nat.id (pe + 1 - ps)) by lia.
      rewrite length_filter_between. lia.
    + rewrite seqZ_nil, filter_nil by lia. cbn [length]. lia.
  - intros x. unfold range. rewrite elem_of_seqZ. lia.
Qed.

Lemma Qeq_bool_inject_Z z : Qeq_bool (inject_Z z) 0 = (z =? 0).
Proof.
  destruct (Z.eqb_spec z 0) as [->|Hne]; [reflexivity|].
  apply not_true_is_false. intros H. apply Qeq_bool_iff in H.
  apply Hne. unfold Qeq in H. cbn in H. lia.
Qed.

Lemma truediv_ok a b : ~ (b == 0)%Q -> truediv a b = Ok (a / b)%Q.
Proof.
  intros Hb. unfold truediv.
  destruct (Qeq_bool b 0) eqn:E; [|reflexivity].
  apply Qeq_bool_iff in E. contradiction.
Qed.

Lemma inject_Z_pos z : 0 < z -> (0 < inject_Z z)%Q.
Proof. intros H. unfold Qlt. cbn. lia. Qed.

Lemma Qdiv_pos a b : (0 < a)%Q -> (0 < b)%Q -> (0 < a / b)%Q.
Proof. intros Ha Hb. apply Qlt_shift_div_l; [exact Hb | lra]. Qed.

Lemma no_answer_test s e :
  0 <= s -> 0 <= e -> (s + e =? 0) = is_no_answer s e.
Proof. intros Hs He. unfold is_no_answer. lia. Qed.

Lemma span_overlap_le_size_l ps pe ls le :
  span_overlap ps pe ls le <= span_size ps pe.
Proof. unfold span_overlap, span_size. lia. Qed.

Lemma span_overlap_le_size_r ps pe ls le :
  span_overlap ps pe ls le <= span_size ls le.
Proof. unfold span_overlap, span_size. lia. Qed.

Lemma span_overlap_comm ps pe ls le :
  span_overlap ps pe ls le = span_overlap ls le ps pe.
Proof. unfold span_overlap. lia. Qed.

(** What [squad_f1_single] computes, for any offsets. *)
Lemma squad_f1_single_eval pred idx c ls le :
  pred !! idx = Some c ->
  squad_f1_single pred (ls, le) idx = Ok (span_f1 c (ls, le)).
Proof.
  intros Hc. unfold squad_f1_single, span_f1, subscript.
  rewrite Hc. cbn -[range Z.add].
  set (ps := offset_answer_start c). set (pe := offset_answer_end c).
  destruct ((ps + pe =? 0) || (ls + le =? 0)); [by destruct (ps =? ls)|].
  unfold len. rewrite overlap_count, !length_range, Qeq_bool_inject_Z.
  replace (Z.of_nat (Z.to_nat (pe + 1 - ps))) with (span_size ps pe)
    by (unfold span_size; lia).
  replace (Z.of_nat (Z.to_nat (le + 1 - ls))) with (span_size ls le)
    by (unfold span_size; lia).
  destruct (Z.eqb_spec (span_overlap ps pe ls le) 0) as [|Hov]; [reflexivity|].
  pose proof (span_overlap_le_size_l ps pe ls le).
  pose proof (span_overlap_le_size_r ps pe ls le).
  assert (0 < span_overlap ps pe ls le) as Hpos
    by (unfold span_overlap in *; lia).
  pose proof (inject_Z_pos _ Hpos) as Ho.
  assert (0 < inject_Z (span_size ps pe))%Q as Hsp by (apply inject_Z_pos; lia).
  assert (0 < inject_Z (span_size ls le))%Q as Hsl by (apply inject_Z_pos; lia).
  rewrite (truediv_ok _ (inject_Z (span_size ps pe))) by lra. cbn.
  rewrite (truediv_ok _ (inject_Z (span_size ls le))) by lra. cbn.
  pose proof (Qdiv_pos _ _ Ho Hsp). pose proof (Qdiv_pos _ _ Ho Hsl).
  rewrite truediv_ok by lra. reflexivity.
Qed.

(** On non-negative offsets the sum test of the code singles out exactly
    the sentinel [(0, 0)]. *)
Lemma squad_f1_single_nonneg pred idx c ls le :
  pred !! idx = Some c ->
  0 <= offset_answer_start c -> 0 <= offset_answer_end c ->
  0 <= ls -> 0 <= le ->
  squad_f1_single pred (ls, le) idx
  = Ok (overlap_f1 (offset_answer_start c) (offset_answer_end c) ls le).
Proof.
  intros Hc Hps Hpe Hls Hle.
  rewrite (squad_f1_single_eval pred idx c) by exact Hc.
  unfold span_f1, overlap_f1. by rewrite !no_answer_test.
Qed.

Lemma overlap_f1_bounds ps pe ls le : (0 <= overlap_f1 ps pe ls le <= 1)%Q.
Proof.
  unfold overlap_f1.
  destruct (is_no_answer ps pe || is_no_answer ls le).
  { destruct (ps =? ls); lra. }
  destruct (Z.eqb_spec (span_overlap ps pe ls le) 0) as [|Hov]; [lra|].
  pose proof (span_overlap_le_size_l ps pe ls le) as Hl.
  pose proof (span_overlap_le_size_r ps pe ls le) as Hr.
  assert (0 < span_overlap ps pe ls le) as Hpos
    by (unfold span_overlap in *; lia).
  cbv zeta.
  set (o := inject_Z (span_overlap ps pe ls le)).
  set (a := inject_Z (span_size ps pe)). set (b := inject_Z (span_size ls le)).
  assert (0 < o)%Q as Ho by (apply inject_Z_pos; lia).
  assert (o <= a)%Q as Hoa by (unfold o, a; rewrite <- Zle_Qle; lia).
  assert (o <= b)%Q as Hob by (unfold o, b; rewrite <- Zle_Qle; lia).
  assert (0 < o / a)%Q as Hp by (apply Qdiv_pos; lra).
  assert (0 < o / b)%Q as Hq by (apply Qdiv_pos; lra).
  assert (o / a <= 1)%Q as Hp1 by (apply Qle_shift_div_r; lra).
  assert (o / b <= 1)%Q as Hq1 by (apply Qle_shift_div_r; lra).
  set (p := (o / a)%Q) in *. set (r := (o / b)%Q) in *.
  split.
  - apply Qle_shift_div_l; [lra|]. nra.
  - apply Qle_shift_div_r; [lra|]. nra.
Qed.

Lemma overlap_f1_sym ps pe ls le :
  (overlap_f1 ps pe ls le == overlap_f1 ls le ps pe)%Q.
Proof.
  unfold overlap_f1.
  rewrite (orb_comm (is_no_answer ls le)), (Z.eqb_sym ls ps),
    (span_overlap_comm ls le ps pe).
  destruct (is_no_answer ps pe || is_no_answer ls le); [reflexivity|].
  destruct (span_overlap ps pe ls le =? 0); [reflexivity|].
  cbv zeta. unfold Qdiv.
  rewrite (Qplus_comm (inject_Z (span_overlap ps pe ls le)
                       * / inject_Z (span_size ls le))).
  ring.
Qed.

Lemma harmonic_mean_one (q : Q) : (0 < q)%Q -> (2 * q * q / (q + q) == q)%Q.
Proof. intros Hq. field. lra. Qed.

(** C4. For spans with non-negative offsets, [squad_f1_single] returns the
    overlap F1 of the specification: when either span is the sentinel
    [(0, 0)] the score is 1 if the two start offsets agree and 0 otherwise;
    otherwise it is the harmonic mean of overlap/|pred span| and
    overlap/|gold span| over the inclusive ranges, and 0 for an empty
    overlap.  Identical spans with [start <= end] score 1 and spans with no
    common position score 0. *)
Theorem squad_f1_single_overlap_f1 pred idx c ls le :
  pred !! idx = Some c ->
  0 <= offset_answer_start c -> 0 <= offset_answer_end c ->
  0 <= ls -> 0 <= le ->
  let ps := offset_answer_start c in
  let pe := offset_answer_end c in
  squad_f1_single pred (ls, le) idx = Ok (overlap_f1 ps pe ls le)
  /\ ((ps, pe) = (0, 0) \/ (ls, le) = (0, 0) ->
      overlap_f1 ps pe ls le = if ps =? ls then 1%Q else 0%Q)
  /\ ((ps, pe) <> (0, 0) -> (ls, le) <> (0, 0) ->
      overlap_f1 ps pe ls le =
        if span_overlap ps pe ls le =? 0 then 0%Q
        else
          let precision := (inject_Z (span_overlap ps pe ls le)
                            / inject_Z (span_size ps pe))%Q in
          let recall := (inject_Z (span_overlap ps pe ls le)
                         / inject_Z (span_size ls le))%Q in
          (2 * precision * recall / (precision + recall))%Q)
  /\ ((ps, pe) = (ls, le) -> ps <= pe -> (overlap_f1 ps pe ls le == 1)%Q)
  /\ (span_overlap ps pe ls le = 0 -> overlap_f1 ps pe ls le = 0%Q).
Proof.
  intros Hc Hps Hpe Hls Hle ps pe. repeat split.
  - by apply squad_f1_single_nonneg.
  - intros Hsent. unfold overlap_f1.
    replace (is_no_answer ps pe || is_no_answer ls le) with true; [done|].
    unfold is_no_answer. destruct Hsent as [[= -> ->]|[= -> ->]]; cbn;
      [done | by rewrite orb_true_r].
  - intros Hp Hl. unfold overlap_f1.
    replace (is_no_answer ps pe || is_no_answer ls le) with false; [done|].
    symmetry. apply orb_false_intro; unfold is_no_answer;
      apply andb_false_iff.
    + destruct (Z.eqb_spec ps 0), (Z.eqb_spec pe 0); try tauto.
      exfalso. apply Hp. congruence.
    + destruct (Z.eqb_spec ls 0), (Z.eqb_spec le 0); try tauto.
      exfalso. apply Hl. congruence.
  - intros [= <- <-] Hord. unfold overlap_f1.
    rewrite Z.eqb_refl.
    destruct (is_no_answer ps pe || is_no_answer ps pe); [reflexivity|].
    assert (span_overlap ps pe ps pe = span_size ps pe) as ->
      by (unfold span_overlap, span_size; lia).
    assert (0 < span_size ps pe) as Hsz by (unfold span_size; lia).
    destruct (Z.eqb_spec (span_size ps pe) 0) as [|_]; [lia|].
    cbv zeta. apply inject_Z_pos in Hsz.
    rewrite harmonic_mean_one by (apply Qdiv_pos; assumption).
    field. lra.
  - intros Hdisj. unfold overlap_f1. rewrite Hdisj. cbn.
    destruct (is_no_answer ps pe || is_no_answer ls le) eqn:Hsent;
      [|reflexivity].
    destruct (Z.eqb_spec ps ls) as [Heq|]; [|reflexivity].
    exfalso. unfold span_overlap, is_no_answer in *. lia.
Qed.

Lemma squad_f1_single_overlap_f1_witness :
  squad_f1_single [cand 2 5 (1 # 2)] (4, 9) 0 = Ok (overlap_f1 2 5 4 9)
  /\ (overlap_f1 2 5 4 9 == 2 # 5)%Q.
Proof.
  split.
  - apply (squad_f1_single_overlap_f1 [cand 2 5 (1 # 2)] 0%nat
             (cand 2 5 (1 # 2)) 4 9); [reflexivity | cbn; lia ..].
  - vm_compute. reflexivity.
Defined.

(** Outside the data model the sum test of the code is wider than the
    sentinel: with a negative offset, [(-1, 1)] is treated as no answer. *)
Example squad_f1_single_negative_offset :
  squad_f1_single [cand (-1) 1 (1 # 2)] (0, 5) 0 = Ok 0%Q
  /\ (overlap_f1 (-1) 1 0 5 == 4 # 9)%Q.
Proof. split; vm_compute; reflexivity. Qed.

(** C10. For two spans with non-negative offsets and [start <= end], the
    score of [squad_f1_single] lies in [[0, 1]] and does not change when the
    predicted and the gold span are exchanged. *)
Theorem squad_f1_single_bounded_symmetric (c1 c2 : QACandidate) :
  0 <= offset_answer_start c1 <= offset_answer_end c1 ->
  0 <= offset_answer_start c2 <= offset_answer_end c2 ->
  exists v w : Q,
    squad_f1_single [c1] (offset_answer_start c2, offset_answer_end c2) 0
      = Ok v
    /\ squad_f1_single [c2] (offset_answer_start c1, offset_answer_end c1) 0
      = Ok w
    /\ (0 <= v <= 1)%Q /\ (v == w)%Q.
Proof.
  intros H1 H2.
  eexists _, _. split; [|split].
  - apply squad_f1_single_nonneg; [reflexivity | lia ..].
  - apply squad_f1_single_nonneg; [reflexivity | lia ..].
  - split; [apply overlap_f1_bounds | apply overlap_f1_sym].
Qed.

Lemma squad_f1_single_bounded_symmetric_witness :
  exists v w : Q,
    squad_f1_single [cand 2 5 (1 # 2)] (4, 9) 0 = Ok v
    /\ squad_f1_single [cand 4 9 (1 # 3)] (2, 5) 0 = Ok w
    /\ (0 <= v <= 1)%Q /\ (v == w)%Q.
Proof.
  apply (squad_f1_single_bounded_symmetric (cand 2 5 (1 # 2))
           (cand 4 9 (1 # 3))); cbn; lia.
Defined.

(** ** Loops over aligned batches *)

(** A loop over [range(len(ps))] whose body subscripts both batches is a
    loop over the paired elements. *)
Lemma foldM_seq_zip {S P L} (step : S -> P -> L -> result S)
  (body : S -> nat -> result S) :
  forall (ps : list P) (ls : list L) (k : nat) (s : S),
  (length ps <= length ls)%nat ->
  (forall s i p l, ps !! i = Some p -> ls !! i = Some l ->
     body s (k + i)%nat = step s p l) ->
  foldM body s (seq k (length ps))
  = foldM (fun s '(p, l) => step s p l) s (zip ps ls).
Proof.
  induction ps as [|p ps IH]; intros ls k s Hlen Hbody; [reflexivity|].
  destruct ls as [|l ls]; [cbn in Hlen; lia|].
  cbn [length seq zip zip_with foldM].
  rewrite <- (Nat.add_0_r k) at 1. rewrite (Hbody s 0%nat p l) by reflexivity.
  destruct (step s p l) as [s'|e]; [|reflexivity]. cbn.
  apply IH; [cbn in Hlen; lia|].
  intros s0 i p0 l0 Hp Hl.
  replace (Datatypes.S k + i)%nat with (k + Datatypes.S i)%nat by lia.
  by apply Hbody.
Qed.

Lemma subscript_Some {A} (xs : list A) i x :
  xs !! i = Some x -> subscript xs i = Ok x.
Proof. intros H. unfold subscript. by rewrite H. Qed.

Lemma squad_EM_zip preds labels :
  length preds = length labels ->
  squad_EM preds labels
  = (n_correct ← foldM (fun s '(p, l) => squad_EM_doc s p l) 0%nat
                   (zip preds labels);
     ratio_or_zero n_correct (length preds)).
Proof.
  intros Hlen. unfold squad_EM. f_equal.
  apply (foldM_seq_zip squad_EM_doc); [lia|].
  intros s i p l Hp Hl. change (0 + i)%nat with i.
  unfold best_candidate, squad_EM_doc.
  rewrite (subscript_Some _ _ _ Hp), (subscript_Some _ _ _ Hl). cbn.
  destruct (subscript p 0) as [candidates|]; [|reflexivity]. cbn.
  destruct (subscript candidates 0); reflexivity.
Qed.

Lemma top_n_accuracy_zip preds labels :
  length preds = length labels ->
  top_n_accuracy preds labels
  = (answer_in_top_n ← foldM (fun s '(p, l) => top_n_doc s p l) []
                         (zip preds labels);
     Ok (np_mean answer_in_top_n)).
Proof.
  intros Hlen. unfold top_n_accuracy. f_equal.
  apply (foldM_seq_zip top_n_doc); [lia|].
  intros s i p l Hp Hl. change (0 + i)%nat with i. unfold top_n_doc.
  rewrite (subscript_Some _ _ _ Hp). cbn.
  destruct (subscript p 0) as [current_preds|]; [|reflexivity]. cbn.
  by rewrite (subscript_Some _ _ _ Hl).
Qed.

Lemma comprehension_fmap {A B} (f : A -> result B) (g : A -> B) xs :
  (forall x, x ∈ xs -> f x = Ok (g x)) ->
  comprehension f xs = Ok (g <$> xs).
Proof.
  induction xs as [|x xs IH]; intros Hf; [reflexivity|].
  cbn. rewrite (Hf x) by apply list_elem_of_here. cbn.
  rewrite IH; [reflexivity|].
  intros y Hy. apply Hf. by apply list_elem_of_further.
Qed.

Lemma fold_max_upper (xs : list Q) : forall m0 : Q,
  let m := fold_left (fun m y => if Qle_bool y m then m else y) xs m0 in
  (m0 <= m)%Q /\ forall x, x ∈ xs -> (x <= m)%Q.
Proof.
  induction xs as [|y xs IH]; intros m0; cbn.
  - split; [lra|]. intros x Hx. by apply elem_of_nil in Hx.
  - destruct (IH (if Qle_bool y m0 then m0 else y)) as [Hm Hin].
    assert (m0 <= (if Qle_bool y m0 then m0 else y)
            /\ y <= (if Qle_bool y m0 then m0 else y))%Q as [H0 Hy].
    { destruct (Qle_bool y m0) eqn:E.
      - apply Qle_bool_iff in E. lra.
      - split; [|lra]. destruct (Qlt_le_dec m0 y) as [Hlt|Hle]; [lra|].
        apply Qle_bool_iff in Hle. congruence. }
    split; [lra|].
    intros x Hx. apply elem_of_cons in Hx as [->|Hx]; [lra | by apply Hin].
Qed.

Lemma py_max_upper (xs : list Q) :
  xs <> [] -> exists m, py_max xs = Ok m /\ forall x, x ∈ xs -> (x <= m)%Q.
Proof.
  destruct xs as [|x0 xs]; [done|]. intros _. eexists. split; [reflexivity|].
  destruct (fold_max_upper xs x0) as [H0 Hin].
  intros x Hx. apply elem_of_cons in Hx as [->|Hx]; [exact H0 | by apply Hin].
Qed.

Lemma scan_until_hit_total (f1_at : nat -> result Q) idxs : forall v0,
  (forall idx, idx ∈ idxs -> exists v, f1_at idx = Ok v) ->
  exists v, scan_until_hit f1_at idxs v0 = Ok v.
Proof.
  induction idxs as [|i idxs IH]; intros v0 Hok; [by eexists|].
  destruct (Hok i) as [v Hv]; [apply list_elem_of_here|].
  cbn. rewrite Hv. cbn. destruct (truthy v); [by eexists|].
  apply IH. intros idx Hidx. apply Hok. by apply list_elem_of_further.
Qed.

Lemma span_f1_exact c :
  offset_answer_start c <= offset_answer_end c ->
  (span_f1 c (offset_answer_start c, offset_answer_end c) == 1)%Q.
Proof.
  intros Hord. unfold span_f1.
  set (ps := offset_answer_start c) in *. set (pe := offset_answer_end c) in *.
  rewrite Z.eqb_refl.
  destruct ((ps + pe =? 0) || (ps + pe =? 0)); [reflexivity|].
  assert (span_overlap ps pe ps pe = span_size ps pe) as ->
    by (unfold span_overlap, span_size; lia).
  assert (0 < span_size ps pe) as Hsz by (unfold span_size; lia).
  destruct (Z.eqb_spec (span_size ps pe) 0) as [|_]; [lia|].
  cbv zeta. apply inject_Z_pos in Hsz.
  rewrite harmonic_mean_one by (apply Qdiv_pos; assumption).
  field. lra.
Qed.

Lemma truthy_pos v : (0 < v)%Q -> truthy v = true.
Proof.
  intros Hv. unfold truthy. destruct (Qeq_bool v 0) eqn:E; [|reflexivity].
  apply Qeq_bool_iff in E. lra.
Qed.

(** The per-document step of [top_n_accuracy] appends 1 or 0, and appends 1
    when the best candidate is literally one of the gold spans. *)
Lemma top_n_doc_ok answers pred curr_labels candidates best :
  pred !! 0%nat = Some candidates -> candidates !! 0%nat = Some best ->
  offset_answer_start best <= offset_answer_end best ->
  curr_labels <> [] ->
  exists h : Q,
    top_n_doc answers pred curr_labels = Ok (answers ++ [h])
    /\ (h = 0%Q \/ h = 1%Q)
    /\ ((offset_answer_start best, offset_answer_end best) ∈ curr_labels ->
        h = 1%Q).
Proof.
  intros Hp Hc Hord Hne. unfold top_n_doc.
  rewrite (subscript_Some _ _ _ Hp). cbn.
  set (f1_at := fun idx : nat => _).
  assert (forall idx c, candidates !! idx = Some c ->
            exists m, f1_at idx = Ok m
                      /\ forall label, label ∈ curr_labels ->
                                       (span_f1 c label <= m)%Q) as Hat.
  { intros idx c Hidx. unfold f1_at.
    rewrite (comprehension_fmap _ (span_f1 c)).
    - cbn. destruct (py_max_upper (span_f1 c <$> curr_labels)) as (m & Hm & Hup).
      { by destruct curr_labels. }
      exists m. split; [exact Hm|].
      intros label Hl. apply Hup. apply list_elem_of_fmap. eauto.
    - intros [ls le] _. by apply squad_f1_single_eval. }
  destruct candidates as [|c0 rest]; [discriminate|].
  injection Hc as ->.
  destruct (Hat 0%nat best eq_refl) as (m0 & Hm0 & Hup0).
  cbn [length seq scan_until_hit]. rewrite Hm0. cbn.
  destruct (truthy m0) eqn:Ht.
  - cbn. rewrite Ht. eexists. split; [reflexivity|]. auto.
  - destruct (scan_until_hit_total f1_at (seq 1 (length rest)) m0) as [v Hv].
    { intros idx Hidx. apply elem_of_seq in Hidx.
      destruct (lookup_lt_is_Some_2 (best :: rest) idx) as [c Hcidx];
        [cbn; lia|].
      destruct (Hat idx c Hcidx) as (m & Hm & _). eauto. }
    rewrite Hv. cbn.
    exists (if truthy v then 1%Q else 0%Q).
    split; [by destruct (truthy v)|].
    split; [destruct (truthy v); auto|].
    intros Hin. exfalso.
    pose proof (Hup0 _ Hin) as Hle. rewrite span_f1_exact in Hle by exact Hord.
    rewrite truthy_pos in Ht by lra. discriminate.
Qed.

Lemma Qsum_snoc xs h : Qsum (xs ++ [h]) = (Qsum xs + h)%Q.
Proof. unfold Qsum. by rewrite fold_left_app. Qed.

Lemma inject_nat_succ (n : nat) :
  (inject_Z (Z.of_nat (n + 1)) == inject_Z (Z.of_nat n) + 1)%Q.
Proof. rewrite Nat2Z.inj_add, inject_Z_plus. reflexivity. Qed.

Lemma squad_EM_doc_ok n_correct pred curr_labels candidates best :
  pred !! 0%nat = Some candidates -> candidates !! 0%nat = Some best ->
  squad_EM_doc n_correct pred curr_labels
  = Ok (if bool_decide ((offset_answer_start best, offset_answer_end best)
                        ∈ curr_labels)
        then (n_correct + 1)%nat else n_correct).
Proof.
  intros Hp Hc. unfold squad_EM_doc.
  rewrite (subscript_Some _ _ _ Hp). cbn.
  rewrite (subscript_Some _ _ _ Hc). cbn. by case_bool_decide.
Qed.

(** Both loops run to the end on well-formed documents, and the number of
    exact matches never exceeds the sum of the top-n flags. *)
Lemma squad_EM_top_n_fold preds labels :
  Forall2 well_formed_doc preds labels ->
  forall (n_correct : nat) (answers : list Q),
  (inject_Z (Z.of_nat n_correct) <= Qsum answers)%Q ->
  exists n_correct' answers',
    foldM (fun s '(p, l) => squad_EM_doc s p l) n_correct (zip preds labels)
      = Ok n_correct'
    /\ foldM (fun s '(p, l) => top_n_doc s p l) answers (zip preds labels)
      = Ok answers'
    /\ length answers' = (length answers + length preds)%nat
    /\ (inject_Z (Z.of_nat n_correct') <= Qsum answers')%Q.
Proof.
  induction 1 as [|p l preds labels Hwf _ IH]; intros n_correct answers Hinv.
  - exists n_correct, answers. cbn. repeat split; [lia | exact Hinv].
  - destruct Hwf as (candidates & best & Hp & Hc & Hord & Hne).
    destruct (top_n_doc_ok answers p l candidates best Hp Hc Hord Hne)
      as (h & Htop & Hh & Hhit).
    cbn [zip zip_with foldM]. rewrite Htop.
    rewrite (squad_EM_doc_ok _ _ _ _ _ Hp Hc).
    case_bool_decide as Hin.
    + cbn. rewrite (Hhit Hin) in *.
      destruct (IH (n_correct + 1)%nat (answers ++ [1%Q]))
        as (n' & a' & H1 & H2 & H3 & H4).
      { rewrite Qsum_snoc, inject_nat_succ. lra. }
      exists n', a'. repeat split; try assumption.
      rewrite H3, length_app. cbn. lia.
    + cbn.
      destruct (IH n_correct (answers ++ [h]))
        as (n' & a' & H1 & H2 & H3 & H4).
      { rewrite Qsum_snoc. destruct Hh as [-> | ->]; lra. }
      exists n', a'. repeat split; try assumption.
      rewrite H3, length_app. cbn. lia.
Qed.

(** C5. On a non-empty batch of well-formed documents both metrics return
    a number, and top-n accuracy is at least the exact-match score. *)
Theorem top_n_accuracy_ge_squad_EM preds labels :
  preds <> [] ->
  Forall2 well_formed_doc preds labels ->
  exists em top : Q,
    squad_EM preds labels = Ok em
    /\ top_n_accuracy preds labels = Ok (Fin top)
    /\ (em <= top)%Q.
Proof.
  intros Hne Hwf. pose proof (Forall2_length _ _ _ Hwf) as Hlen.
  rewrite squad_EM_zip, top_n_accuracy_zip by exact Hlen.
  destruct (squad_EM_top_n_fold preds labels Hwf 0%nat [])
    as (n_correct & answers & -> & -> & Hlength & Hle).
  { exact (Qle_refl 0). }
  cbn in Hlength. cbn.
  assert (0 < length preds)%nat as Hpos by (destruct preds; [done | cbn; lia]).
  assert (0 < inject_Z (Z.of_nat (length preds)))%Q as Hn
    by (apply inject_Z_pos; lia).
  unfold ratio_or_zero.
  destruct (Nat.eqb_spec (length preds) 0) as [|_]; [lia|].
  rewrite truediv_ok by lra.
  destruct answers as [|a answers]; [cbn in Hlength; lia|].
  eexists _, _. split; [reflexivity|]. split; [reflexivity|].
  unfold len. rewrite Hlength.
  unfold Qdiv. apply Qmult_le_compat_r; [exact Hle|].
  apply Qinv_le_0_compat. lra.
Qed.

Lemma top_n_accuracy_ge_squad_EM_witness :
  exists em top : Q,
    squad_EM [[[cand 1 3 (9 # 10)]]; [[cand 2 5 (1 # 2); cand 7 9 (1 # 4)]]]
             [[(1, 3)]; [(8, 8); (0, 0)]] = Ok em
    /\ top_n_accuracy
         [[[cand 1 3 (9 # 10)]]; [[cand 2 5 (1 # 2); cand 7 9 (1 # 4)]]]
         [[(1, 3)]; [(8, 8); (0, 0)]] = Ok (Fin top)
    /\ (em <= top)%Q.
Proof.
  apply top_n_accuracy_ge_squad_EM; [discriminate|].
  repeat constructor.
  - exists [cand 1 3 (9 # 10)], (cand 1 3 (9 # 10)).
    repeat split; [cbn; lia | discriminate].
  - exists [cand 2 5 (1 # 2); cand 7 9 (1 # 4)], (cand 2 5 (1 # 2)).
    repeat split; [cbn; lia | discriminate].
Defined.

(** The two hypotheses on documents are needed: a candidate with
    [start > end] that is literally a gold span is an exact match with an
    empty overlap, and a document without gold span makes [max] raise. *)
Example reversed_span_exact_match :
  squad_EM [[[cand 5 3 (1 # 2)]]] [[(5, 3)]] = Ok 1%Q
  /\ top_n_accuracy [[[cand 5 3 (1 # 2)]]] [[(5, 3)]] = Ok (Fin 0).
Proof. split; vm_compute; reflexivity. Qed.

Example top_n_accuracy_without_gold_span :
  squad_EM [[[cand 1 3 (1 # 2)]]] [[]] = Ok 0%Q
  /\ top_n_accuracy [[[cand 1 3 (1 # 2)]]] [[]] = Raise ValueError.
Proof. split; vm_compute; reflexivity. Qed.

(** ** Start-only exact match *)

(** C3 fails on the code.  [squad_EM_start] builds [curr_label] from
    [label[1]], the gold end offsets: on one document with one gold span the
    score is 1 exactly when the predicted start equals the gold end.  With
    candidate [(1, 3)] and gold span [(1, 3)] the start offsets agree but
    the score is 0; with candidate [(3, 5)] they differ and the score
    is 1. *)
Theorem squad_EM_start_compares_gold_end :
  (forall s e q ls le,
     squad_EM_start [[[cand s e q]]] [[(ls, le)]]
     = Ok (if bool_decide (s = le) then 1%Q else 0%Q))
  /\ squad_EM_start [[[cand 1 3 (9 # 10)]]] [[(1, 3)]] = Ok 0%Q
  /\ squad_EM_start [[[cand 3 5 (9 # 10)]]] [[(1, 3)]] = Ok 1%Q.
Proof.
  split; [|split; reflexivity].
  intros s e q ls le. unfold squad_EM_start. cbn.
  destruct (decide (s = le)) as [->|Hne].
  - rewrite !bool_decide_eq_true_2; [reflexivity | done | apply list_elem_of_here].
  - rewrite !bool_decide_eq_false_2; [reflexivity | done |].
    intros Hin. apply elem_of_cons in Hin as [?|Hin]; [done|].
    by apply elem_of_nil in Hin.
Qed.

(** ** The aggregate metric on an empty batch *)

(** C7 fails on the code.  On the empty batch [squad_EM] and [confidence]
    take their guarded branch and return 0, while [squad_f1] and
    [top_n_accuracy] return the mean of an empty list, which is [nan]. *)
Theorem squad_empty_batch :
  squad [] [] = Ok {| EM := 0; f1 := NaN; top_n_acc := NaN;
                      mean_confidence := 0;
                      em_per_bin := replicate 10 0%Q;
                      confidence_per_bin := replicate 10 0%Q;
                      count_per_bin := replicate 10 0%nat |}
  /\ squad_EM [] [] = Ok 0%Q
  /\ confidence [] = Ok 0%Q
  /\ squad_f1 [] [] = Ok NaN
  /\ top_n_accuracy [] [] = Ok NaN.
Proof. repeat split; reflexivity. Qed.

(** ** Rounding to binary64 *)

Lemma pow2_pos z : (0 < pow2 z)%Q.
Proof. apply Qpower_0_lt. reflexivity. Qed.

Lemma pow2_add a b : (pow2 (a + b) == pow2 a * pow2 b)%Q.
Proof. apply Qpower_plus. discriminate. Qed.

Lemma pow2_le a b : a <= b -> (pow2 a <= pow2 b)%Q.
Proof. intros H. apply Qpower_le_compat_l; [exact H | discriminate]. Qed.

Lemma pow2_lt_inv a b : (pow2 a < pow2 b)%Q -> a < b.
Proof. intros H. eapply Qpower_lt_compat_l_inv; [exact H | reflexivity]. Qed.

Lemma pow2_Z n : 0 <= n -> (pow2 n == inject_Z (2 ^ n))%Q.
Proof. intros H. unfold pow2. by rewrite Zpower_Qpower. Qed.

Lemma pow2_sub a b : (pow2 (a - b) == pow2 a / pow2 b)%Q.
Proof.
  unfold pow2. rewrite Qpower_minus; [reflexivity | discriminate].
Qed.

Lemma Qmake_div (n : Z) (d : positive) :
  (n # d == inject_Z n / inject_Z (Zpos d))%Q.
Proof. apply Qmake_Qdiv. Qed.

(** [ilog2 a] is the binade of [a]. *)
Lemma ilog2_spec a :
  (0 < a)%Q -> (pow2 (ilog2 a) <= a)%Q /\ (a < pow2 (ilog2 a + 1))%Q.
Proof.
  intros Ha. destruct a as [n d].
  assert (0 < n) as Hn by (unfold Qlt in Ha; cbn in Ha; lia).
  unfold ilog2. cbn [Qnum Qden].
  set (lp := Z.log2 n). set (lq := Z.log2 (Z.pos d)).
  destruct (Z.log2_spec n Hn) as [Hp1 Hp2].
  destruct (Z.log2_spec (Z.pos d) ltac:(lia)) as [Hq1 Hq2].
  fold lp in Hp1, Hp2. fold lq in Hq1, Hq2.
  assert (0 <= lp) by apply Z.log2_nonneg.
  assert (0 <= lq) by apply Z.log2_nonneg.
  rewrite Z.pow_succ_r in Hp2, Hq2 by assumption.
  assert (0 < 2 ^ lp) by (apply Z.pow_pos_nonneg; lia).
  assert (0 < 2 ^ lq) by (apply Z.pow_pos_nonneg; lia).
  set (P := inject_Z (2 ^ lp)) in *. set (D := inject_Z (2 ^ lq)) in *.
  assert (0 < inject_Z (2 ^ lp))%Q as HP
    by (change 0%Q with (inject_Z 0); by rewrite <- Zlt_Qlt).
  assert (0 < inject_Z (2 ^ lq))%Q as HD
    by (change 0%Q with (inject_Z 0); by rewrite <- Zlt_Qlt).
  assert (inject_Z (2 ^ lp) <= inject_Z n)%Q as A1 by (by rewrite <- Zle_Qle).
  assert (inject_Z n < 2 * inject_Z (2 ^ lp))%Q as A2.
  { change 2%Q with (inject_Z 2). rewrite <- inject_Z_mult, <- Zlt_Qlt. lia. }
  assert (inject_Z (2 ^ lq) <= inject_Z (Z.pos d))%Q as B1
    by (by rewrite <- Zle_Qle).
  assert (inject_Z (Z.pos d) < 2 * inject_Z (2 ^ lq))%Q as B2.
  { change 2%Q with (inject_Z 2). rewrite <- inject_Z_mult, <- Zlt_Qlt. lia. }
  assert (pow2 (lp - lq) == inject_Z (2 ^ lp) / inject_Z (2 ^ lq))%Q as Hd.
  { rewrite pow2_sub, !pow2_Z by assumption. reflexivity. }
  assert (pow2 (lp - lq + 1) == 2 * pow2 (lp - lq))%Q as Hd1.
  { rewrite pow2_add. change (pow2 1) with 2%Q. ring. }
  assert (pow2 (lp - lq) == 2 * pow2 (lp - lq - 1))%Q as Hd0.
  { replace (lp - lq) with ((lp - lq - 1) + 1) at 1 by lia.
    rewrite pow2_add. change (pow2 1) with 2%Q. ring. }
  pose proof (pow2_pos (lp - lq - 1)) as Hpos0.
  set (N := inject_Z n) in *. set (Dn := inject_Z (Z.pos d)) in *.
  assert (0 < Dn)%Q as HDn by lra.
  assert (n # d == N / Dn)%Q as Ha' by apply Qmake_div.
  set (t := (inject_Z (2 ^ lp) / inject_Z (2 ^ lq))%Q) in *.
  assert (t * inject_Z (2 ^ lq) == inject_Z (2 ^ lp))%Q as Ht
    by (unfold t; field; lra).
  assert (0 < t)%Q as Ht0 by (unfold t; apply Qlt_shift_div_l; lra).
  assert (N / Dn < 2 * pow2 (lp - lq))%Q as Hup.
  { rewrite Hd. apply Qlt_shift_div_r; [exact HDn|].
    assert (t * inject_Z (2 ^ lq) <= t * Dn)%Q by nra. nra. }
  assert (pow2 (lp - lq - 1) < N / Dn)%Q as Hlo.
  { apply Qlt_shift_div_l; [exact HDn|].
    assert (2 * pow2 (lp - lq - 1) == t)%Q as E by (rewrite <- Hd0; exact Hd).
    assert (t * Dn < t * (2 * inject_Z (2 ^ lq)))%Q by nra. nra. }
  destruct (Qle_bool (pow2 (lp - lq)) (n # d)) eqn:E.
  - apply Qle_bool_iff in E. split; [exact E|]. rewrite Hd1, Ha'. exact Hup.
  - split; [rewrite Ha'; lra|].
    replace (lp - lq - 1 + 1) with (lp - lq) by lia.
    destruct (Qlt_le_dec (n # d) (pow2 (lp - lq))) as [Hlt|Hle]; [exact Hlt|].
    apply Qle_bool_iff in Hle. congruence.
Qed.

Lemma ilog2_unique a e :
  (pow2 e <= a)%Q -> (a < pow2 (e + 1))%Q -> ilog2 a = e.
Proof.
  intros H1 H2.
  assert (0 < a)%Q as Ha by (pose proof (pow2_pos e); lra).
  destruct (ilog2_spec a Ha) as [G1 G2].
  assert (pow2 e < pow2 (ilog2 a + 1))%Q as L1 by lra.
  assert (pow2 (ilog2 a) < pow2 (e + 1))%Q as L2 by lra.
  apply pow2_lt_inv in L1, L2. lia.
Qed.

Lemma ilog2_mono a b : (0 < a)%Q -> (a <= b)%Q -> ilog2 a <= ilog2 b.
Proof.
  intros Ha Hab.
  destruct (ilog2_spec a Ha) as [G1 _].
  destruct (ilog2_spec b ltac:(lra)) as [_ G2].
  assert (pow2 (ilog2 a) < pow2 (ilog2 b + 1))%Q as L by lra.
  apply pow2_lt_inv in L. lia.
Qed.

Lemma round_half_even_range y :
  Qfloor y <= round_half_even y <= Qfloor y + 1.
Proof.
  unfold round_half_even.
  destruct (y - inject_Z (Qfloor y) ?= 1 # 2)%Q; [destruct (Z.even _)|..]; lia.
Qed.

Lemma round_half_even_mono y y' :
  (y <= y')%Q -> round_half_even y <= round_half_even y'.
Proof.
  intros Hle. pose proof (Qfloor_resp_le _ _ Hle) as Hfl.
  destruct (Z.eq_dec (Qfloor y) (Qfloor y')) as [E|NE].
  - unfold round_half_even. rewrite <- E.
    destruct (Qcompare_spec (y - inject_Z (Qfloor y)) (1 # 2)) as [H1|H1|H1];
      destruct (Qcompare_spec (y' - inject_Z (Qfloor y)) (1 # 2))
        as [H2|H2|H2];
      try destruct (Z.even (Qfloor y)); try lia; lra.
  - pose proof (round_half_even_range y). pose proof (round_half_even_range y').
    lia.
Qed.

Lemma round_half_even_Z y k : (y == inject_Z k)%Q -> round_half_even y = k.
Proof.
  intros E. unfold round_half_even.
  assert (Qfloor y = k) as -> by (rewrite E; apply Qfloor_Z).
  destruct (Qcompare_spec (y - inject_Z k) (1 # 2)) as [H|H|H];
    [lra | reflexivity | lra].
Qed.

Lemma round_half_even_nonneg y : (0 <= y)%Q -> 0 <= round_half_even y.
Proof.
  intros H. rewrite <- (round_half_even_Z 0 0) by reflexivity.
  by apply round_half_even_mono.
Qed.

Lemma round_mag_nonneg a : (0 <= a)%Q -> (0 <= round_mag a)%Q.
Proof.
  intros Ha. unfold round_mag.
  set (u := pow2 _). pose proof (pow2_pos (Z.max (ilog2 a) (-1022) - 52)) as Hu.
  fold u in Hu.
  assert (0 <= a / u)%Q by (apply Qle_shift_div_l; lra).
  pose proof (round_half_even_nonneg _ H) as Hn.
  rewrite Zle_Qle in Hn. change (inject_Z 0) with 0%Q in Hn. nra.
Qed.

(** The rounded value stays within the closed binade of its argument. *)
Lemma round_mag_upper a :
  (0 < a)%Q -> (round_mag a <= pow2 (Z.max (ilog2 a) (-1022) + 1))%Q.
Proof.
  intros Ha. unfold round_mag. set (e := Z.max (ilog2 a) (-1022)).
  pose proof (pow2_pos (e - 52)) as Hu.
  destruct (ilog2_spec a Ha) as [_ Hhi].
  assert (a < pow2 (e + 1))%Q as Hae.
  { eapply Qlt_le_trans; [exact Hhi|]. apply pow2_le. lia. }
  assert (pow2 (e + 1) == inject_Z (2 ^ 53) * pow2 (e - 52))%Q as Hsplit.
  { replace (e + 1) with (53 + (e - 52)) by lia.
    by rewrite pow2_add, (pow2_Z 53). }
  assert (a / pow2 (e - 52) <= inject_Z (2 ^ 53))%Q as Hq.
  { apply Qle_shift_div_r; [exact Hu|]. lra. }
  apply round_half_even_mono in Hq.
  rewrite (round_half_even_Z (inject_Z (2 ^ 53)) (2 ^ 53)) in Hq
    by reflexivity.
  rewrite Zle_Qle in Hq. rewrite Hsplit. nra.
Qed.

Lemma round_mag_lower a :
  (0 < a)%Q -> -1022 <= ilog2 a -> (pow2 (ilog2 a) <= round_mag a)%Q.
Proof.
  intros Ha He. unfold round_mag. rewrite Z.max_l by exact He.
  set (e := ilog2 a). pose proof (pow2_pos (e - 52)) as Hu.
  destruct (ilog2_spec a Ha) as [Hlo _]. fold e in Hlo.
  assert (pow2 e == inject_Z (2 ^ 52) * pow2 (e - 52))%Q as Hsplit.
  { replace e with (52 + (e - 52)) at 1 by lia.
    by rewrite pow2_add, (pow2_Z 52). }
  assert (inject_Z (2 ^ 52) <= a / pow2 (e - 52))%Q as Hq.
  { apply Qle_shift_div_l; [exact Hu|]. lra. }
  apply round_half_even_mono in Hq.
  rewrite (round_half_even_Z (inject_Z (2 ^ 52)) (2 ^ 52)) in Hq
    by reflexivity.
  rewrite Zle_Qle in Hq. rewrite Hsplit. nra.
Qed.

(** Rounding to nearest is monotone. *)
Lemma round_mag_mono a b :
  (0 < a)%Q -> (a <= b)%Q -> (round_mag a <= round_mag b)%Q.
Proof.
  intros Ha Hab. assert (0 < b)%Q as Hb by lra.
  pose proof (ilog2_mono a b Ha Hab) as Hlog.
  destruct (Z.eq_dec (Z.max (ilog2 a) (-1022)) (Z.max (ilog2 b) (-1022)))
    as [E|NE].
  - unfold round_mag. rewrite <- E.
    set (u := pow2 _). pose proof (pow2_pos (Z.max (ilog2 a) (-1022) - 52)) as Hu.
    fold u in Hu.
    assert (a / u <= b / u)%Q as Hq.
    { apply Qle_shift_div_l; [exact Hu|].
      setoid_replace (a / u * u)%Q with a using relation Qeq by (field; lra).
      exact Hab. }
    apply round_half_even_mono in Hq. rewrite Zle_Qle in Hq. nra.
  - assert (-1022 <= ilog2 b) as Hb' by lia.
    eapply Qle_trans; [apply (round_mag_upper a Ha)|].
    eapply Qle_trans; [|apply (round_mag_lower b Hb Hb')].
    apply pow2_le. lia.
Qed.

Lemma round_mag_eq a b : (0 < a)%Q -> (a == b)%Q -> (round_mag a == round_mag b)%Q.
Proof.
  intros Ha E. apply Qle_antisym; apply round_mag_mono; lra.
Qed.

Lemma pow2_1024_gt_1 : (1 < pow2 1024)%Q.
Proof. unfold pow2. apply Qpower_1_lt; [reflexivity | lia]. Qed.

Lemma round_mag_1 : (round_mag 1 == 1)%Q.
Proof. vm_compute. reflexivity. Qed.

Lemma round64_zero x : (x == 0)%Q -> round64 x = B64 0.
Proof.
  intros E. unfold round64. apply Qeq_alt in E. by rewrite E.
Qed.

Lemma round64_pos x :
  (0 < x)%Q ->
  round64 x = if Qle_bool (pow2 1024) (round_mag x) then B64_inf false
              else B64 (round_mag x).
Proof.
  intros H. unfold round64. apply Qgt_alt in H. by rewrite H.
Qed.

Lemma round64_pos_finite x :
  (0 < x)%Q -> (round_mag x < pow2 1024)%Q -> round64 x = B64 (round_mag x).
Proof.
  intros Hx Hr. rewrite round64_pos by exact Hx.
  destruct (Qle_bool (pow2 1024) (round_mag x)) eqn:E; [|reflexivity].
  apply Qle_bool_iff in E. lra.
Qed.

Lemma round64_pos_inv x q :
  (0 < x)%Q -> round64 x = B64 q ->
  q = round_mag x /\ (round_mag x < pow2 1024)%Q.
Proof.
  intros Hx. rewrite round64_pos by exact Hx.
  destruct (Qle_bool (pow2 1024) (round_mag x)) eqn:E; [discriminate|].
  intros [= <-]. split; [reflexivity|].
  destruct (Qlt_le_dec (round_mag x) (pow2 1024)) as [H|H]; [exact H|].
  apply Qle_bool_iff in H. congruence.
Qed.

(** Below a finite result everything rounds to a finite result below it. *)
Lemma round64_mono a b q :
  (0 < a)%Q -> (a <= b)%Q -> round64 b = B64 q ->
  exists p, round64 a = B64 p /\ (0 <= p <= q)%Q.
Proof.
  intros Ha Hab Hb.
  apply round64_pos_inv in Hb as [-> Hfin]; [|lra].
  pose proof (round_mag_mono a b Ha Hab) as Hle.
  exists (round_mag a). split; [apply round64_pos_finite; lra|].
  split; [apply round_mag_nonneg; lra | exact Hle].
Qed.

(** A number of [[0, 1]] rounds to a double of [[0, 1]]: to 1 or to at most
    the largest double below 1. *)
Lemma round64_unit s :
  (0 <= s <= 1)%Q ->
  exists d, round64 s = B64 d /\ (0 <= d)%Q /\ ((d == 1)%Q \/ (d <= below_one)%Q).
Proof.
  intros [H0 H1].
  destruct (Qlt_le_dec 0 s) as [Hpos|Hle].
  2: { exists 0%Q. split; [apply round64_zero; lra|].
       split; [lra | right; unfold below_one; lra]. }
  pose proof (round_mag_mono s 1 Hpos H1) as Hle1. rewrite round_mag_1 in Hle1.
  pose proof pow2_1024_gt_1 as Hbig.
  exists (round_mag s). split; [apply round64_pos_finite; lra|].
  split; [apply round_mag_nonneg; lra|].
  destruct (Qlt_le_dec s 1) as [Hlt|Hge].
  2: { left. rewrite <- round_mag_1. apply round_mag_eq; lra. }
  destruct (ilog2_spec s Hpos) as [Hlo Hhi].
  assert (ilog2 s < 0) as Hneg.
  { apply pow2_lt_inv. change (pow2 0) with 1%Q. lra. }
  destruct (Z.eq_dec (ilog2 s) (-1)) as [E|NE].
  - unfold round_mag. rewrite E. change (Z.max (-1) (-1022) - 52) with (-53).
    pose proof (pow2_pos (-53)) as Hu.
    assert (s / pow2 (-53) <= inject_Z (2 ^ 53))%Q as Hq.
    { apply Qle_shift_div_r; [exact Hu|].
      change (inject_Z (2 ^ 53) * pow2 (-53))%Q with (9007199254740992 * (1 # 9007199254740992))%Q.
      lra. }
    apply round_half_even_mono in Hq.
    rewrite (round_half_even_Z (inject_Z (2 ^ 53)) (2 ^ 53)) in Hq
      by reflexivity.
    set (n := round_half_even (s / pow2 (-53))) in *.
    destruct (Z.eq_dec n (2 ^ 53)) as [En|Nn].
    + left. rewrite En. reflexivity.
    + right. assert (n <= 2 ^ 53 - 1) as Hn by lia.
      rewrite Zle_Qle in Hn. unfold below_one.
      change (pow2 (-53)) with (1 # 9007199254740992)%Q.
      change (inject_Z (2 ^ 53 - 1)) with 9007199254740991%Q in Hn.
      lra.
  - right. eapply Qle_trans; [apply (round_mag_upper s Hpos)|].
    eapply Qle_trans; [apply (pow2_le _ (-1)); lia|].
    unfold below_one. change (pow2 (-1)) with (1 # 2)%Q. lra.
Qed.

Lemma round64_below_one_times_ten :
  round64 (below_one * 10) = B64 (5629499534213119 # 562949953421312).
Proof. vm_compute. reflexivity. Qed.

(** The product of a double below 1 with 10 rounds to a number below 10. *)
Lemma round64_times_ten d :
  (0 <= d <= below_one)%Q ->
  exists p, round64 (d * 10) = B64 p /\ (0 <= p < 10)%Q.
Proof.
  intros [H0 H1].
  destruct (Qlt_le_dec 0 d) as [Hpos|Hle].
  2: { exists 0%Q. split; [apply round64_zero; lra | lra]. }
  destruct (round64_mono (d * 10) (below_one * 10) _ ltac:(lra) ltac:(lra)
              round64_below_one_times_ten) as (p & Hp & Hp0 & Hp1).
  exists p. split; [exact Hp|]. split; [exact Hp0|].
  eapply Qle_lt_trans; [exact Hp1 | reflexivity].
Qed.

Lemma Qfloor_digit p : (0 <= p < 10)%Q -> 0 <= Qfloor p <= 9.
Proof.
  intros [H0 H1].
  pose proof (Qfloor_resp_le _ _ H0) as Hlo. change (Qfloor 0) with 0 in Hlo.
  pose proof (Qfloor_le p) as Hf.
  assert (inject_Z (Qfloor p) < inject_Z 10)%Q as Hlt
    by (change (inject_Z 10) with 10%Q; lra).
  rewrite <- Zlt_Qlt in Hlt. lia.
Qed.

(** ** Confidence bins *)

Lemma py_int_nonneg x : (0 <= x)%Q -> py_int x = Qfloor x.
Proof.
  destruct x as [n d]. unfold Qle, py_int, Qfloor. cbn. intros H.
  apply Z.quot_div_nonneg; lia.
Qed.

Lemma Qfloor_between a x :
  (inject_Z a <= x)%Q -> (x < inject_Z (a + 1))%Q -> Qfloor x = a.
Proof.
  intros Hlo Hhi.
  pose proof (Qfloor_resp_le _ _ Hlo) as H1. rewrite Qfloor_Z in H1.
  pose proof (Qfloor_le x) as H2.
  assert (inject_Z (Qfloor x) < inject_Z (a + 1))%Q as H3 by lra.
  rewrite <- Zlt_Qlt in H3. lia.
Qed.

(** On the sample doubles the product with 10 is the one of the Standard
    Library's specification of binary64 multiplication. *)
Lemma b64_mul_matches_SpecFloat : forallb times_ten_agrees sample_doubles = true.
Proof. vm_compute. reflexivity. Qed.

(** On the sample quotients [round64] is the correctly rounded quotient of
    the Standard Library's specification of binary64 division. *)
Lemma round64_matches_SpecFloat : forallb quotient_agrees sample_quotients = true.
Proof. vm_compute. reflexivity. Qed.

(** The product is rounded before it is truncated: the doubles 0.3 and
    0.8999999999999999, ten times which is less than 3 and less than 9,
    are filed under bins 3 and 9. *)
Lemma confidence_bin_rounded_product :
  ((5404319552844595 # 18014398509481984) * 10 < 3)%Q
  /\ confidence_bin (5404319552844595 # 18014398509481984) = Some 3
  /\ ((8106479329266892 # 9007199254740992) * 10 < 9)%Q
  /\ confidence_bin (8106479329266892 # 9007199254740992) = Some 9.
Proof. repeat split; vm_compute; reflexivity. Qed.

(** The clamped score times ten, for a score of [[0, 1]], is a double of
    [[0, 10)]. *)
Lemma score_times_ten_unit s :
  (0 <= s <= 1)%Q ->
  exists p, score_times_ten s = B64 p /\ (0 <= p < 10)%Q.
Proof.
  intros Hs. destruct (round64_unit s Hs) as (d & Hd & Hd0 & Hd1).
  unfold score_times_ten. rewrite Hd. cbn [b64_eqb].
  destruct (Qeq_bool d 1) eqn:E.
  - eexists. split; [vm_compute; reflexivity|].
    split; [apply Qle_bool_iff | apply Qlt_alt]; reflexivity.
  - destruct Hd1 as [H1|H1]; [apply Qeq_bool_iff in H1; congruence|].
    cbn [b64_mul]. by apply round64_times_ten.
Qed.

Lemma confidence_bin_range s :
  (0 <= s <= 1)%Q -> exists k, confidence_bin s = Some k /\ 0 <= k <= 9.
Proof.
  intros Hs. destruct (score_times_ten_unit s Hs) as (p & Hp & Hrange).
  exists (Qfloor p). unfold confidence_bin. rewrite Hp.
  split; [reflexivity | by apply Qfloor_digit].
Qed.

Lemma confidence_bin_one : confidence_bin 1 = Some 9.
Proof. vm_compute. reflexivity. Qed.

Lemma round64_nine_tenths :
  round64 (9 # 10) = B64 (8106479329266893 # 9007199254740992).
Proof. vm_compute. reflexivity. Qed.

Lemma round_mag_9 : (round_mag 9 == 9)%Q.
Proof. vm_compute. reflexivity. Qed.

Lemma confidence_bin_top s :
  (9 # 10 <= s <= 1)%Q -> confidence_bin s = Some 9.
Proof.
  intros [H9 H1].
  destruct (round64_unit s) as (d & Hd & Hd0 & Hd1); [lra|].
  destruct (round64_mono (9 # 10) s d) as (d9 & Hd9 & _ & Hle);
    [reflexivity | exact H9 | exact Hd |].
  rewrite round64_nine_tenths in Hd9. injection Hd9 as <-.
  unfold confidence_bin, score_times_ten. rewrite Hd. cbn [b64_eqb].
  destruct (Qeq_bool d 1) eqn:E; [vm_compute; reflexivity|].
  destruct Hd1 as [Hd1|Hd1]; [apply Qeq_bool_iff in Hd1; congruence|].
  cbn [b64_mul].
  destruct (round64_times_ten d) as (p & Hp & Hp0 & Hp10); [by split|].
  rewrite Hp. f_equal.
  destruct (round64_mono 9 (d * 10) p) as (p9 & Hp9 & _ & Hle9);
    [reflexivity | lra | exact Hp |].
  apply round64_pos_inv in Hp9 as [-> _]; [|reflexivity].
  rewrite round_mag_9 in Hle9.
  apply Qfloor_between.
  - exact Hle9.
  - exact Hp10.
Qed.

Lemma normalize_index_in_range (n : nat) (i : Z) :
  0 <= i < Z.of_nat n -> normalize_index n i = Ok (Z.to_nat i).
Proof.
  intros Hi. unfold normalize_index.
  destruct (Z.leb_spec 0 i); [|lia]. destruct (Z.ltb_spec i (Z.of_nat n)); [|lia].
  reflexivity.
Qed.

Lemma assign_to_bin_index pred label candidates best pred_bins label_bins
    counts :
  pred !! 0%nat = Some candidates -> candidates !! 0%nat = Some best ->
  assign_to_bin (pred_bins, label_bins, counts) (pred, label)
  = (i ← b64_int (score_times_ten (score best));
     pred_bins ← update_bin pred_bins i (fun bin => bin ++ [pred]);
     i ← b64_int (score_times_ten (score best));
     label_bins ← update_bin label_bins i (fun bin => bin ++ [label]);
     i ← b64_int (score_times_ten (score best));
     count_per_bin ← update_bin counts i S;
     Ok (pred_bins, label_bins, count_per_bin)).
Proof.
  intros Hp Hc. unfold assign_to_bin.
  rewrite (subscript_Some _ _ _ Hp). cbn [mbind result_bind].
  rewrite (subscript_Some _ _ _ Hc). reflexivity.
Qed.

(** One step of the binning loop on a document whose best score lies in
    [[0, 1]]: the document goes to the bin of the specification. *)
Lemma assign_to_bin_ok pred label candidates best pred_bins label_bins counts :
  pred !! 0%nat = Some candidates -> candidates !! 0%nat = Some best ->
  (0 <= score best <= 1)%Q ->
  length pred_bins = 10%nat -> length label_bins = 10%nat ->
  length counts = 10%nat ->
  exists k,
    confidence_bin (score best) = Some (Z.of_nat k)
    /\ (k < 10)%nat
    /\ assign_to_bin (pred_bins, label_bins, counts) (pred, label)
       = Ok (alter (fun bin => bin ++ [pred]) k pred_bins,
             alter (fun bin => bin ++ [label]) k label_bins,
             alter S k counts).
Proof.
  intros Hp Hc Hs Hpb Hlb Hcnt.
  destruct (score_times_ten_unit _ Hs) as (p & Hprod & Hrange).
  pose proof (Qfloor_digit p Hrange) as Hdigit.
  exists (Z.to_nat (Qfloor p)). split; [|split].
  - unfold confidence_bin. rewrite Hprod. f_equal. lia.
  - lia.
  - rewrite (assign_to_bin_index _ _ _ _ _ _ _ Hp Hc), Hprod.
    cbn [b64_int]. rewrite (py_int_nonneg p) by tauto.
    unfold update_bin. rewrite Hpb, Hlb, Hcnt.
    cbn [mbind result_bind].
    rewrite normalize_index_in_range by lia. reflexivity.
Qed.

Lemma best_score_Some pred s :
  best_score pred = Some s <->
  exists candidates best,
    pred !! 0%nat = Some candidates /\ candidates !! 0%nat = Some best
    /\ score best = s.
Proof.
  unfold best_score. split.
  - intros H. destruct (pred !! 0%nat) as [candidates|]; [|discriminate].
    cbn in H. destruct (candidates !! 0%nat) as [best|] eqn:Hc; [|discriminate].
    cbn in H. injection H as <-. by exists candidates, best.
  - intros (candidates & best & -> & Hc & <-). cbn. by rewrite Hc.
Qed.

Lemma foldM_total {S A} (body : S -> A -> result S) xs : forall s,
  (forall s x, x ∈ xs -> exists s', body s x = Ok s') ->
  exists s', foldM body s xs = Ok s'.
Proof.
  induction xs as [|x xs IH]; intros s Hbody; [by eexists|].
  destruct (Hbody s x) as [s1 H1]; [apply list_elem_of_here|].
  cbn. rewrite H1. cbn. apply IH.
  intros s0 y Hy. apply Hbody. by apply list_elem_of_further.
Qed.

Lemma ratio_or_zero_total a b : exists v, ratio_or_zero a b = Ok v.
Proof.
  unfold ratio_or_zero. destruct (Nat.eqb_spec b 0); [by eexists|].
  rewrite truediv_ok; [by eexists|].
  assert (0 < inject_Z (Z.of_nat b))%Q by (apply inject_Z_pos; lia). lra.
Qed.

Lemma squad_EM_start_total preds labels :
  length preds = length labels ->
  Forall (fun pred => is_Some (best_score pred)) preds ->
  exists v, squad_EM_start preds labels = Ok v.
Proof.
  intros Hlen Hbest. unfold squad_EM_start.
  match goal with
  | |- context [foldM ?body ?s ?xs] =>
      destruct (foldM_total body xs s) as [n Hn]
  end.
  - intros s i Hi. apply elem_of_seq in Hi.
    destruct (lookup_lt_is_Some_2 preds i) as [p Hp]; [lia|].
    destruct (lookup_lt_is_Some_2 labels i) as [l Hl]; [lia|].
    rewrite Forall_forall in Hbest.
    destruct (Hbest p) as [sc Hsc]; [by eapply list_elem_of_lookup_2|].
    apply best_score_Some in Hsc as (candidates & best & Hc & Hb & _).
    unfold best_candidate.
    rewrite (subscript_Some _ _ _ Hp). cbn.
    rewrite (subscript_Some _ _ _ Hc). cbn.
    rewrite (subscript_Some _ _ _ Hb). cbn.
    rewrite (subscript_Some _ _ _ Hl). cbn.
    case_bool_decide; by eexists.
  - rewrite Hn. cbn. apply ratio_or_zero_total.
Qed.

Lemma confidence_total preds :
  Forall (fun pred => is_Some (best_score pred)) preds ->
  exists v, confidence preds = Ok v.
Proof.
  intros Hbest. unfold confidence.
  match goal with
  | |- context [foldM ?body ?s ?xs] =>
      destruct (foldM_total body xs s) as [conf Hconf]
  end.
  - intros s p Hp. rewrite Forall_forall in Hbest.
    destruct (Hbest p Hp) as [sc Hsc].
    apply best_score_Some in Hsc as (candidates & best & Hc & Hb & _).
    rewrite (subscript_Some _ _ _ Hc). cbn.
    rewrite (subscript_Some _ _ _ Hb). cbn. by eexists.
  - rewrite Hconf. cbn. destruct (Nat.eqb_spec (length preds) 0); [by eexists|].
    rewrite truediv_ok; [by eexists|]. unfold len.
    assert (0 < inject_Z (Z.of_nat (length preds)))%Q
      by (apply inject_Z_pos; lia). lra.
Qed.

Lemma sum_list_alter_S (counts : list nat) k :
  (k < length counts)%nat ->
  sum_list (alter S k counts) = S (sum_list counts).
Proof.
  revert k. induction counts as [|c counts IH]; intros k Hk; [cbn in Hk; lia|].
  destruct k as [|k]; [reflexivity|].
  cbn in *. rewrite IH by lia. lia.
Qed.

Lemma bin_population_cons k pred preds :
  bin_population k (pred :: preds)
  = ((if decide (doc_bin pred = Some (Z.of_nat k)) then 1 else 0)
     + bin_population k preds)%nat.
Proof.
  unfold bin_population. rewrite filter_cons. by case_decide.
Qed.

(** The binning loop on a batch whose best scores lie in [[0, 1]]: it never
    raises, keeps ten aligned bins, and adds to each counter the number of
    documents of the batch that belong to that bin. *)
Lemma binning_loop preds : forall labels pred_bins label_bins counts,
  length preds = length labels ->
  Forall score_in_unit preds ->
  length pred_bins = 10%nat -> length label_bins = 10%nat ->
  length counts = 10%nat ->
  bins_aligned pred_bins label_bins ->
  exists pred_bins' label_bins' counts',
    foldM assign_to_bin (pred_bins, label_bins, counts) (zip preds labels)
      = Ok (pred_bins', label_bins', counts')
    /\ length pred_bins' = 10%nat /\ length label_bins' = 10%nat
    /\ length counts' = 10%nat
    /\ bins_aligned pred_bins' label_bins'
    /\ sum_list counts' = (sum_list counts + length preds)%nat
    /\ forall k,
         counts' !! k
         = (fun c => (c + bin_population k preds)%nat) <$> counts !! k.
Proof.
  induction preds as [|pred preds IH];
    intros labels pred_bins label_bins counts Hlen Hunit Hpb Hlb Hcnt Hal.
  - exists pred_bins, label_bins, counts. cbn.
    repeat split; try assumption; [lia|].
    intros k. destruct (counts !! k); cbn; [f_equal; lia | reflexivity].
  - destruct labels as [|label labels]; [discriminate|].
    apply Forall_cons in Hunit as [(s & Hs & Hrange) Hunit].
    pose proof Hs as Hs'.
    apply best_score_Some in Hs' as (candidates & best & Hp & Hc & <-).
    destruct (assign_to_bin_ok pred label candidates best
                pred_bins label_bins counts Hp Hc Hrange Hpb Hlb Hcnt)
      as (k & Hbin & Hk & Hstep).
    cbn [zip zip_with foldM]. rewrite Hstep.
    destruct (IH labels (alter (fun bin => bin ++ [pred]) k pred_bins)
                (alter (fun bin => bin ++ [label]) k label_bins)
                (alter S k counts))
      as (pb' & lb' & cnt' & Hfold & Hpb' & Hlb' & Hcnt' & Hal' & Hsum & Hcount).
    + cbn in Hlen. lia.
    + exact Hunit.
    + by rewrite length_alter.
    + by rewrite length_alter.
    + by rewrite length_alter.
    + apply Forall2_alter; [exact Hal|].
      intros pred_bin label_bin _ _ [Hl Hb]. split.
      * rewrite !length_app. cbn. lia.
      * apply Forall_app. split; [exact Hb|].
        apply Forall_singleton. by eexists.
    + exists pb', lb', cnt'. split; [exact Hfold|].
      repeat split; try assumption.
      * rewrite Hsum, sum_list_alter_S by lia. cbn [length]. lia.
      * intros j. rewrite Hcount, list_lookup_alter, bin_population_cons.
        assert (doc_bin pred = Some (Z.of_nat k)) as Hdb
          by (unfold doc_bin; by rewrite Hs).
        destruct (decide (k = j)) as [<-|Hne].
        -- rewrite decide_True by exact Hdb.
           destruct (counts !! k); cbn; [f_equal; lia | reflexivity].
        -- rewrite decide_False.
           ++ destruct (counts !! j); cbn; [f_equal; lia | reflexivity].
           ++ rewrite Hdb. intros [= Heq]. apply Hne. lia.
Qed.

(** C6. For an aligned batch whose best-candidate scores lie in [[0, 1]],
    [metrics_per_bin] returns ten counters that sum to the number of
    documents; counter [k] is the number of documents whose bin
    [floor(score * 10)], the product being the one of the doubles and a
    score of exactly 1.0 being moved to 0.9999 first, is [k]; a score of
    exactly 1.0 falls into bin 9, and so does every score of [[0.9, 1]];
    every score of [[0, 1]] has one of the bins 0 to 9. *)
Theorem metrics_per_bin_counts preds labels :
  length preds = length labels ->
  Forall score_in_unit preds ->
  exists em_bins conf_bins counts,
    metrics_per_bin preds labels = Ok (em_bins, conf_bins, counts)
    /\ length counts = 10%nat
    /\ sum_list counts = length preds
    /\ (forall k, (k < 10)%nat ->
          counts !! k = Some (bin_population k preds))
    /\ confidence_bin 1 = Some 9
    /\ (forall s, (9 # 10 <= s <= 1)%Q -> confidence_bin s = Some 9)
    /\ (forall s, (0 <= s <= 1)%Q ->
          exists k, confidence_bin s = Some k /\ 0 <= k <= 9).
Proof.
  intros Hlen Hunit. unfold metrics_per_bin.
  destruct (binning_loop preds labels (replicate 10 []) (replicate 10 [])
              (replicate 10 0%nat))
    as (pb & lb & cnt & Hfold & Hpb & Hlb & Hcnt & Hal & Hsum & Hcount);
    try done.
  { apply Forall2_replicate. split; [reflexivity | constructor]. }
  rewrite Hfold. cbn -[replicate seq].
  destruct (foldM_total (calibrate_bin pb lb) (seq 1 9)
              (replicate 10 0%Q, replicate 10 0%Q)) as [[em conf] Hcal].
  { intros [em conf] i Hi. apply elem_of_seq in Hi.
    destruct (lookup_lt_is_Some_2 pb i) as [pred_bin Hpi]; [lia|].
    destruct (Forall2_lookup_l _ _ _ _ _ Hal Hpi)
      as (label_bin & Hli & Hlen_i & Hbest).
    unfold calibrate_bin.
    rewrite (subscript_Some _ _ _ Hpi), (subscript_Some _ _ _ Hli). cbn.
    destruct (squad_EM_start_total pred_bin label_bin Hlen_i Hbest)
      as [v ->].
    destruct (confidence_total pred_bin Hbest) as [c ->].
    cbn. by eexists. }
  rewrite Hcal. cbn -[replicate].
  exists em, conf, cnt. split; [reflexivity|].
  split; [exact Hcnt|]. split; [by rewrite Hsum|].
  split; [|split; [|split]].
  - intros k Hk. rewrite Hcount, lookup_replicate_2 by lia. reflexivity.
  - exact confidence_bin_one.
  - exact confidence_bin_top.
  - exact confidence_bin_range.
Qed.

Lemma metrics_per_bin_counts_witness :
  exists em_bins conf_bins counts,
    metrics_per_bin [[[cand 1 3 1]]; [[cand 0 0 (3 # 10)]];
                     [[cand 2 5 (95 # 100); cand 7 9 (1 # 100)]];
                     [[cand 4 4 (8106479329266892 # 9007199254740992)]]]
                    [[(1, 3)]; [(0, 0)]; [(6, 8)]; [(4, 4)]]
      = Ok (em_bins, conf_bins, counts)
    /\ length counts = 10%nat
    /\ sum_list counts = 4%nat
    /\ counts !! 3%nat = Some 1%nat
    /\ counts !! 9%nat = Some 3%nat.
Proof.
  destruct (metrics_per_bin_counts
              [[[cand 1 3 1]]; [[cand 0 0 (3 # 10)]];
               [[cand 2 5 (95 # 100); cand 7 9 (1 # 100)]];
               [[cand 4 4 (8106479329266892 # 9007199254740992)]]]
              [[(1, 3)]; [(0, 0)]; [(6, 8)]; [(4, 4)]])
    as (em & conf & counts & Hrun & Hlen & Hsum & Hcount & _).
  - reflexivity.
  - repeat constructor.
    + exists 1%Q. split; [reflexivity | lra].
    + exists (3 # 10)%Q. split; [reflexivity | lra].
    + exists (95 # 100)%Q. split; [reflexivity | lra].
    + exists (8106479329266892 # 9007199254740992)%Q.
      split; [reflexivity | lra].
  - exists em, conf, counts. split; [exact Hrun|].
    split; [exact Hlen|]. split; [exact Hsum|].
    split; [rewrite (Hcount 3%nat) by lia | rewrite (Hcount 9%nat) by lia];
      vm_compute; reflexivity.
Defined.

(** ** Rank of the gold passage *)

Lemma nonzero_from_none (mask : list bool) : forall k,
  (forall j, mask !! j <> Some true) ->
  omap (fun '(k, b) => if b : bool then Some k else None)
       (zip (seq k (length mask)) mask) = [].
Proof.
  induction mask as [|b mask IH]; intros k Hnone; [reflexivity|].
  cbn. destruct b; [by destruct (Hnone 0%nat)|].
  apply IH. intros j. apply (Hnone (S j)).
Qed.

Lemma nonzero_from_unique (mask : list bool) : forall k g,
  mask !! g = Some true ->
  (forall j, mask !! j = Some true -> j = g) ->
  omap (fun '(k, b) => if b : bool then Some k else None)
       (zip (seq k (length mask)) mask) = [(k + g)%nat].
Proof.
  induction mask as [|b mask IH]; intros k g Hg Huniq; [discriminate|].
  cbn. destruct g as [|g].
  - cbn in Hg. injection Hg as ->. rewrite Nat.add_0_r. f_equal.
    apply nonzero_from_none. intros j Hj.
    by specialize (Huniq (S j) Hj).
  - destruct b; [by specialize (Huniq 0%nat eq_refl)|].
    rewrite (IH (S k) g).
    + f_equal. lia.
    + exact Hg.
    + intros j Hj. specialize (Huniq (S j) Hj). lia.
Qed.

Lemma nonzero_unique (mask : list bool) g :
  mask !! g = Some true ->
  (forall j, mask !! j = Some true -> j = g) ->
  nonzero mask = [g].
Proof. intros Hg Huniq. unfold nonzero. by rewrite (nonzero_from_unique mask 0 g). Qed.

Lemma nonzero_eq_unique (xs : list Z) (v : Z) g :
  xs !! g = Some v ->
  (forall j, xs !! j = Some v -> j = g) ->
  nonzero (map (fun x => x =? v) xs) = [g].
Proof.
  intros Hg Huniq. apply nonzero_unique.
  - change (map (fun x => x =? v) xs) with ((fun x => x =? v) <$> xs).
    rewrite list_lookup_fmap, Hg. cbn. by rewrite Z.eqb_refl.
  - intros j Hj.
    change (map (fun x => x =? v) xs) with ((fun x => x =? v) <$> xs) in Hj.
    rewrite list_lookup_fmap in Hj.
    destruct (xs !! j) as [x|] eqn:Hx; [|discriminate].
    cbn in Hj. injection Hj as Hj. apply Z.eqb_eq in Hj as ->. by apply Huniq.
Qed.

Lemma positive_idx_per_question_gold labels gs : forall acc,
  Forall2 gold_at labels gs ->
  fold_left (fun x y => x ++ nonzero (map (fun v => v =? 1) y)) labels acc
  = acc ++ gs.
Proof.
  intros acc Hgold. revert acc.
  induction Hgold as [|label g labels gs [Hg Huniq] _ IH]; intros acc.
  - by rewrite app_nil_r.
  - cbn. rewrite (nonzero_eq_unique label 1 g Hg Huniq), IH.
    by rewrite <- app_assoc.
Qed.

Lemma gold_rank_split preds labels rs :
  Forall3 gold_rank preds labels rs ->
  exists gs, Forall2 gold_at labels gs
             /\ Forall3 ranked_at preds gs rs.
Proof.
  induction 1 as [|ranking label r preds labels rs (g & Hg & Hr) _ (gs & Hgs & Hrs)].
  - exists []. split; constructor.
  - exists (g :: gs). split; by constructor.
Qed.

Lemma accumulate_rank_ok (all : list (list Z)) rank i ranking g r :
  all !! i = Some ranking -> ranked_at ranking g r ->
  accumulate_rank all rank (i, g) = Ok (rank + r)%nat.
Proof.
  intros Hi [Hr Huniq]. unfold accumulate_rank.
  rewrite (subscript_Some _ _ _ Hi). cbn.
  by rewrite (nonzero_eq_unique ranking (Z.of_nat g) r Hr Huniq).
Qed.

(** The accumulation loop over [enumerate(positive_idx_per_question)]. *)
Lemma rank_loop (all : list (list Z)) preds gs rs :
  Forall3 ranked_at preds gs rs ->
  forall (k rank : nat),
  (forall i, all !! (k + i)%nat = preds !! i) ->
  foldM (accumulate_rank all) rank (zip (seq k (length gs)) gs)
  = Ok (rank + sum_list rs)%nat.
Proof.
  induction 1 as [|ranking g r preds gs rs Hr _ IH];
    intros k rank Hall.
  - cbn. f_equal. lia.
  - cbn [length seq zip zip_with foldM].
    pose proof (Hall 0%nat) as H0. rewrite Nat.add_0_r in H0. cbn in H0.
    rewrite (accumulate_rank_ok all rank k ranking g r H0 Hr). cbn.
    transitivity (Ok (A:=nat) (rank + r + sum_list rs)%nat);
      [|f_equal; cbn; lia].
    apply (IH (S k) (rank + r)%nat).
    intros i. replace (S k + i)%nat with (k + S i)%nat by lia.
    exact (Hall (S i)).
Qed.

(** C8. On a non-empty batch in which every query has exactly one
    gold-positive passage and that passage occurs in the query's ranking,
    at position [r] (0-based), [text_similarity_avg_ranks] returns the mean
    of these positions; it is 0 when every gold passage is ranked first. *)
Theorem text_similarity_avg_ranks_mean preds labels rs :
  preds <> [] ->
  Forall3 gold_rank preds labels rs ->
  text_similarity_avg_ranks preds labels
  = Ok (inject_Z (Z.of_nat (sum_list rs)) / len rs)%Q
  /\ (Forall (fun r => r = 0%nat) rs ->
      exists v, text_similarity_avg_ranks preds labels = Ok v /\ (v == 0)%Q).
Proof.
  intros Hne Hgold.
  assert (text_similarity_avg_ranks preds labels
          = Ok (inject_Z (Z.of_nat (sum_list rs)) / len rs)%Q) as Heq.
  { destruct (gold_rank_split _ _ _ Hgold) as (gs & Hgs & Hrs).
    unfold text_similarity_avg_ranks, enumerate.
    rewrite (positive_idx_per_question_gold labels gs []) by exact Hgs.
    rewrite app_nil_l.
    rewrite (rank_loop preds preds gs rs Hrs 0%nat 0%nat) by reflexivity.
    cbn [mbind result_bind Nat.add].
    pose proof (Forall3_length_lr _ _ _ _ Hrs) as Hlen.
    assert (0 < length preds)%nat by (destruct preds; [done | cbn; lia]).
    unfold len. rewrite <- Hlen.
    apply truediv_ok.
    assert (0 < inject_Z (Z.of_nat (length preds)))%Q
      by (apply inject_Z_pos; lia). lra. }
  split; [exact Heq|].
  intros Hfirst. eexists. split; [exact Heq|].
  assert (sum_list rs = 0%nat) as ->.
  { clear -Hfirst. induction Hfirst as [|r rs -> _ IH]; [reflexivity | exact IH]. }
  unfold Qdiv. change (inject_Z (Z.of_nat 0)) with 0%Q. ring.
Qed.

Lemma text_similarity_avg_ranks_mean_witness :
  text_similarity_avg_ranks [[2; 0; 1]; [1; 0; 2]] [[0; 1; 0]; [0; 1; 0]]
  = Ok (inject_Z (Z.of_nat (sum_list [2; 0]%nat)) / len [2; 0]%nat)%Q.
Proof.
  apply (text_similarity_avg_ranks_mean
           [[2; 0; 1]; [1; 0; 2]] [[0; 1; 0]; [0; 1; 0]] [2; 0]%nat);
    [discriminate|].
  repeat constructor.
  - exists 1%nat. repeat split.
    + intros [|[|[|j]]] Hj; done.
    + intros [|[|[|j]]] Hj; done.
  - exists 1%nat. repeat split.
    + intros [|[|[|j]]] Hj; done.
    + intros [|[|[|j]]] Hj; done.
Defined.

(** Outside these hypotheses the function raises: on the empty batch it
    divides by [len(preds) = 0], and a gold passage that is missing from
    the ranking has no [item]. *)
Example text_similarity_avg_ranks_empty_batch :
  text_similarity_avg_ranks [] [] = Raise ZeroDivisionError.
Proof. reflexivity. Qed.

Example text_similarity_avg_ranks_gold_missing :
  text_similarity_avg_ranks [[2; 0]] [[0; 1; 0]] = Raise ValueError.
Proof. reflexivity. Qed.

(** * Properties of the remaining code *)

(** ** Registration and dispatch *)

Lemma compute_metrics_lookup ext registered registered' metric preds labels :
  registered !! metric = registered' !! metric ->
  compute_metrics ext registered metric preds labels
  = compute_metrics ext registered' metric preds labels.
Proof. intros H. unfold compute_metrics. by rewrite H. Qed.

Lemma compute_report_metrics_lookup ext reports reports' head preds labels :
  reports !! ph_output_type head = reports' !! ph_output_type head ->
  compute_report_metrics ext reports head preds labels
  = compute_report_metrics ext reports' head preds labels.
Proof. intros H. unfold compute_report_metrics. by rewrite H. Qed.

(** X1. Registering a metric twice under one name keeps the last function
    only: under a name that is not a built-in metric, aligned batches are
    scored by the function registered last, whatever was registered under
    that name before; and a registration under one name leaves the
    dispatch of every other name as it was. *)
Theorem register_metrics_dispatch ext registered name f g metric preds labels :
  compute_metrics ext
    (register_metrics name f (register_metrics name g registered))
    metric preds labels
  = compute_metrics ext (register_metrics name f registered)
      metric preds labels
  /\ (forall n, metric = name -> name ∉ builtin_metrics ->
      py_len preds = Ok n -> py_len labels = Ok n ->
      compute_metrics ext
        (register_metrics name f (register_metrics name g registered))
        metric preds labels
      = f preds labels)
  /\ (metric <> name ->
      compute_metrics ext (register_metrics name f registered)
        metric preds labels
      = compute_metrics ext registered metric preds labels).
Proof.
  unfold register_metrics. split; [|split].
  - by rewrite insert_insert_eq.
  - intros n -> Hnb Hp Hl.
    rewrite (compute_metrics_not_builtin _ _ _ _ _ n) by done.
    by rewrite lookup_insert_eq.
  - intros Hne. apply compute_metrics_lookup. by rewrite lookup_insert_ne.
Qed.

(** X2. The same for reports: the last function registered for an output
    type is the one that is called for a head of that type, whatever was
    registered for it before, and heads of another output type are
    reported as before. *)
Theorem register_report_dispatch ext reports name f g head preds labels :
  compute_report_metrics ext
    (register_report name f (register_report name g reports))
    head preds labels
  = compute_report_metrics ext (register_report name f reports)
      head preds labels
  /\ (ph_output_type head = name -> name <> "per_sequence" ->
      compute_report_metrics ext
        (register_report name f (register_report name g reports))
        head preds labels
      = f labels preds None)
  /\ (ph_output_type head <> name ->
      compute_report_metrics ext (register_report name f reports)
        head preds labels
      = compute_report_metrics ext reports head preds labels).
Proof.
  unfold register_report. split; [|split].
  - by rewrite insert_insert_eq.
  - intros Hty Hne. unfold compute_report_metrics.
    rewrite Hty, lookup_insert_eq. cbn [mbind result_bind].
    apply String.eqb_neq in Hne. by rewrite Hne.
  - intros Hne. apply compute_report_metrics_lookup.
    by rewrite lookup_insert_ne.
Qed.

(** X3. When no report is registered for the head's output type:
    an output type outside the four built-in ones raises [AttributeError]
    naming the type, and ["per_token_squad"] yields the string
    ["Not Implemented"] whatever the predictions and labels are. *)
Theorem compute_report_metrics_unregistered ext reports head preds labels :
  reports !! ph_output_type head = None ->
  (ph_output_type head ∉ builtin_report_types ->
   compute_report_metrics ext reports head preds labels
   = Raise (AttributeError (ph_output_type head)))
  /\ (ph_output_type head = "per_token_squad" ->
      compute_report_metrics ext reports head preds labels
      = Ok (PyStr "Not Implemented")).
Proof.
  intros Hnone. unfold compute_report_metrics. rewrite Hnone. split.
  - intros Hnb. unfold builtin_report_types in Hnb.
    repeat (apply not_elem_of_cons in Hnb as [Hne Hnb];
            apply String.eqb_neq in Hne; rewrite Hne; clear Hne).
    reflexivity.
  - intros ->. reflexivity.
Qed.

Lemma compute_report_metrics_unregistered_witness :
  compute_report_metrics no_externals ∅
    {| ph_output_type := "per_document"; model_type := "ner";
       label_list := [] |} one_doc_preds one_doc_labels
  = Raise (AttributeError "per_document")
  /\ compute_report_metrics no_externals ∅
       {| ph_output_type := "per_token_squad";
          model_type := "span_classification"; label_list := [] |}
       one_doc_preds one_doc_labels
     = Ok (PyStr "Not Implemented").
Proof.
  split.
  - apply (compute_report_metrics_unregistered no_externals ∅
             {| ph_output_type := "per_document"; model_type := "ner";
                label_list := [] |}); [reflexivity|].
    unfold builtin_report_types. cbn. intros H.
    repeat (apply elem_of_cons in H as [H|H]; [discriminate H|]).
    by apply elem_of_nil in H.
  - apply (compute_report_metrics_unregistered no_externals ∅
             {| ph_output_type := "per_token_squad";
                model_type := "span_classification"; label_list := [] |});
      reflexivity.
Defined.

(** A successful bind had a successful first part. *)
Lemma bind_Ok {A B} (m : result A) (k : A -> result B) (b : B) :
  m ≫= k = Ok b -> exists a, m = Ok a /\ k a = Ok b.
Proof. destruct m as [a|e]; [by exists a | discriminate]. Qed.

Ltac bind_inv H :=
  repeat match type of H with
         | _ ≫= _ = Ok _ =>
             let a := fresh "a" in
             let Ha := fresh "Ha" in
             apply bind_Ok in H as (a & Ha & H)
         | Ok _ = Ok _ => injection H as H
         | Raise _ = Ok _ => discriminate H
         end.

Lemma simple_accuracy_mapping ext preds labels v :
  simple_accuracy ext preds labels = Ok v -> is_mapping v.
Proof.
  unfold simple_accuracy. intros H.
  destruct preds, labels; cbn in H; bind_inv H; subst; by eexists.
Qed.

Lemma acc_and_f1_mapping ext preds labels v :
  acc_and_f1 ext preds labels = Ok v -> is_mapping v.
Proof.
  unfold acc_and_f1. intros H. bind_inv H. subst. by eexists.
Qed.

(** X4. Every built-in metric that returns, returns a mapping from names
    to values, never a bare number, whatever the imported routines
    return. *)
Theorem builtin_metric_returns_mapping ext registered metric preds labels v :
  metric ∈ builtin_metrics ->
  compute_metrics ext registered metric preds labels = Ok v ->
  is_mapping v.
Proof.
  intros Hin H. unfold compute_metrics in H.
  apply bind_Ok in H as (n & _ & H). apply bind_Ok in H as (m & _ & H).
  destruct (negb (n =? m)%nat); [discriminate|].
  unfold builtin_metrics in Hin.
  repeat (apply elem_of_cons in Hin as [->|Hin];
          [cbn [String.eqb Ascii.eqb Bool.eqb] in H|]);
    try (by apply elem_of_nil in Hin).
  - bind_inv H. subst. by eexists.
  - by apply simple_accuracy_mapping in H.
  - by apply acc_and_f1_mapping in H.
  - unfold pearson_and_spearman in H. bind_inv H. subst. by eexists.
  - bind_inv H. subst. by eexists.
  - unfold f1_macro in H. bind_inv H. subst. by eexists.
  - unfold squad_py in H. bind_inv H. subst. by eexists.
  - bind_inv H. subst. by eexists.
  - bind_inv H. subst. by eexists.
  - bind_inv H. subst. by eexists.
  - unfold text_similarity_metric in H. bind_inv H.
    destruct a; try discriminate. injection H as <-. by eexists.
Qed.

Lemma builtin_metric_returns_mapping_witness :
  is_mapping (PyDict [("top_n_accuracy", PyFloat (Fin 1))]).
Proof.
  apply (builtin_metric_returns_mapping no_externals ∅ "top_n_accuracy"
           one_doc_preds one_doc_labels).
  - unfold builtin_metrics. do 9 apply list_elem_of_further.
    apply list_elem_of_here.
  - vm_compute. reflexivity.
Defined.

Lemma register_metrics_dispatch_witness :
  compute_metrics no_externals
    (register_metrics "custom" custom_metric
       (register_metrics "custom" stale_metric ∅)) "custom"
    one_doc_preds one_doc_labels
  = Ok (PyStr "custom")
  /\ compute_metrics no_externals
       (register_metrics "custom" custom_metric ∅) "other"
       one_doc_preds one_doc_labels
     = compute_metrics no_externals ∅ "other" one_doc_preds one_doc_labels.
Proof.
  split.
  - apply (register_metrics_dispatch no_externals ∅ "custom" custom_metric
             stale_metric "custom" one_doc_preds one_doc_labels)
      with (n := 1%nat);
      [reflexivity | exact custom_not_builtin | reflexivity | reflexivity].
  - apply (register_metrics_dispatch no_externals ∅ "custom" custom_metric
             stale_metric "other" one_doc_preds one_doc_labels).
    discriminate.
Defined.

Lemma register_report_dispatch_witness :
  compute_report_metrics no_externals
    (register_report "per_token" custom_report
       (register_report "per_token" stale_report ∅))
    {| ph_output_type := "per_token"; model_type := "ner";
       label_list := [] |} one_doc_preds one_doc_labels
  = Ok (PyStr "custom")
  /\ compute_report_metrics no_externals
       (register_report "per_token" custom_report ∅)
       {| ph_output_type := "per_token_squad"; model_type := "qa";
          label_list := [] |} one_doc_preds one_doc_labels
     = compute_report_metrics no_externals ∅
         {| ph_output_type := "per_token_squad"; model_type := "qa";
            label_list := [] |} one_doc_preds one_doc_labels.
Proof.
  split.
  - apply (register_report_dispatch no_externals ∅ "per_token" custom_report
             stale_report
             {| ph_output_type := "per_token"; model_type := "ner";
                label_list := [] |} one_doc_preds one_doc_labels);
      [reflexivity | discriminate].
  - apply (register_report_dispatch no_externals ∅ "per_token" custom_report
             stale_report
             {| ph_output_type := "per_token_squad"; model_type := "qa";
                label_list := [] |} one_doc_preds one_doc_labels).
    discriminate.
Defined.

(** ** Span metrics on arbitrary offsets *)

Lemma harmonic_mean_bounds (o a b : Q) :
  (0 < o)%Q -> (o <= a)%Q -> (o <= b)%Q ->
  (0 <= 2 * (o / a) * (o / b) / (o / a + o / b) <= 1)%Q.
Proof.
  intros Ho Hoa Hob.
  assert (0 < o / a)%Q as Hp by (apply Qdiv_pos; lra).
  assert (0 < o / b)%Q as Hq by (apply Qdiv_pos; lra).
  assert (o / a <= 1)%Q as Hp1 by (apply Qle_shift_div_r; lra).
  assert (o / b <= 1)%Q as Hq1 by (apply Qle_shift_div_r; lra).
  set (p := (o / a)%Q) in *. set (r := (o / b)%Q) in *.
  split.
  - apply Qle_shift_div_l; [lra|]. nra.
  - apply Qle_shift_div_r; [lra|]. nra.
Qed.

Lemma span_f1_bounds c label : (0 <= span_f1 c label <= 1)%Q.
Proof.
  destruct label as [ls le]. unfold span_f1.
  set (ps := offset_answer_start c). set (pe := offset_answer_end c).
  destruct ((ps + pe =? 0) || (ls + le =? 0)).
  { destruct (ps =? ls); lra. }
  destruct (Z.eqb_spec (span_overlap ps pe ls le) 0) as [|Hov]; [lra|].
  pose proof (span_overlap_le_size_l ps pe ls le).
  pose proof (span_overlap_le_size_r ps pe ls le).
  assert (0 < span_overlap ps pe ls le)
    by (unfold span_overlap in *; lia).
  cbv zeta. apply harmonic_mean_bounds.
  - by apply inject_Z_pos.
  - rewrite <- Zle_Qle. lia.
  - rewrite <- Zle_Qle. lia.
Qed.

(** X5. For any offsets, negative or reversed ones included,
    [squad_f1_single] returns a score in [[0, 1]] when the candidate
    position exists, and raises [IndexError] when it does not; its
    divisions never fail. *)
Theorem squad_f1_single_outcome pred label pred_idx :
  match pred !! pred_idx with
  | Some _ =>
      exists v, squad_f1_single pred label pred_idx = Ok v
                /\ (0 <= v <= 1)%Q
  | None => squad_f1_single pred label pred_idx = Raise IndexError
  end.
Proof.
  destruct (pred !! pred_idx) as [c|] eqn:Hc.
  - destruct label as [ls le]. exists (span_f1 c (ls, le)).
    split; [by apply squad_f1_single_eval | apply span_f1_bounds].
  - destruct label as [ls le]. unfold squad_f1_single, subscript.
    by rewrite Hc.
Qed.

(** ** Outcome of the document loops *)

Lemma best_of_Some pred c :
  best_of pred = Some c <->
  exists candidates,
    pred !! 0%nat = Some candidates /\ candidates !! 0%nat = Some c.
Proof.
  unfold best_of. split.
  - intros H. destruct (pred !! 0%nat) as [candidates|]; [|discriminate].
    by exists candidates.
  - by intros (candidates & -> & Hc).
Qed.

Lemma best_score_best_of pred : best_score pred = score <$> best_of pred.
Proof.
  unfold best_score, best_of.
  destruct (pred !! 0%nat) as [candidates|]; [|reflexivity]. cbn.
  by destruct (candidates !! 0%nat).
Qed.

Lemma foldM_app {S A} (body : S -> A -> result S) xs ys s :
  foldM body s (xs ++ ys) = (s' ← foldM body s xs; foldM body s' ys).
Proof.
  revert s. induction xs as [|x xs IH]; intros s; [reflexivity|].
  cbn. destruct (body s x); [apply IH | reflexivity].
Qed.

(** A loop that returns went through every iteration without raising. *)
Lemma foldM_Ok_inv {S A} (body : S -> A -> result S) xs : forall s s',
  foldM body s xs = Ok s' ->
  forall x, x ∈ xs -> exists s1 s2, body s1 x = Ok s2.
Proof.
  induction xs as [|y xs IH]; intros s s' H x Hx;
    [by apply elem_of_nil in Hx|].
  cbn in H. apply bind_Ok in H as (s1 & Hy & H).
  apply elem_of_cons in Hx as [->|Hx]; [by eauto | by eapply IH].
Qed.

(** A loop whose iterations raise only [e] raises only [e]. *)
Lemma foldM_Raise_inv {S A} (body : S -> A -> result S) (e : exn) xs :
  (forall s x e', body s x = Raise e' -> e' = e) ->
  forall s e', foldM body s xs = Raise e' -> e' = e.
Proof.
  intros Hbody. induction xs as [|y xs IH]; intros s e' H; [discriminate|].
  cbn in H. destruct (body s y) as [s1|e1] eqn:Hy.
  - by eapply IH.
  - cbn in H. injection H as <-. by eapply Hbody.
Qed.

Lemma subscript_Raise {A} (xs : list A) i e :
  subscript xs i = Raise e -> e = IndexError.
Proof. unfold subscript. destruct (xs !! i); [discriminate | congruence]. Qed.

Lemma subscript_Ok {A} (xs : list A) i x :
  subscript xs i = Ok x -> xs !! i = Some x.
Proof. unfold subscript. destruct (xs !! i); [congruence | discriminate]. Qed.

Lemma bind_Raise {A B} (m : result A) (k : A -> result B) (e : exn) :
  m ≫= k = Raise e -> m = Raise e \/ exists a, m = Ok a /\ k a = Raise e.
Proof.
  destruct m as [a|e']; intros H; [right; by exists a|].
  left. cbn in H. congruence.
Qed.

Lemma best_candidate_Ok preds doc_idx c :
  best_candidate preds doc_idx = Ok c <->
  exists pred, preds !! doc_idx = Some pred /\ best_of pred = Some c.
Proof.
  unfold best_candidate. split.
  - intros H. bind_inv H.
    apply subscript_Ok in Ha, Ha0, H.
    exists a. split; [done|]. apply best_of_Some. eauto.
  - intros (pred & Hp & Hb). apply best_of_Some in Hb as (cs & Hcs & Hc).
    rewrite (subscript_Some _ _ _ Hp). cbn.
    rewrite (subscript_Some _ _ _ Hcs). cbn.
    by rewrite (subscript_Some _ _ _ Hc).
Qed.

Lemma best_candidate_Raise preds doc_idx e :
  best_candidate preds doc_idx = Raise e -> e = IndexError.
Proof.
  unfold best_candidate. intros H.
  apply bind_Raise in H as [H|(a & _ & H)];
    [by apply subscript_Raise in H|].
  apply bind_Raise in H as [H|(b & _ & H)];
    by apply subscript_Raise in H.
Qed.

Lemma squad_EM_doc_best n_correct pred curr_labels :
  is_Some (best_of pred) ->
  squad_EM_doc n_correct pred curr_labels
  = Ok (if exact_match (pred, curr_labels) then (n_correct + 1)%nat
        else n_correct).
Proof.
  intros [c Hc]. unfold exact_match. cbn [fst snd]. rewrite Hc.
  apply best_of_Some in Hc as (cs & Hcs & Hc).
  by apply squad_EM_doc_ok with cs.
Qed.

Lemma squad_EM_fold (docs : list (DocPred * DocLabels)) : forall n_correct,
  Forall (fun doc => is_Some (best_of doc.1)) docs ->
  foldM (fun s '(p, l) => squad_EM_doc s p l) n_correct docs
  = Ok (n_correct + length (filter (fun doc => exact_match doc = true) docs))%nat.
Proof.
  induction docs as [|[p l] docs IH]; intros n_correct Hbest.
  - cbn. f_equal. lia.
  - apply Forall_cons in Hbest as [Hp Hbest]. cbn [foldM]. cbn [fst] in Hp.
    rewrite (squad_EM_doc_best n_correct p l Hp). cbn [mbind result_bind].
    rewrite filter_cons. destruct (exact_match (p, l)) eqn:E.
    + rewrite decide_True by done. rewrite IH by done. f_equal.
      cbn [length]. lia.
    + rewrite decide_False by done. by rewrite IH.
Qed.

Lemma ratio_or_zero_bounds a b :
  (a <= b)%nat ->
  exists v, ratio_or_zero a b = Ok v /\ (0 <= v <= 1)%Q.
Proof.
  intros Hab. unfold ratio_or_zero.
  destruct (Nat.eqb_spec b 0) as [|Hb]; [exists 0%Q; split; [done | lra]|].
  assert (0 < inject_Z (Z.of_nat b))%Q as Hpos by (apply inject_Z_pos; lia).
  rewrite truediv_ok by lra. eexists. split; [reflexivity|].
  assert (0 <= inject_Z (Z.of_nat a))%Q
    by (change 0%Q with (inject_Z 0); rewrite <- Zle_Qle; lia).
  assert (inject_Z (Z.of_nat a) <= inject_Z (Z.of_nat b))%Q
    by (rewrite <- Zle_Qle; lia).
  split.
  - apply Qle_shift_div_l; lra.
  - apply Qle_shift_div_r; lra.
Qed.

Lemma ratio_or_zero_full n :
  (0 < n)%nat -> exists v, ratio_or_zero n n = Ok v /\ (v == 1)%Q.
Proof.
  intros Hn. unfold ratio_or_zero.
  destruct (Nat.eqb_spec n 0) as [|_]; [lia|].
  assert (0 < inject_Z (Z.of_nat n))%Q as Hpos by (apply inject_Z_pos; lia).
  rewrite truediv_ok by lra. eexists. split; [reflexivity|]. field. lra.
Qed.

Lemma squad_EM_value preds labels :
  (length preds <= length labels)%nat -> all_have_best preds ->
  squad_EM preds labels
  = ratio_or_zero (exact_matches preds labels) (length preds).
Proof.
  intros Hlen Hbest. unfold squad_EM.
  rewrite (foldM_seq_zip squad_EM_doc _ preds labels 0%nat 0%nat Hlen).
  - rewrite squad_EM_fold; [reflexivity|].
    apply Forall_forall. intros [p l] Hin. cbn.
    apply elem_of_zip_l in Hin. unfold all_have_best in Hbest.
    rewrite Forall_forall in Hbest. by apply Hbest.
  - intros s i p l Hp Hl. change (0 + i)%nat with i.
    unfold best_candidate, squad_EM_doc.
    rewrite (subscript_Some _ _ _ Hp), (subscript_Some _ _ _ Hl). cbn.
    destruct (subscript p 0) as [candidates|]; [|reflexivity]. cbn.
    destruct (subscript candidates 0); reflexivity.
Qed.

Lemma squad_EM_Ok_inv preds labels v :
  squad_EM preds labels = Ok v ->
  (length preds <= length labels)%nat /\ all_have_best preds.
Proof.
  unfold squad_EM. intros H. apply bind_Ok in H as (n & Hfold & _).
  assert (forall i, (i < length preds)%nat ->
            (exists pred c, preds !! i = Some pred /\ best_of pred = Some c)
            /\ is_Some (labels !! i)) as Hall.
  { intros i Hi.
    destruct (foldM_Ok_inv _ _ _ _ Hfold i) as (s1 & s2 & Hbody).
    { apply elem_of_seq. lia. }
    apply bind_Ok in Hbody as (c & Hc & Hbody).
    apply bind_Ok in Hbody as (l & Hl & _).
    apply best_candidate_Ok in Hc as (pred & Hp & Hb).
    apply subscript_Ok in Hl. split; [by exists pred, c | by exists l]. }
  split.
  - destruct (length preds) as [|n'] eqn:E; [lia|].
    destruct (Hall n') as [_ Hl]; [lia|].
    apply lookup_lt_is_Some_1 in Hl. lia.
  - apply Forall_lookup. intros i pred Hp.
    destruct (Hall i) as [(pred' & c & Hp' & Hb) _];
      [by eapply lookup_lt_Some|].
    rewrite Hp in Hp'. injection Hp' as <-. by exists c.
Qed.

Lemma squad_EM_Raise_inv preds labels e :
  squad_EM preds labels = Raise e -> e = IndexError.
Proof.
  unfold squad_EM. intros H.
  apply bind_Raise in H as [H|(n & _ & H)].
  - eapply foldM_Raise_inv; [|exact H].
    intros s i e' Hbody.
    apply bind_Raise in Hbody as [Hb|(c & _ & Hbody)];
      [by apply best_candidate_Raise in Hb|].
    apply bind_Raise in Hbody as [Hb|(l & _ & Hbody)];
      [by apply subscript_Raise in Hb|].
    by case_bool_decide.
  - destruct (ratio_or_zero_total n (length preds)) as [v Hv]. congruence.
Qed.

(** X6. [squad_EM] on its own accepts any batch in which every document
    has a best candidate and at least as many label sets as documents are
    given: it returns the number of exact matches divided by the number of
    documents (0 for no document), a value in [[0, 1]] that is 1 when every
    document matches.  On every other input it raises [IndexError]. *)
Theorem squad_EM_outcome preds labels :
  ((length preds <= length labels)%nat -> all_have_best preds ->
   squad_EM preds labels
   = ratio_or_zero (exact_matches preds labels) (length preds)
   /\ (exists v, squad_EM preds labels = Ok v /\ (0 <= v <= 1)%Q)
   /\ (preds <> [] -> exact_matches preds labels = length preds ->
       exists v, squad_EM preds labels = Ok v /\ (v == 1)%Q))
  /\ (~ ((length preds <= length labels)%nat /\ all_have_best preds) ->
      squad_EM preds labels = Raise IndexError).
Proof.
  split.
  - intros Hlen Hbest. rewrite (squad_EM_value _ _ Hlen Hbest).
    split; [reflexivity|]. split.
    + apply ratio_or_zero_bounds. unfold exact_matches.
      etransitivity; [apply length_filter|]. rewrite length_zip. lia.
    + intros Hne ->. apply ratio_or_zero_full.
      destruct preds; [done | cbn; lia].
  - intros Hbad. destruct (squad_EM preds labels) as [v|e] eqn:E.
    + by apply squad_EM_Ok_inv in E.
    + by apply squad_EM_Raise_inv in E as ->.
Qed.

Lemma squad_EM_outcome_witness :
  (exists v, squad_EM [[[cand 1 3 (9 # 10)]]; [[cand 2 5 (1 # 2)]]]
                      [[(1, 3)]; [(8, 8)]; [(0, 0)]] = Ok v
             /\ (0 <= v <= 1)%Q)
  /\ squad_EM [[[cand 1 3 (9 # 10)]]; [[]]] [[(1, 3)]; [(8, 8)]]
     = Raise IndexError.
Proof.
  split.
  - apply (squad_EM_outcome [[[cand 1 3 (9 # 10)]]; [[cand 2 5 (1 # 2)]]]
             [[(1, 3)]; [(8, 8)]; [(0, 0)]]).
    + cbn. lia.
    + repeat constructor; by eexists.
  - apply (squad_EM_outcome [[[cand 1 3 (9 # 10)]]; [[]]]
             [[(1, 3)]; [(8, 8)]]).
    intros [_ Hbest]. apply Forall_cons in Hbest as [_ Hbest].
    apply Forall_cons in Hbest as [[c Hc] _]. discriminate Hc.
Defined.

Lemma len_cons {A} (x : A) xs : (len (x :: xs) == 1 + len xs)%Q.
Proof.
  unfold len. cbn [length]. rewrite Nat2Z.inj_succ, <- Z.add_1_l.
  by rewrite inject_Z_plus.
Qed.

Lemma fold_left_Qplus_bounds (xs : list Q) :
  Forall (fun x => 0 <= x <= 1)%Q xs ->
  forall a, (a <= fold_left Qplus xs a <= a + len xs)%Q.
Proof.
  induction 1 as [|x xs [Hx0 Hx1] _ IH]; intros a.
  - cbn [fold_left]. change (len []) with 0%Q. lra.
  - cbn [fold_left]. destruct (IH (a + x)%Q) as [Hlo Hhi].
    rewrite len_cons. lra.
Qed.

Lemma confidence_fold preds : forall conf,
  all_have_best preds ->
  foldM (fun (conf : Q) (pred : DocPred) =>
      candidates ← subscript pred 0;
      best ← subscript candidates 0;
      Ok (conf + score best)%Q) conf preds
  = Ok (fold_left Qplus (omap best_score preds) conf).
Proof.
  induction preds as [|pred preds IH]; intros conf Hbest; [reflexivity|].
  apply Forall_cons in Hbest as [[c Hc] Hbest].
  cbn [foldM omap list_omap]. rewrite best_score_best_of, Hc. cbn [fmap option_fmap option_map].
  apply best_of_Some in Hc as (cs & Hcs & Hc).
  rewrite (subscript_Some _ _ _ Hcs). cbn.
  rewrite (subscript_Some _ _ _ Hc). cbn.
  by apply IH.
Qed.

Lemma length_omap_best_score preds :
  all_have_best preds -> length (omap best_score preds) = length preds.
Proof.
  induction 1 as [|pred preds [c Hc] _ IH]; [reflexivity|].
  cbn. rewrite best_score_best_of, Hc. cbn. by rewrite IH.
Qed.

Lemma confidence_value preds :
  all_have_best preds ->
  confidence preds
  = Ok (if (length preds =? 0)%nat then 0%Q
        else (Qsum (omap best_score preds) / len preds)%Q).
Proof.
  intros Hbest. unfold confidence. rewrite (confidence_fold _ _ Hbest).
  cbn [mbind result_bind]. destruct (Nat.eqb_spec (length preds) 0); [done|].
  apply truediv_ok. unfold len.
  assert (0 < inject_Z (Z.of_nat (length preds)))%Q
    by (apply inject_Z_pos; lia). lra.
Qed.

(** X7. [confidence] returns the mean of the best candidates' scores, 0
    for an empty batch; the mean lies in [[0, 1]] when the scores do.  It
    raises [IndexError] exactly when some document has no candidate. *)
Theorem confidence_outcome preds :
  (all_have_best preds ->
   confidence preds
   = Ok (if (length preds =? 0)%nat then 0%Q
         else (Qsum (omap best_score preds) / len preds)%Q)
   /\ (Forall score_in_unit preds ->
       exists v, confidence preds = Ok v /\ (0 <= v <= 1)%Q))
  /\ (~ all_have_best preds -> confidence preds = Raise IndexError).
Proof.
  split.
  - intros Hbest. split; [by apply confidence_value|].
    intros Hunit. rewrite (confidence_value _ Hbest).
    eexists. split; [reflexivity|].
    destruct (Nat.eqb_spec (length preds) 0) as [|Hn]; [lra|].
    assert (Forall (fun x => 0 <= x <= 1)%Q (omap best_score preds)) as Hxs.
    { clear -Hunit. induction Hunit as [|pred preds (s & Hs & Hr) _ IH];
        [constructor|]. cbn. rewrite Hs. by constructor. }
    destruct (fold_left_Qplus_bounds _ Hxs 0%Q) as [Hlo Hhi].
    fold (Qsum (omap best_score preds)) in Hlo, Hhi.
    unfold len in *. rewrite (length_omap_best_score _ Hbest) in Hhi.
    assert (0 < inject_Z (Z.of_nat (length preds)))%Q
      by (apply inject_Z_pos; lia).
    split.
    + apply Qle_shift_div_l; lra.
    + apply Qle_shift_div_r; lra.
  - intros Hbad. unfold confidence.
    destruct (foldM _ 0%Q preds) as [conf|e] eqn:Hfold.
    + exfalso. apply Hbad. apply Forall_forall. intros pred Hin.
      destruct (foldM_Ok_inv _ _ _ _ Hfold pred Hin) as (s1 & s2 & Hbody).
      bind_inv Hbody. apply subscript_Ok in Ha, Ha0.
      exists a0. apply best_of_Some. eauto.
    + cbn. f_equal. eapply foldM_Raise_inv; [|exact Hfold].
      intros s pred e' Hbody.
      apply bind_Raise in Hbody as [Hb|(cs & _ & Hbody)];
        [by apply subscript_Raise in Hb|].
      apply bind_Raise in Hbody as [Hb|(c & _ & Hbody)];
        [by apply subscript_Raise in Hb | discriminate].
Qed.

Lemma confidence_outcome_witness :
  (exists v, confidence [[[cand 1 3 (9 # 10)]]; [[cand 2 5 (1 # 2)]]] = Ok v
             /\ (0 <= v <= 1)%Q)
  /\ confidence [[[cand 1 3 (9 # 10)]]; []] = Raise IndexError.
Proof.
  split.
  - apply (confidence_outcome [[[cand 1 3 (9 # 10)]]; [[cand 2 5 (1 # 2)]]]).
    + repeat constructor; by eexists.
    + repeat constructor.
      * exists (9 # 10)%Q. split; [reflexivity | lra].
      * exists (1 # 2)%Q. split; [reflexivity | lra].
  - apply (confidence_outcome [[[cand 1 3 (9 # 10)]]; []]).
    intros Hbest. apply Forall_cons in Hbest as [_ Hbest].
    apply Forall_cons in Hbest as [[c Hc] _]. discriminate Hc.
Defined.

(** ** Exact match, document F1 and top-n accuracy on one batch *)

Lemma squad_f1_zip preds labels :
  length preds = length labels ->
  squad_f1 preds labels
  = (f1_scores ← foldM (fun s '(p, l) => squad_f1_doc s p l) []
                   (zip preds labels);
     Ok (np_mean f1_scores)).
Proof.
  intros Hlen. unfold squad_f1. f_equal.
  apply (foldM_seq_zip squad_f1_doc); [lia|].
  intros s i p l Hp Hl. change (0 + i)%nat with i. unfold squad_f1_doc.
  rewrite (subscript_Some _ _ _ Hp). cbn.
  destruct (subscript p 0) as [best_pred|]; [|reflexivity]. cbn.
  by rewrite (subscript_Some _ _ _ Hl).
Qed.

Lemma py_max_elem (xs : list Q) m : py_max xs = Ok m -> m ∈ xs.
Proof.
  destruct xs as [|x0 xs]; [discriminate|]. cbn. intros [= <-].
  revert x0. induction xs as [|y xs IH]; intros x0; cbn.
  - apply list_elem_of_here.
  - specialize (IH (if Qle_bool y x0 then x0 else y)).
    apply elem_of_cons in IH as [->|IH].
    + destruct (Qle_bool y x0);
        [apply list_elem_of_here
        | apply list_elem_of_further, list_elem_of_here].
    + by do 2 apply list_elem_of_further.
Qed.

Lemma truthy_false v : truthy v = false -> (v == 0)%Q.
Proof.
  unfold truthy. intros H. apply negb_false_iff in H.
  by apply Qeq_bool_iff.
Qed.

(** Two loops over one aligned batch, kept in step by a relation between
    their states. *)
Lemma foldM_zip_rel {S1 S2 P L} (step1 : S1 -> P -> L -> result S1)
  (step2 : S2 -> P -> L -> result S2) (D : P -> L -> Prop)
  (R : nat -> S1 -> S2 -> Prop) :
  (forall k s1 s2 p l, D p l -> R k s1 s2 ->
     exists s1' s2', step1 s1 p l = Ok s1' /\ step2 s2 p l = Ok s2'
                     /\ R (S k) s1' s2') ->
  forall ps ls, Forall2 D ps ls ->
  forall k s1 s2, R k s1 s2 ->
  exists s1' s2',
    foldM (fun s '(p, l) => step1 s p l) s1 (zip ps ls) = Ok s1'
    /\ foldM (fun s '(p, l) => step2 s p l) s2 (zip ps ls) = Ok s2'
    /\ R (k + length ps)%nat s1' s2'.
Proof.
  intros Hstep ps ls HD.
  induction HD as [|p l ps ls Hd _ IH]; intros k s1 s2 HR.
  - exists s1, s2. cbn. rewrite Nat.add_0_r. auto.
  - destruct (Hstep k s1 s2 p l Hd HR) as (t1 & t2 & H1 & H2 & HR').
    destruct (IH (S k) t1 t2 HR') as (u1 & u2 & G1 & G2 & HR'').
    exists u1, u2. cbn [zip zip_with foldM]. rewrite H1, H2.
    split; [exact G1|]. split; [exact G2|].
    cbn [length]. by replace (k + S (length ps))%nat with (S k + length ps)%nat by lia.
Qed.

(** One document in [squad_f1] and [top_n_accuracy]: the best F1 lies in
    [[0, 1]], the top-n flag is 0 or 1 and not below it, and the best F1 is
    1 when the best candidate, with [start <= end], is a gold span. *)
Lemma f1_and_top_n_doc f1_scores answers pred curr_labels :
  scorable_doc pred curr_labels ->
  exists m h : Q,
    squad_f1_doc f1_scores pred curr_labels = Ok (f1_scores ++ [m])
    /\ top_n_doc answers pred curr_labels = Ok (answers ++ [h])
    /\ (0 <= m)%Q /\ (m <= h)%Q /\ (h <= 1)%Q
    /\ (forall c, best_of pred = Some c ->
          offset_answer_start c <= offset_answer_end c ->
          (offset_answer_start c, offset_answer_end c) ∈ curr_labels ->
          (1 <= m)%Q).
Proof.
  intros [[best Hbest] Hne].
  pose proof Hbest as Hb. apply best_of_Some in Hb as (candidates & Hp & Hc).
  assert (forall idx c, candidates !! idx = Some c ->
            comprehension
              (fun label => squad_f1_single candidates label idx) curr_labels
            = Ok (span_f1 c <$> curr_labels)) as Hcomp.
  { intros idx c Hidx. apply comprehension_fmap.
    intros [ls le] _. by apply squad_f1_single_eval. }
  destruct (py_max_upper (span_f1 best <$> curr_labels)) as (m & Hm & Hup).
  { by destruct curr_labels. }
  pose proof (py_max_elem _ _ Hm) as Hel.
  apply list_elem_of_fmap in Hel as (label & -> & _).
  pose proof (span_f1_bounds best label) as [Hm0 Hm1].
  set (m := span_f1 best label) in *.
  assert (squad_f1_doc f1_scores pred curr_labels = Ok (f1_scores ++ [m]))
    as Hf1.
  { unfold squad_f1_doc. rewrite (subscript_Some _ _ _ Hp). cbn.
    rewrite (Hcomp 0%nat best Hc). cbn. by rewrite Hm. }
  assert (forall c, best_of pred = Some c ->
            offset_answer_start c <= offset_answer_end c ->
            (offset_answer_start c, offset_answer_end c) ∈ curr_labels ->
            (1 <= m)%Q) as Hexact.
  { intros c Hc' Hord Hin. rewrite Hbest in Hc'. injection Hc' as <-.
    rewrite <- (span_f1_exact best Hord). apply Hup.
    apply list_elem_of_fmap. eauto. }
  unfold top_n_doc. rewrite (subscript_Some _ _ _ Hp). cbn.
  set (f1_at := fun idx : nat => _).
  assert (f1_at 0%nat = Ok m) as Hat0.
  { unfold f1_at. rewrite (Hcomp 0%nat best Hc). cbn. exact Hm. }
  destruct candidates as [|c0 rest]; [discriminate|].
  cbn [length seq scan_until_hit]. rewrite Hat0. cbn.
  destruct (truthy m) eqn:Ht.
  - cbn. rewrite Ht. exists m, 1%Q. repeat split; try done; lra.
  - apply truthy_false in Ht.
    destruct (scan_until_hit_total f1_at (seq 1 (length rest)) m) as [v Hv].
    { intros idx Hidx. apply elem_of_seq in Hidx.
      destruct (lookup_lt_is_Some_2 (c0 :: rest) idx) as [c Hcidx];
        [cbn; lia|].
      unfold f1_at. rewrite (Hcomp idx c Hcidx). cbn.
      destruct (py_max_upper (span_f1 c <$> curr_labels)) as (m' & Hm' & _);
        [by destruct curr_labels | eauto]. }
    rewrite Hv. cbn.
    exists m, (if truthy v then 1%Q else 0%Q).
    split; [exact Hf1|]. split; [by destruct (truthy v)|].
    split; [done|]. split; [destruct (truthy v); lra|].
    split; [destruct (truthy v); lra | exact Hexact].
Qed.

Lemma np_mean_nonempty (xs : list Q) :
  xs <> [] -> np_mean xs = Fin (Qsum xs / len xs).
Proof. by destruct xs. Qed.

Lemma len_pos {A} (xs : list A) : xs <> [] -> (0 < len xs)%Q.
Proof.
  intros Hne. unfold len. apply inject_Z_pos. destruct xs; [done | cbn; lia].
Qed.

Lemma inject_nat_S (k : nat) :
  (inject_Z (Z.of_nat (S k)) == inject_Z (Z.of_nat k) + 1)%Q.
Proof. rewrite Nat2Z.inj_succ, <- Z.add_1_r, inject_Z_plus. reflexivity. Qed.

Lemma squad_f1_top_n_chain preds labels :
  preds <> [] ->
  Forall2 scorable_doc preds labels ->
  exists f top : Q,
    squad_f1 preds labels = Ok (Fin f)
    /\ top_n_accuracy preds labels = Ok (Fin top)
    /\ (0 <= f)%Q /\ (f <= top)%Q /\ (top <= 1)%Q.
Proof.
  intros Hne Hdocs. pose proof (Forall2_length _ _ _ Hdocs) as Hlen.
  rewrite squad_f1_zip, top_n_accuracy_zip by exact Hlen.
  destruct (foldM_zip_rel squad_f1_doc top_n_doc scorable_doc
              (fun k (f1s answers : list Q) =>
                 length f1s = k /\ length answers = k
                 /\ (0 <= Qsum f1s)%Q /\ (Qsum f1s <= Qsum answers)%Q
                 /\ (Qsum answers <= inject_Z (Z.of_nat k))%Q))
    with (ps := preds) (ls := labels) (k := 0%nat)
         (s1 := @nil Q) (s2 := @nil Q)
    as (f1s & answers & -> & -> & Hl1 & Hl2 & H0 & Hle & Hhi).
  - intros k f1s answers p l Hd (Hk1 & Hk2 & Hs0 & Hsle & Hshi).
    destruct (f1_and_top_n_doc f1s answers p l Hd)
      as (m & h & Hf & Ht & Hm0 & Hmh & Hh1 & _).
    exists (f1s ++ [m]), (answers ++ [h]).
    split; [exact Hf|]. split; [exact Ht|].
    rewrite !length_app, !Qsum_snoc, inject_nat_S. cbn [length].
    repeat split; try lia; lra.
  - exact Hdocs.
  - repeat split; try reflexivity; exact (Qle_refl 0).
  - cbn [Nat.add] in *. cbn [mbind result_bind].
    assert (f1s <> []) by (destruct f1s; [destruct preds; done | done]).
    assert (answers <> []) by (destruct answers; [destruct preds; done | done]).
    rewrite !np_mean_nonempty by done.
    eexists _, _. split; [reflexivity|]. split; [reflexivity|].
    pose proof (len_pos preds Hne) as Hpos.
    unfold len in *. rewrite Hl1, Hl2.
    split; [apply Qle_shift_div_l; lra|].
    split; [|apply Qle_shift_div_r; lra].
    unfold Qdiv. apply Qmult_le_compat_r; [exact Hle|].
    apply Qinv_le_0_compat. lra.
Qed.

(** X8. On a non-empty aligned batch in which every document has a best
    candidate and at least one gold span, [squad_f1] and [top_n_accuracy]
    both return a number, and 0 <= document F1 <= top-n accuracy <= 1. *)
Theorem squad_f1_le_top_n_accuracy preds labels :
  preds <> [] ->
  Forall2 scorable_doc preds labels ->
  exists f top : Q,
    squad_f1 preds labels = Ok (Fin f)
    /\ top_n_accuracy preds labels = Ok (Fin top)
    /\ (0 <= f)%Q /\ (f <= top)%Q /\ (top <= 1)%Q.
Proof. exact (squad_f1_top_n_chain preds labels). Qed.

Lemma squad_f1_le_top_n_accuracy_witness :
  exists f top : Q,
    squad_f1 [[[cand 2 5 (1 # 2); cand 7 9 (1 # 4)]]; [[cand 5 3 (1 # 2)]]]
             [[(4, 9)]; [(5, 3); (0, 0)]] = Ok (Fin f)
    /\ top_n_accuracy
         [[[cand 2 5 (1 # 2); cand 7 9 (1 # 4)]]; [[cand 5 3 (1 # 2)]]]
         [[(4, 9)]; [(5, 3); (0, 0)]] = Ok (Fin top)
    /\ (0 <= f)%Q /\ (f <= top)%Q /\ (top <= 1)%Q.
Proof.
  apply squad_f1_le_top_n_accuracy; [discriminate|].
  repeat constructor; try (by eexists); discriminate.
Defined.

Lemma squad_EM_f1_chain preds labels :
  preds <> [] ->
  Forall2 well_formed_doc preds labels ->
  exists em f : Q,
    squad_EM preds labels = Ok em
    /\ squad_f1 preds labels = Ok (Fin f)
    /\ (em <= f)%Q.
Proof.
  intros Hne Hdocs. pose proof (Forall2_length _ _ _ Hdocs) as Hlen.
  rewrite squad_EM_zip, squad_f1_zip by exact Hlen.
  destruct (foldM_zip_rel squad_EM_doc squad_f1_doc well_formed_doc
              (fun k (n_correct : nat) (f1s : list Q) =>
                 length f1s = k
                 /\ (inject_Z (Z.of_nat n_correct) <= Qsum f1s)%Q))
    with (ps := preds) (ls := labels) (k := 0%nat)
         (s1 := 0%nat) (s2 := @nil Q)
    as (n_correct & f1s & -> & -> & Hl & Hle).
  - intros k n_correct f1s p l (cs & best & Hp & Hc & Hord & Hnl) [Hk Hinv].
    assert (best_of p = Some best) as Hbest by (apply best_of_Some; eauto).
    destruct (f1_and_top_n_doc f1s [] p l) as (m & h & Hf & _ & Hm0 & _ & _ & Hex).
    { split; [by eexists | exact Hnl]. }
    rewrite (squad_EM_doc_ok _ _ _ _ _ Hp Hc), Hf.
    eexists _, _. split; [reflexivity|]. split; [reflexivity|].
    rewrite length_app, Qsum_snoc. cbn [length]. split; [lia|].
    case_bool_decide as Hin.
    + specialize (Hex best Hbest Hord Hin). rewrite inject_nat_succ. lra.
    + lra.
  - exact Hdocs.
  - split; [reflexivity | exact (Qle_refl 0)].
  - cbn [Nat.add] in *. cbn [mbind result_bind].
    assert (f1s <> []) by (destruct f1s; [destruct preds; done | done]).
    rewrite np_mean_nonempty by done.
    pose proof (len_pos preds Hne) as Hpos. unfold len in *.
    unfold ratio_or_zero.
    destruct (Nat.eqb_spec (length preds) 0) as [E|_];
      [destruct preds; done|].
    rewrite truediv_ok by lra.
    eexists _, _. split; [reflexivity|]. split; [reflexivity|].
    rewrite Hl. unfold Qdiv. apply Qmult_le_compat_r; [exact Hle|].
    apply Qinv_le_0_compat. lra.
Qed.

(** X9. On a non-empty aligned batch of well-formed documents (best
    candidate with [start <= end], at least one gold span) the exact-match
    score is at most the document F1: an exact match has F1 1. *)
Theorem squad_EM_le_squad_f1 preds labels :
  preds <> [] ->
  Forall2 well_formed_doc preds labels ->
  exists em f : Q,
    squad_EM preds labels = Ok em
    /\ squad_f1 preds labels = Ok (Fin f)
    /\ (em <= f)%Q.
Proof. exact (squad_EM_f1_chain preds labels). Qed.

Lemma squad_EM_le_squad_f1_witness :
  exists em f : Q,
    squad_EM [[[cand 1 3 (9 # 10)]]; [[cand 2 5 (1 # 2); cand 7 9 (1 # 4)]]]
             [[(1, 3)]; [(4, 9); (0, 0)]] = Ok em
    /\ squad_f1
         [[[cand 1 3 (9 # 10)]]; [[cand 2 5 (1 # 2); cand 7 9 (1 # 4)]]]
         [[(1, 3)]; [(4, 9); (0, 0)]] = Ok (Fin f)
    /\ (em <= f)%Q.
Proof.
  apply squad_EM_le_squad_f1; [discriminate|].
  repeat constructor.
  - exists [cand 1 3 (9 # 10)], (cand 1 3 (9 # 10)).
    repeat split; [cbn; lia | discriminate].
  - exists [cand 2 5 (1 # 2); cand 7 9 (1 # 4)], (cand 2 5 (1 # 2)).
    repeat split; [cbn; lia | discriminate].
Defined.

(** ** Shape and bounds of the calibration bins *)

Lemma foldM_invariant {S A} (body : S -> A -> result S) (I : S -> Prop) xs :
  (forall s x s', x ∈ xs -> I s -> body s x = Ok s' -> I s') ->
  forall s s', I s -> foldM body s xs = Ok s' -> I s'.
Proof.
  induction xs as [|x xs IH]; intros Hbody s s' Hs H.
  - cbn in H. by injection H as <-.
  - cbn in H. apply bind_Ok in H as (s1 & Hx & H).
    eapply IH; [| |exact H].
    + intros t y t' Hy. apply Hbody. by apply list_elem_of_further.
    + eapply Hbody; [apply list_elem_of_here | exact Hs | exact Hx].
Qed.

Lemma update_bin_length {A} (bins bins' : list A) i f :
  update_bin bins i f = Ok bins' -> length bins' = length bins.
Proof.
  unfold update_bin. intros H. bind_inv H. subst. apply length_alter.
Qed.

(** X10. Whenever [metrics_per_bin] returns, its three lists have ten
    entries each, and entry 0 of the exact-match list and of the
    confidence list is 0: bin 0 is counted but never evaluated. *)
Theorem metrics_per_bin_shape preds labels em_bins conf_bins counts :
  metrics_per_bin preds labels = Ok (em_bins, conf_bins, counts) ->
  length em_bins = 10%nat /\ length conf_bins = 10%nat
  /\ length counts = 10%nat
  /\ em_bins !! 0%nat = Some 0%Q /\ conf_bins !! 0%nat = Some 0%Q.
Proof.
  unfold metrics_per_bin. intros H.
  apply bind_Ok in H as ([[pb lb] cnt] & Hbins & H).
  apply bind_Ok in H as ([em conf] & Hcal & H).
  injection H as <- <- <-.
  assert (length cnt = 10%nat) as Hcnt.
  { apply (foldM_invariant assign_to_bin
             (fun st : list (list DocPred) * list (list DocLabels) * list nat =>
                length st.2 = 10%nat) _) in Hbins; [exact Hbins | | reflexivity].
    intros [[pb0 lb0] cnt0] [p l] [[pb1 lb1] cnt1] _ Hlen Hstep.
    cbn [snd] in *. unfold assign_to_bin in Hstep. bind_inv Hstep.
    match goal with
    | Hcount : update_bin cnt0 _ _ = Ok _ |- _ =>
        apply update_bin_length in Hcount
    end.
    congruence. }
  apply (foldM_invariant (calibrate_bin pb lb)
           (fun st : list Q * list Q =>
              length st.1 = 10%nat /\ length st.2 = 10%nat
              /\ st.1 !! 0%nat = Some 0%Q /\ st.2 !! 0%nat = Some 0%Q) _)
    in Hcal.
  - cbn [fst snd] in Hcal. tauto.
  - intros [em0 conf0] i [em1 conf1] Hi (Hl1 & Hl2 & He & Hc) Hstep.
    apply elem_of_seq in Hi. unfold calibrate_bin in Hstep. bind_inv Hstep.
    subst. cbn [fst snd] in *.
    rewrite !length_insert, !list_lookup_insert_ne by lia. auto.
  - repeat split.
Qed.

Lemma metrics_per_bin_shape_witness :
  metrics_per_bin [[[cand 0 0 (1 # 20)]]; [[cand 2 5 (95 # 100)]]]
                  [[(0, 0)]; [(6, 8)]]
  = Ok (replicate 10 0%Q, <[9%nat := (95 # 100)%Q]> (replicate 10 0%Q),
        [1; 0; 0; 0; 0; 0; 0; 0; 0; 1]%nat)
  /\ <[9%nat := (95 # 100)%Q]> (replicate 10 0%Q) !! 0%nat = Some 0%Q.
Proof.
  assert (metrics_per_bin [[[cand 0 0 (1 # 20)]]; [[cand 2 5 (95 # 100)]]]
                          [[(0, 0)]; [(6, 8)]]
          = Ok (replicate 10 0%Q, <[9%nat := (95 # 100)%Q]> (replicate 10 0%Q),
                [1; 0; 0; 0; 0; 0; 0; 0; 0; 1]%nat)) as Hrun
    by (vm_compute; reflexivity).
  split; [exact Hrun|].
  apply (metrics_per_bin_shape _ _ _ _ _ Hrun).
Defined.

Lemma round_mag_10 : (round_mag 10 == 10)%Q.
Proof. vm_compute. reflexivity. Qed.

Lemma assign_to_bin_above_one pred label s pred_bins label_bins counts :
  best_score pred = Some s -> exceeds_one (round64 s) ->
  length pred_bins = 10%nat ->
  assign_to_bin (pred_bins, label_bins, counts) (pred, label)
  = Raise (match b64_mul (round64 s) (B64 10) with
           | B64 _ => IndexError
           | _ => OverflowError
           end).
Proof.
  intros Hs Hgt Hpb.
  apply best_score_Some in Hs as (candidates & best & Hp & Hc & <-).
  rewrite (assign_to_bin_index _ _ _ _ _ _ _ Hp Hc).
  unfold score_times_ten.
  destruct (round64 (score best)) as [d|[|]|] eqn:Hd; cbn in Hgt; try done.
  cbn [b64_eqb].
  destruct (Qeq_bool d 1) eqn:E; [apply Qeq_bool_iff in E; lra|].
  cbn [b64_mul]. rewrite round64_pos by lra.
  destruct (Qle_bool (pow2 1024) (round_mag (d * 10))) eqn:Ebig;
    [reflexivity|].
  cbn [b64_int mbind result_bind].
  pose proof (round_mag_mono 10 (d * 10) ltac:(reflexivity) ltac:(lra)) as Hq.
  rewrite round_mag_10 in Hq.
  rewrite py_int_nonneg by lra.
  pose proof (Qfloor_resp_le _ _ Hq) as Hfl.
  change (Qfloor 10%Q) with 10 in Hfl.
  unfold update_bin. rewrite Hpb. unfold normalize_index.
  destruct (Z.ltb_spec (Qfloor (round_mag (d * 10))) (Z.of_nat 10)); [lia|].
  destruct (Z.ltb_spec (Qfloor (round_mag (d * 10))) 0); [lia|].
  by rewrite !andb_false_r.
Qed.

(** X11. A best score whose double exceeds 1 has no bin: if the documents
    before it have scores in [[0, 1]], [metrics_per_bin] raises at that
    document, [IndexError] when [score * 10] is a finite double and
    [OverflowError] when the product is infinite. *)
Theorem metrics_per_bin_score_above_one pre pred post lpre label lpost s :
  length pre = length lpre ->
  Forall score_in_unit pre ->
  best_score pred = Some s -> exceeds_one (round64 s) ->
  metrics_per_bin (pre ++ pred :: post) (lpre ++ label :: lpost)
  = Raise (match b64_mul (round64 s) (B64 10) with
           | B64 _ => IndexError
           | _ => OverflowError
           end).
Proof.
  intros Hlen Hunit Hs Hgt. unfold metrics_per_bin.
  rewrite zip_with_app by exact Hlen. rewrite foldM_app.
  destruct (binning_loop pre lpre (replicate 10 []) (replicate 10 [])
              (replicate 10 0%nat))
    as (pb & lb & cnt & Hfold & Hpb & _); try done.
  { apply Forall2_replicate. split; [reflexivity | constructor]. }
  rewrite Hfold. cbn [mbind result_bind zip_with foldM].
  by rewrite (assign_to_bin_above_one pred label s pb lb cnt Hs Hgt Hpb).
Qed.

Lemma metrics_per_bin_score_above_one_witness :
  metrics_per_bin [[[cand 1 3 (9 # 10)]]; [[cand 2 5 (3 # 2)]]]
                  [[(1, 3)]; [(6, 8)]] = Raise IndexError
  /\ metrics_per_bin [[[cand 1 3 (9 # 10)]]; [[cand 2 5 (pow2 1021)]]]
                     [[(1, 3)]; [(6, 8)]] = Raise OverflowError.
Proof.
  split.
  - refine (eq_trans
              (metrics_per_bin_score_above_one [[[cand 1 3 (9 # 10)]]]
                 [[cand 2 5 (3 # 2)]] [] [[(1, 3)]] [(6, 8)] [] (3 # 2)%Q
                 _ _ _ _) _).
    + reflexivity.
    + repeat constructor. exists (9 # 10)%Q. split; [reflexivity | lra].
    + reflexivity.
    + vm_compute. reflexivity.
    + vm_compute. reflexivity.
  - refine (eq_trans
              (metrics_per_bin_score_above_one [[[cand 1 3 (9 # 10)]]]
                 [[cand 2 5 (pow2 1021)]] [] [[(1, 3)]] [(6, 8)] []
                 (pow2 1021) _ _ _ _) _).
    + reflexivity.
    + repeat constructor. exists (9 # 10)%Q. split; [reflexivity | lra].
    + reflexivity.
    + vm_compute. reflexivity.
    + vm_compute. reflexivity.
Defined.

(** ** Text similarity: one-hot encoding and gold rank errors *)

Lemma one_hot_step (y : list Z) :
  top1_in_range y ->
  exists y0, y !! 0%nat = Some y0
    /\ replicate (Z.to_nat y0) 0 ++ [1]
         ++ replicate (Z.to_nat (Z.of_nat (length y) - y0 - 1)) 0
       = one_hot (length y) (top1 y).
Proof.
  intros (y0 & Hy0 & Hrange). exists y0. split; [exact Hy0|].
  unfold one_hot, top1. rewrite Hy0. cbn [default from_option]. unfold id.
  rewrite insert_replicate_lt by lia.
  by replace (Z.to_nat (Z.of_nat (length y) - y0 - 1))
    with (length y - S (Z.to_nat y0))%nat by lia.
Qed.

Lemma one_hot_top1_fold preds : forall acc,
  Forall top1_in_range preds ->
  foldM (fun x y =>
      y0 ← subscript y 0;
      Ok (x ++ replicate (Z.to_nat y0) 0 ++ [1]
            ++ replicate (Z.to_nat (Z.of_nat (length y) - y0 - 1)) 0))
    acc preds
  = Ok (acc ++ concat ((fun y => one_hot (length y) (top1 y)) <$> preds)).
Proof.
  induction preds as [|y preds IH]; intros acc Hin.
  - cbn. by rewrite app_nil_r.
  - apply Forall_cons in Hin as [Hy Hin].
    destruct (one_hot_step y Hy) as (y0 & Hy0 & Heq).
    cbn [foldM]. rewrite (subscript_Some _ _ _ Hy0). cbn [mbind result_bind].
    rewrite Heq, IH by exact Hin. cbn [fmap list_fmap concat].
    by rewrite <- app_assoc.
Qed.

Lemma flatten_labels_concat labels : flatten_labels labels = concat labels.
Proof.
  unfold flatten_labels.
  assert (forall acc, fold_left (fun x y : list Z => x ++ y) labels acc
                      = acc ++ concat labels) as H.
  { induction labels as [|l labels IH]; intros acc; cbn.
    - by rewrite app_nil_r.
    - by rewrite IH, <- app_assoc. }
  apply (H []).
Qed.

(** X12. When the first entry of every ranking is a position of that
    ranking, [one_hot_top1] returns, query after query, the vector of the
    ranking's length with a single 1 at that position; if every ranking is
    as long as its relevance vector, the result is as long as the flattened
    labels it is compared with.  An empty ranking raises [IndexError]. *)
Theorem one_hot_top1_encoding preds labels :
  (Forall top1_in_range preds ->
   one_hot_top1 preds
   = Ok (concat ((fun y => one_hot (length y) (top1 y)) <$> preds))
   /\ (Forall2 (fun (y label : list Z) => length y = length label)
         preds labels ->
       length (concat ((fun y => one_hot (length y) (top1 y)) <$> preds))
       = length (flatten_labels labels)))
  /\ ([] ∈ preds -> one_hot_top1 preds = Raise IndexError).
Proof.
  split.
  - intros Hin. split.
    + unfold one_hot_top1. by rewrite one_hot_top1_fold.
    + intros Hlen. rewrite flatten_labels_concat. clear Hin.
      induction Hlen as [|y label preds labels Hy _ IH]; [reflexivity|].
      cbn [fmap list_fmap concat]. rewrite !length_app, IH. f_equal.
      unfold one_hot. by rewrite length_insert, length_replicate.
  - intros Hempty. unfold one_hot_top1.
    destruct (foldM _ [] preds) as [out|e] eqn:Hfold.
    + destruct (foldM_Ok_inv _ _ _ _ Hfold [] Hempty) as (s1 & s2 & Hbody).
      discriminate Hbody.
    + f_equal. eapply foldM_Raise_inv; [|exact Hfold].
      intros s y e' Hbody.
      apply bind_Raise in Hbody as [Hb|(y0 & _ & Hbody)];
        [by apply subscript_Raise in Hb | discriminate].
Qed.

Lemma one_hot_top1_encoding_witness :
  one_hot_top1 [[2; 0; 1]; [0; 1]] = Ok [0; 0; 1; 1; 0]
  /\ one_hot_top1 [[2; 0; 1]; []] = Raise IndexError.
Proof.
  split.
  - apply (one_hot_top1_encoding [[2; 0; 1]; [0; 1]] []).
    repeat constructor.
    + exists 2. split; [reflexivity | cbn; lia].
    + exists 0. split; [reflexivity | cbn; lia].
  - apply (one_hot_top1_encoding [[2; 0; 1]; []] []).
    apply list_elem_of_further, list_elem_of_here.
Defined.

Lemma rank_loop_prefix (all : list (list Z)) preds gs rs :
  Forall3 ranked_at preds gs rs ->
  forall (k rank : nat),
  (forall i ranking, preds !! i = Some ranking ->
     all !! (k + i)%nat = Some ranking) ->
  foldM (accumulate_rank all) rank (zip (seq k (length gs)) gs)
  = Ok (rank + sum_list rs)%nat.
Proof.
  induction 1 as [|ranking g r preds gs rs Hr _ IH];
    intros k rank Hall.
  - cbn. f_equal. lia.
  - cbn [length seq zip zip_with foldM].
    pose proof (Hall 0%nat ranking eq_refl) as H0.
    rewrite Nat.add_0_r in H0.
    rewrite (accumulate_rank_ok all rank k ranking g r H0 Hr). cbn.
    transitivity (Ok (A:=nat) (rank + r + sum_list rs)%nat);
      [|f_equal; cbn; lia].
    apply (IH (S k) (rank + r)%nat).
    intros i y Hy. replace (S k + i)%nat with (k + S i)%nat by lia.
    by apply Hall.
Qed.

Lemma positive_idx_prefix labels : forall acc,
  exists rest,
    fold_left (fun x y => x ++ nonzero (map (fun v => v =? 1) y)) labels acc
    = acc ++ rest.
Proof.
  induction labels as [|l labels IH]; intros acc.
  - exists []. cbn. by rewrite app_nil_r.
  - cbn. destruct (IH (acc ++ nonzero (map (fun v => v =? 1) l)))
      as [rest ->].
    eexists. by rewrite <- app_assoc.
Qed.

Lemma enumerate_app {A} (xs ys : list A) :
  enumerate (xs ++ ys)
  = enumerate xs ++ zip (seq (length xs) (length ys)) ys.
Proof.
  unfold enumerate. rewrite length_app, seq_app.
  apply zip_with_app. by rewrite length_seq.
Qed.

Lemma nonzero_absent (xs : list Z) (v : Z) :
  v ∉ xs -> nonzero (map (fun x => x =? v) xs) = [].
Proof.
  intros Habs. unfold nonzero. apply nonzero_from_none.
  intros j Hj.
  change (map (fun x => x =? v) xs) with ((fun x => x =? v) <$> xs) in Hj.
  rewrite list_lookup_fmap in Hj.
  destruct (xs !! j) as [x|] eqn:Hx; [|discriminate].
  cbn in Hj. injection Hj as Hj. apply Z.eqb_eq in Hj as ->.
  apply Habs. by eapply list_elem_of_lookup_2.
Qed.

Lemma accumulate_rank_absent (all : list (list Z)) rank i ranking g :
  all !! i = Some ranking -> Z.of_nat g ∉ ranking ->
  accumulate_rank all rank (i, g) = Raise ValueError.
Proof.
  intros Hi Habs. unfold accumulate_rank.
  rewrite (subscript_Some _ _ _ Hi). cbn.
  by rewrite (nonzero_absent ranking (Z.of_nat g) Habs).
Qed.

(** X13. If the queries before it are in order and a query's only gold
    passage does not occur in its ranking, [text_similarity_avg_ranks]
    raises [ValueError] at that query, whatever follows. *)
Theorem text_similarity_avg_ranks_gold_absent
  pre ranking post lpre label lpost rs g :
  Forall3 gold_rank pre lpre rs ->
  gold_at label g ->
  Z.of_nat g ∉ ranking ->
  text_similarity_avg_ranks (pre ++ ranking :: post) (lpre ++ label :: lpost)
  = Raise ValueError.
Proof.
  intros Hpre [Hg Huniq] Habs.
  destruct (gold_rank_split _ _ _ Hpre) as (gs & Hgs & Hrs).
  unfold text_similarity_avg_ranks.
  rewrite fold_left_app. cbn [fold_left].
  rewrite (positive_idx_per_question_gold lpre gs []) by exact Hgs.
  rewrite app_nil_l, (nonzero_eq_unique label 1 g Hg Huniq).
  destruct (positive_idx_prefix lpost (gs ++ [g])) as [rest ->].
  rewrite <- !app_assoc. cbn [app].
  rewrite enumerate_app, foldM_app.
  unfold enumerate at 1.
  rewrite (rank_loop_prefix (pre ++ ranking :: post) pre gs rs Hrs 0%nat 0%nat).
  - cbn [mbind result_bind length seq zip zip_with foldM].
    pose proof (Forall3_length_lm _ _ _ _ Hrs) as Hlen.
    rewrite (accumulate_rank_absent _ _ _ ranking g); [reflexivity | | exact Habs].
    rewrite <- Hlen. by apply list_lookup_middle.
  - intros i y Hy. cbn [Nat.add]. rewrite lookup_app_l; [exact Hy|].
    by eapply lookup_lt_Some.
Qed.

Lemma text_similarity_avg_ranks_gold_absent_witness :
  text_similarity_avg_ranks [[1; 0; 2]; [2; 0]; [0; 1]]
                            [[0; 1; 0]; [0; 1; 0]; [1; 1]]
  = Raise ValueError.
Proof.
  apply (text_similarity_avg_ranks_gold_absent [[1; 0; 2]] [2; 0] [[0; 1]]
           [[0; 1; 0]] [0; 1; 0] [[1; 1]] [0%nat] 1%nat).
  - repeat constructor. exists 1%nat. repeat split.
    + intros [|[|[|j]]] Hj; done.
    + intros [|[|[|j]]] Hj; done.
  - split; [reflexivity|]. intros [|[|[|j]]] Hj; done.
  - intros H. repeat (apply elem_of_cons in H as [H|H]; [discriminate H|]).
    by apply elem_of_nil in H.
Defined.

(** ** What top-n accuracy counts *)

Lemma truthy_max (xs : list Q) m :
  Forall (fun x => 0 <= x)%Q xs -> py_max xs = Ok m ->
  truthy m = existsb truthy xs.
Proof.
  intros Hpos Hm. pose proof (py_max_elem _ _ Hm) as Hel.
  destruct (py_max_upper xs) as (m' & Hm' & Hup); [by destruct xs|].
  rewrite Hm in Hm'. injection Hm' as <-.
  destruct (truthy m) eqn:Ht; symmetry.
  - apply existsb_exists. exists m. split; [by apply list_elem_of_In | done].
  - apply not_true_is_false. intros Hex.
    apply existsb_exists in Hex as (x & Hx & Htx).
    apply list_elem_of_In in Hx. apply truthy_false in Ht.
    rewrite Forall_forall in Hpos.
    pose proof (Hpos x Hx). pose proof (Hup x Hx).
    unfold truthy in Htx. apply negb_true_iff in Htx.
    assert (x == 0)%Q as Hx0 by lra. apply Qeq_bool_iff in Hx0. congruence.
Qed.

Lemma scan_candidates (f1_at : nat -> result Q) (hit : QACandidate -> bool)
  (cs : list QACandidate) : forall k v0,
  truthy v0 = false ->
  (forall i c, cs !! i = Some c ->
     exists m, f1_at (k + i)%nat = Ok m /\ truthy m = hit c) ->
  exists v, scan_until_hit f1_at (seq k (length cs)) v0 = Ok v
            /\ truthy v = existsb hit cs.
Proof.
  induction cs as [|c cs IH]; intros k v0 Hv0 Hat; [by exists v0|].
  destruct (Hat 0%nat c eq_refl) as (m & Hm & Hhit).
  rewrite Nat.add_0_r in Hm.
  cbn [length seq scan_until_hit existsb]. rewrite Hm. cbn [mbind result_bind].
  rewrite <- Hhit. destruct (truthy m) eqn:Ht.
  - exists m. by rewrite Ht.
  - destruct (IH (S k) m Ht) as (v & Hv & Hex).
    + intros i c' Hc'. replace (S k + i)%nat with (k + S i)%nat by lia.
      by apply Hat.
    + exists v. by rewrite Hv, Hex.
Qed.

Lemma top_n_doc_flag answers pred curr_labels :
  scorable_doc pred curr_labels ->
  top_n_doc answers pred curr_labels
  = Ok (answers ++ [hit_flag (pred, curr_labels)]).
Proof.
  intros [[best Hbest] Hne].
  apply best_of_Some in Hbest as (candidates & Hp & _).
  unfold top_n_doc, hit_flag, overlap_hit. cbn [fst snd].
  rewrite (subscript_Some _ _ _ Hp), Hp. cbn [mbind result_bind].
  set (f1_at := fun idx : nat => _).
  destruct (scan_candidates f1_at
              (fun c => existsb (fun label => truthy (span_f1 c label))
                          curr_labels) candidates 0%nat 0%Q)
    as (v & Hv & Hex); [reflexivity| |].
  - intros i c Hc. cbn [Nat.add]. unfold f1_at.
    rewrite (comprehension_fmap _ (span_f1 c))
      by (intros [ls le] _; by apply squad_f1_single_eval).
    cbn [mbind result_bind].
    destruct (py_max_upper (span_f1 c <$> curr_labels)) as (m & Hm & _);
      [by destruct curr_labels|].
    exists m. split; [exact Hm|].
    rewrite (truthy_max (span_f1 c <$> curr_labels) m).
    + clear. induction curr_labels as [|l ls IH]; [reflexivity|].
      cbn. by rewrite IH.
    + apply Forall_fmap, Forall_forall. intros label _.
      apply span_f1_bounds.
    + exact Hm.
  - rewrite Hv. cbn [mbind result_bind]. rewrite Hex.
    by destruct (existsb _ candidates).
Qed.

Lemma top_n_fold (docs : list (DocPred * DocLabels)) : forall answers,
  Forall (fun doc => scorable_doc doc.1 doc.2) docs ->
  foldM (fun s '(p, l) => top_n_doc s p l) answers docs
  = Ok (answers ++ (hit_flag <$> docs)).
Proof.
  induction docs as [|[p l] docs IH]; intros answers Hdocs.
  - cbn. by rewrite app_nil_r.
  - apply Forall_cons in Hdocs as [Hd Hdocs]. cbn [fst snd] in Hd.
    cbn [foldM]. rewrite (top_n_doc_flag answers p l Hd).
    cbn [mbind result_bind]. rewrite IH by exact Hdocs.
    cbn [fmap list_fmap]. by rewrite <- app_assoc.
Qed.

(** X14. On an aligned batch in which every document has a best candidate
    and at least one gold span, [top_n_accuracy] is the mean, over the
    documents, of the flag that is 1 when some candidate of the document,
    at whatever rank, has a non-zero F1 against some gold span, and 0
    otherwise. *)
Theorem top_n_accuracy_hit_rate preds labels :
  Forall2 scorable_doc preds labels ->
  top_n_accuracy preds labels = Ok (np_mean (hit_flag <$> zip preds labels)).
Proof.
  intros Hdocs. pose proof (Forall2_length _ _ _ Hdocs) as Hlen.
  rewrite top_n_accuracy_zip by exact Hlen.
  rewrite top_n_fold; [reflexivity|].
  clear Hlen. induction Hdocs; constructor; assumption.
Qed.

Lemma top_n_accuracy_hit_rate_witness :
  top_n_accuracy [[[cand 2 5 (1 # 2); cand 7 9 (1 # 4)]]; [[cand 1 2 (1 # 2)]]]
                 [[(8, 8)]; [(5, 9); (0, 0)]]
  = Ok (np_mean (hit_flag <$>
          zip [[[cand 2 5 (1 # 2); cand 7 9 (1 # 4)]]; [[cand 1 2 (1 # 2)]]]
              [[(8, 8)]; [(5, 9); (0, 0)]])).
Proof.
  apply top_n_accuracy_hit_rate.
  repeat constructor; try (by eexists); discriminate.
Defined.

(** ** The text-similarity bundle *)

(** X15. When [text_similarity_metric] returns, the result has exactly the
    entries ["acc"], ["f1"], ["acc_and_f1"] and ["average_rank"], in this
    order, and ["average_rank"] holds what [text_similarity_avg_ranks]
    returns on the same rankings and relevance vectors. *)
Theorem text_similarity_metric_entries ext preds labels v :
  text_similarity_metric ext preds labels = Ok v ->
  exists acc f1 both rankings relevance r,
    v = PyDict [("acc", acc); ("f1", f1); ("acc_and_f1", both);
                ("average_rank", of_Q r)]
    /\ as_int_arrays preds = Ok rankings
    /\ as_int_arrays labels = Ok relevance
    /\ text_similarity_avg_ranks rankings relevance = Ok r.
Proof.
  unfold text_similarity_metric. intros H.
  apply bind_Ok in H as (scores & Hscores & H).
  apply bind_Ok in H as (rankings & Hrank & H).
  apply bind_Ok in H as (relevance & Hrel & H).
  apply bind_Ok in H as (r & Hr & H).
  unfold text_similarity_acc_and_f1 in Hscores.
  apply bind_Ok in Hscores as (rankings' & _ & Hscores).
  apply bind_Ok in Hscores as (top_1 & _ & Hscores).
  apply bind_Ok in Hscores as (relevance' & _ & Hscores).
  unfold acc_and_f1 in Hscores. bind_inv Hscores. subst scores.
  cbn in H. injection H as <-.
  by eexists _, _, _, rankings, relevance, r.
Qed.

Lemma text_similarity_metric_entries_witness :
  exists acc f1 both rankings relevance r,
    PyDict [("acc", PyFloat (Fin (1 # 4))); ("f1", PyFloat (Fin (1 # 2)));
            ("acc_and_f1", PyFloat (Fin (((1 # 4) + (1 # 2)) / 2)%Q));
            ("average_rank", of_Q (2 # 2))]
    = PyDict [("acc", acc); ("f1", f1); ("acc_and_f1", both);
              ("average_rank", of_Q r)]
    /\ as_int_arrays two_rankings = Ok rankings
    /\ as_int_arrays two_relevances = Ok relevance
    /\ text_similarity_avg_ranks rankings relevance = Ok r.
Proof.
  apply (text_similarity_metric_entries fixed_externals
           two_rankings two_relevances).
  vm_compute. reflexivity.
Defined.

(** ** The aggregate metric on a well-formed batch *)

Lemma well_formed_scorable preds labels :
  Forall2 well_formed_doc preds labels -> Forall2 scorable_doc preds labels.
Proof.
  induction 1 as [|p l preds labels (cs & best & Hp & Hc & _ & Hne) _ IH];
    constructor; [|exact IH].
  split; [|exact Hne]. exists best. apply best_of_Some. eauto.
Qed.

Lemma score_in_unit_best preds :
  Forall score_in_unit preds -> all_have_best preds.
Proof.
  intros H. eapply Forall_impl; [exact H|].
  intros pred (s & Hs & _). rewrite best_score_best_of in Hs.
  destruct (best_of pred) as [c|]; [by exists c | discriminate].
Qed.

Lemma confidence_bounds preds :
  Forall score_in_unit preds ->
  exists v, confidence preds = Ok v /\ (0 <= v <= 1)%Q.
Proof.
  intros Hunit. pose proof (score_in_unit_best _ Hunit) as Hbest.
  rewrite (confidence_value _ Hbest).
  eexists. split; [reflexivity|].
  destruct (Nat.eqb_spec (length preds) 0) as [|Hn]; [lra|].
  assert (Forall (fun x => 0 <= x <= 1)%Q (omap best_score preds)) as Hxs.
  { clear -Hunit. induction Hunit as [|pred preds (s & Hs & Hr) _ IH];
      [constructor|]. cbn. rewrite Hs. by constructor. }
  destruct (fold_left_Qplus_bounds _ Hxs 0%Q) as [Hlo Hhi].
  fold (Qsum (omap best_score preds)) in Hlo, Hhi.
  unfold len in *. rewrite (length_omap_best_score _ Hbest) in Hhi.
  assert (0 < inject_Z (Z.of_nat (length preds)))%Q
    by (apply inject_Z_pos; lia).
  split.
  - apply Qle_shift_div_l; lra.
  - apply Qle_shift_div_r; lra.
Qed.

Lemma metrics_per_bin_total preds labels :
  length preds = length labels ->
  Forall score_in_unit preds ->
  exists em_bins conf_bins counts,
    metrics_per_bin preds labels = Ok (em_bins, conf_bins, counts)
    /\ sum_list counts = length preds.
Proof.
  intros Hlen Hunit. unfold metrics_per_bin.
  destruct (binning_loop preds labels (replicate 10 []) (replicate 10 [])
              (replicate 10 0%nat))
    as (pb & lb & cnt & Hfold & Hpb & Hlb & Hcnt & Hal & Hsum & _);
    try done.
  { apply Forall2_replicate. split; [reflexivity | constructor]. }
  rewrite Hfold. cbn -[replicate seq].
  destruct (foldM_total (calibrate_bin pb lb) (seq 1 9)
              (replicate 10 0%Q, replicate 10 0%Q)) as [[em conf] Hcal].
  { intros [em conf] i Hi. apply elem_of_seq in Hi.
    destruct (lookup_lt_is_Some_2 pb i) as [pred_bin Hpi]; [lia|].
    destruct (Forall2_lookup_l _ _ _ _ _ Hal Hpi)
      as (label_bin & Hli & Hlen_i & Hbest).
    unfold calibrate_bin.
    rewrite (subscript_Some _ _ _ Hpi), (subscript_Some _ _ _ Hli). cbn.
    destruct (squad_EM_start_total pred_bin label_bin Hlen_i Hbest)
      as [v ->].
    destruct (confidence_total pred_bin Hbest) as [c ->].
    cbn. by eexists. }
  rewrite Hcal. cbn -[replicate].
  exists em, conf, cnt. split; [reflexivity|]. rewrite Hsum. reflexivity.
Qed.

(** X16. On a non-empty aligned batch of well-formed documents whose best
    scores lie in [[0, 1]], [squad] returns its bundle without raising, with
    0 <= EM <= F1 <= top-n accuracy <= 1, a mean confidence in [[0, 1]],
    and bin counts that sum to the number of documents. *)
Theorem squad_well_formed preds labels :
  preds <> [] ->
  Forall2 well_formed_doc preds labels ->
  Forall score_in_unit preds ->
  exists (m : SquadMetrics) (f top : Q),
    squad preds labels = Ok m
    /\ f1 m = Fin f /\ top_n_acc m = Fin top
    /\ (0 <= EM m)%Q /\ (EM m <= f)%Q /\ (f <= top)%Q /\ (top <= 1)%Q
    /\ (0 <= mean_confidence m <= 1)%Q
    /\ sum_list (count_per_bin m) = length preds.
Proof.
  intros Hne Hwf Hunit.
  pose proof (Forall2_length _ _ _ Hwf) as Hlen.
  destruct (squad_EM_f1_chain preds labels Hne Hwf)
    as (em & f & Hem & Hf & Hemf).
  destruct (squad_f1_top_n_chain preds labels Hne
              (well_formed_scorable _ _ Hwf))
    as (f' & top & Hf' & Htop & Hf0 & Hft & Ht1).
  rewrite Hf in Hf'. injection Hf' as <-.
  destruct (confidence_bounds preds Hunit) as (conf & Hconf & Hcb).
  destruct (metrics_per_bin_total preds labels Hlen Hunit)
    as (em_bins & conf_bins & counts & Hbins & Hsum).
  assert (0 <= em)%Q as Hem0.
  { rewrite squad_EM_value in Hem
      by (lia || by apply score_in_unit_best).
    destruct (ratio_or_zero_bounds (exact_matches preds labels)
                (length preds)) as (v & Hv & Hv0 & _).
    - unfold exact_matches. etransitivity; [apply length_filter|].
      rewrite length_zip. lia.
    - rewrite Hv in Hem. by injection Hem as <-. }
  unfold squad. rewrite Hem, Hf, Htop, Hconf, Hbins.
  cbn [mbind result_bind].
  eexists _, f, top. split; [reflexivity|]. cbn.
  repeat split; assumption || tauto.
Qed.

Lemma squad_well_formed_witness :
  exists (m : SquadMetrics) (f top : Q),
    squad [[[cand 1 3 (9 # 10)]]; [[cand 2 5 (1 # 2); cand 7 9 (1 # 4)]]]
          [[(1, 3)]; [(8, 8); (0, 0)]] = Ok m
    /\ f1 m = Fin f /\ top_n_acc m = Fin top
    /\ (0 <= EM m)%Q /\ (EM m <= f)%Q /\ (f <= top)%Q /\ (top <= 1)%Q
    /\ (0 <= mean_confidence m <= 1)%Q
    /\ sum_list (count_per_bin m) = 2%nat.
Proof.
  apply (squad_well_formed
           [[[cand 1 3 (9 # 10)]]; [[cand 2 5 (1 # 2); cand 7 9 (1 # 4)]]]
           [[(1, 3)]; [(8, 8); (0, 0)]]); [discriminate | |].
  - repeat constructor.
    + exists [cand 1 3 (9 # 10)], (cand 1 3 (9 # 10)).
      repeat split; [cbn; lia | discriminate].
    + exists [cand 2 5 (1 # 2); cand 7 9 (1 # 4)], (cand 2 5 (1 # 2)).
      repeat split; [cbn; lia | discriminate].
  - repeat constructor.
    + exists (9 # 10)%Q. split; [reflexivity | lra].
    + exists (1 # 2)%Q. split; [reflexivity | lra].
Defined.
